(** * Cognitive-reinforcement backend: scheduler, due set, quiz assembly,
      answer evaluation and submission, embedded from [quiz.py], [db.py]
      and [main.py].

    Conventions of the embedding.
    - A Python [float] is a binary64 value: Rocq's primitive [float], with
      the IEEE operations of [PrimFloat].
    - A Python [int] is a [Z]; a [str] is a [string] read as a sequence of
      ASCII code points (code points above 127 are left alone by
      [Py.lower] and are never white space).
    - A [datetime] is a [Z], the microseconds since the epoch; a nullable
      column is an [option].
    - A table is the list of its rows in insertion order: [insert] appends,
      [select ... .first()] is the first matching row, [.all()] the matching
      rows in order.
    - [datetime.utcnow()] and [uuid4()] are the two sources of
      nondeterminism.  The world carries, for each, the values the
      successive calls return and the number of calls made so far.
    - A function that can raise returns an [Outcome]; the state reached
      before the exception is kept, since every database helper commits its
      own transaction. *)

From Stdlib Require Import ZArith QArith Qminmax String Ascii List Bool Lia Lqa.
From Stdlib Require Import Floats.
From stdpp Require Import base option list gmap sets strings pretty.

#[local] Set Warnings "-inexact-float,-register-all".
#[local] Open Scope Z_scope.
#[local] Open Scope string_scope.
#[local] Open Scope list_scope.

(* ===================================================================== *)
(** * Part I: the program *)
(* ===================================================================== *)

(** ** Python builtins used by the sources *)
Module Py.

(** [min(a, b)]: the first argument unless the second is smaller. *)
Definition min (a b : float) : float := if (b <? a)%float then b else a.

(** [max(a, b)]: the first argument unless the second is larger. *)
Definition max (a b : float) : float := if (a <? b)%float then b else a.

(** [float(z)] for an int: the nearest binary64 value. *)
Definition float_of_int (z : Z) : float :=
  SF2Prim (binary_normalize prec emax z 0 false).

(** [a / b] on two ints.  Python rounds the exact quotient; this is the
    quotient of the two conversions, the same value as long as both
    operands are below 2^53 in magnitude. *)
Definition truediv (a b : Z) : float :=
  (float_of_int a / float_of_int b)%float.

(** [c.isspace()] on an ASCII code point: tab, line feed, vertical tab,
    form feed, carriage return, the four separators 0x1c-0x1f, space. *)
Definition isspace (c : ascii) : bool :=
  let n := N_of_ascii c in
  ((9 <=? n) && (n <=? 13) || (28 <=? n) && (n <=? 32))%N.

(** One character of [s.lower()]. *)
Definition lower_char (c : ascii) : ascii :=
  let n := N_of_ascii c in
  if ((65 <=? n) && (n <=? 90))%N then ascii_of_N (n + 32) else c.

Fixpoint lower (s : string) : string :=
  match s with
  | EmptyString => EmptyString
  | String c s' => String (lower_char c) (lower s')
  end.

Fixpoint lstrip (s : string) : string :=
  match s with
  | EmptyString => EmptyString
  | String c s' => if isspace c then lstrip s' else s
  end.

Fixpoint rstrip (s : string) : string :=
  match s with
  | EmptyString => EmptyString
  | String c s' =>
      match rstrip s' with
      | EmptyString => if isspace c then EmptyString else String c EmptyString
      | r => String c r
      end
  end.

(** [s.strip()]. *)
Definition strip (s : string) : string := lstrip (rstrip s).

(** A Python object as far as the sources look at it.  [Obj text] is any
    other object (a float, a list, a dict), kept as the text [str] gives
    for it. *)
Inductive Val : Type :=
| None_
| Bool (b : bool)
| Int (z : Z)
| Str (s : string)
| Obj (text : string).

(** [str(v)]. *)
Definition str (v : Val) : string :=
  match v with
  | None_ => "None"
  | Bool true => "True"
  | Bool false => "False"
  | Int z => pretty z
  | Str s => s
  | Obj text => text
  end.

(** Truth value of an optional string ([None] and [""] are false). *)
Definition truthy (o : option string) : bool :=
  match o with
  | Some s => negb (String.eqb s "")
  | None => false
  end.

(** [a or b] on optional strings. *)
Definition or_ (a b : option string) : option string :=
  if truthy a then a else b.

(** [l[:n]] for a possibly negative [n]. *)
Definition slice_to {A} (l : list A) (n : Z) : list A :=
  if (0 <=? n)%Z then take (Z.to_nat n) l
  else take (length l - Z.to_nat (- n))%nat l.

(** Decoded JSON, as [json.loads] returns it. *)
Inductive Json : Type :=
| JNull
| JBool (b : bool)
| JInt (z : Z)
| JFloat (f : float)
| JStr (s : string)
| JArr (items : list Json)
| JObj (members : list (string * Json)).

(** [d.get(k)] on a dict built from a literal or decoded from JSON: the
    last binding of [k] wins. *)
Fixpoint assoc_last (k : string) (kv : list (string * Json)) : option Json :=
  match kv with
  | [] => None
  | (k', v) :: rest =>
      match assoc_last k rest with
      | Some v' => Some v'
      | None => if String.eqb k k' then Some v else None
      end
  end.

(** [v.get(k)] for a decoded value that is a dict. *)
Definition get (k : string) (v : Json) : option Json :=
  match v with
  | JObj kv => assoc_last k kv
  | _ => None
  end.

Definition of_opt_str (o : option string) : Json :=
  match o with
  | Some s => JStr s
  | None => JNull
  end.

End Py.

(** ** [db.py]: tables, rows and the helpers the core uses *)
Module Db.

(** Row of [patients]. *)
Record Patient : Type := {
  pt_id : string;
  pt_full_name : string;
  pt_dob : string;
  pt_phone : option string;
  pt_address : option string;
  pt_created_at : option Z;
}.

(** Row of [family_members]. *)
Record FamilyMember : Type := {
  fm_id : string;
  fm_patient_id : string;
  fm_full_name : string;
  fm_relationship : string;
  fm_photo_blob_path : option string;
  fm_created_at : option Z;
}.

(** Row of [knowledge_items]. *)
Record KnowledgeItem : Type := {
  ki_id : string;
  ki_patient_id : string;
  ki_category : string;
  ki_label : string;
  ki_value : string;
  ki_sensitivity_level : Z;
  ki_is_active : bool;
  ki_created_at : option Z;
}.

(** Row of [quiz_sessions]. *)
Record QuizSession : Type := {
  qs_id : string;
  qs_patient_id : string;
  qs_created_at : option Z;
  qs_status : option string;
  qs_total_questions : option Z;
  qs_score : option float;
  qs_avg_response_time_ms : option float;
}.

(** The dict stored in [payload_json], decoded.  [main.generate_quiz]
    writes it with [json.dumps] and [main.submit_quiz] reads it back with
    [json.loads]; the row keeps the decoded value. *)
Record Payload : Type := {
  p_question_type : string;
  p_correct_answer : Py.Val;
  p_acceptable_answers : list string;
  p_item_type : option string;
  p_item_id : option string;
}.

(** Row of [quiz_questions]. *)
Record QuizQuestion : Type := {
  qq_id : string;
  qq_session_id : string;
  qq_question_type : string;
  qq_payload : Payload;
  qq_created_at : option Z;
}.

(** Row of [quiz_responses]; [qr_user_answer] is the value whose JSON text
    the column holds. *)
Record QuizResponse : Type := {
  qr_id : string;
  qr_session_id : string;
  qr_question_id : string;
  qr_user_answer : Py.Val;
  qr_correct : bool;
  qr_response_time_ms : Z;
  qr_created_at : option Z;
}.

(** Row of [mastery]. *)
Record Mastery : Type := {
  m_id : string;
  m_patient_id : string;
  m_item_type : string;
  m_item_id : string;
  m_mastery_score : float;
  m_consecutive_correct : Z;
  m_consecutive_incorrect : Z;
  m_last_seen_at : option Z;
  m_next_due_at : option Z;
}.

(** The database behind the engine. *)
Record Engine : Type := {
  family_members : list FamilyMember;
  knowledge_items : list KnowledgeItem;
  quiz_sessions : list QuizSession;
  quiz_questions : list QuizQuestion;
  quiz_responses : list QuizResponse;
  mastery : list Mastery;
}.

(** The state a request runs in: the database, the clock and the
    identifier generator.  [clock k] is what the [k]-th call of
    [datetime.utcnow()] returns and [uuids k] what the [k]-th call of
    [uuid4()] returns. *)
Record World : Type := {
  engine : Engine;
  clock : nat -> Z;
  ticks : nat;
  uuids : nat -> string;
  draws : nat;
}.

Inductive Exn : Type :=
| HTTPException (status_code : Z) (detail : string)
| TypeError
| AttributeError.

Inductive Outcome (A : Type) : Type :=
| Return (a : A)
| Raise (e : Exn).
Arguments Return {A} a.
Arguments Raise {A} e.

(** Computations over the world that may raise. *)
Definition M (A : Type) : Type := World -> Outcome A * World.

Definition ret {A} (a : A) : M A := fun w => (Return a, w).

Definition raise {A} (e : Exn) : M A := fun w => (Raise e, w).

Definition bind {A B} (c : M A) (k : A -> M B) : M B :=
  fun w =>
    match c w with
    | (Return a, w') => k a w'
    | (Raise e, w') => (Raise e, w')
    end.

Declare Scope py_scope.
Delimit Scope py_scope with py.
Notation "x <- c ;; k" := (bind c (fun x => k))
  (at level 100, c at next level, right associativity) : py_scope.
Notation "c ;;; k" := (bind c (fun _ => k))
  (at level 100, right associativity) : py_scope.
#[local] Open Scope py_scope.

(** [datetime.utcnow()]. *)
Definition utcnow : M Z :=
  fun w =>
    (Return (clock w (ticks w)),
     {| engine := engine w; clock := clock w; ticks := S (ticks w);
        uuids := uuids w; draws := draws w |}).

(** [_uuid()]. *)
Definition _uuid : M string :=
  fun w =>
    (Return (uuids w (draws w)),
     {| engine := engine w; clock := clock w; ticks := ticks w;
        uuids := uuids w; draws := S (draws w) |}).

Definition read {A} (f : Engine -> A) : M A := fun w => (Return (f (engine w)), w).

Definition write (f : Engine -> Engine) : M unit :=
  fun w =>
    (Return tt,
     {| engine := f (engine w); clock := clock w; ticks := ticks w;
        uuids := uuids w; draws := draws w |}).

(** [timedelta(days=d)] in microseconds. *)
Definition timedelta_days (d : Z) : Z := d * 86400000000.

Definition get_session (session_id : string) : M (option QuizSession) :=
  read (fun e => head (filter (fun r => qs_id r = session_id) (quiz_sessions e))).

Definition list_questions (session_id : string) : M (list QuizQuestion) :=
  read (fun e => filter (fun r => qq_session_id r = session_id) (quiz_questions e)).

Definition add_response (session_id question_id : string) (user_answer : Py.Val)
    (correct : bool) (response_time_ms : Z) : M unit :=
  id <- _uuid ;;
  now <- utcnow ;;
  write (fun e =>
    {| family_members := family_members e;
       knowledge_items := knowledge_items e;
       quiz_sessions := quiz_sessions e;
       quiz_questions := quiz_questions e;
       quiz_responses := quiz_responses e ++
         [ {| qr_id := id; qr_session_id := session_id;
              qr_question_id := question_id; qr_user_answer := user_answer;
              qr_correct := correct; qr_response_time_ms := response_time_ms;
              qr_created_at := Some now |} ];
       mastery := mastery e |}).

Definition complete_row (session_id : string) (score avg_response_time_ms : float)
    (r : QuizSession) : QuizSession :=
  if decide (qs_id r = session_id) then
    {| qs_id := qs_id r; qs_patient_id := qs_patient_id r;
       qs_created_at := qs_created_at r;
       qs_status := Some "completed";
       qs_total_questions := qs_total_questions r;
       qs_score := Some score;
       qs_avg_response_time_ms := Some avg_response_time_ms |}
  else r.

Definition complete_session (session_id : string) (score avg_response_time_ms : float)
    : M unit :=
  write (fun e =>
    {| family_members := family_members e;
       knowledge_items := knowledge_items e;
       quiz_sessions :=
         map (complete_row session_id score avg_response_time_ms) (quiz_sessions e);
       quiz_questions := quiz_questions e;
       quiz_responses := quiz_responses e;
       mastery := mastery e |}).

Definition mastery_key (patient_id item_type item_id : string) (r : Mastery) : Prop :=
  m_patient_id r = patient_id /\ m_item_type r = item_type /\ m_item_id r = item_id.

#[global] Instance mastery_key_dec p t i r : Decision (mastery_key p t i r).
Proof. unfold mastery_key. apply _. Defined.

Definition _get_mastery_row (patient_id item_type item_id : string) : M (option Mastery) :=
  read (fun e => head (filter (mastery_key patient_id item_type item_id) (mastery e))).

(** The dict [quiz.compute_mastery_update] returns and [update_mastery]
    takes. *)
Record MasteryUpdate : Type := {
  u_patient_id : string;
  u_item_type : string;
  u_item_id : string;
  u_mastery_score : float;
  u_consecutive_correct : Z;
  u_consecutive_incorrect : Z;
  u_last_seen_at : Z;
  u_next_due_at : Z;
}.

Definition mastery_values (id : string) (payload : MasteryUpdate) : Mastery :=
  {| m_id := id;
     m_patient_id := u_patient_id payload;
     m_item_type := u_item_type payload;
     m_item_id := u_item_id payload;
     m_mastery_score := u_mastery_score payload;
     m_consecutive_correct := u_consecutive_correct payload;
     m_consecutive_incorrect := u_consecutive_incorrect payload;
     m_last_seen_at := Some (u_last_seen_at payload);
     m_next_due_at := Some (u_next_due_at payload) |}.

Definition set_mastery (rows : list Mastery) (e : Engine) : Engine :=
  {| family_members := family_members e;
     knowledge_items := knowledge_items e;
     quiz_sessions := quiz_sessions e;
     quiz_questions := quiz_questions e;
     quiz_responses := quiz_responses e;
     mastery := rows |}.

Definition update_mastery (payload : MasteryUpdate) : M unit :=
  existing <- _get_mastery_row (u_patient_id payload) (u_item_type payload)
                (u_item_id payload) ;;
  now <- utcnow ;;
  match existing with
  | Some row =>
      write (fun e =>
        set_mastery
          (map (fun r => if decide (m_id r = m_id row)
                         then mastery_values (m_id r) payload else r)
               (mastery e)) e)
  | None =>
      id <- _uuid ;;
      write (fun e => set_mastery (mastery e ++ [mastery_values id payload]) e)
  end.

(** An entry of the list [due_items] returns: a mastery row, or the dict
    built for a family member or a knowledge item. *)
Inductive DueEntry : Type :=
| DueMastery (row : Mastery)
| DueFamily (item_id : string)
| DueKnowledge (item_id : string) (sensitivity_level : Z).

Definition due_item_type (d : DueEntry) : string :=
  match d with
  | DueMastery row => m_item_type row
  | DueFamily _ => "family"
  | DueKnowledge _ _ => "knowledge"
  end.

Definition due_item_id (d : DueEntry) : string :=
  match d with
  | DueMastery row => m_item_id row
  | DueFamily i => i
  | DueKnowledge i _ => i
  end.

(** The [where] clause of the mastery query of [due_items]. *)
Definition is_due (patient_id : string) (now : Z) (r : Mastery) : bool :=
  bool_decide (m_patient_id r = patient_id) &&
  match m_next_due_at r with
  | None => true
  | Some t => (t <=? now)%Z
  end.

(** The loop over [family_rows]. *)
Fixpoint add_family (rows : list FamilyMember) (due_list : list DueEntry)
    (known_ids : gset string) : list DueEntry * gset string :=
  match rows with
  | [] => (due_list, known_ids)
  | row :: rest =>
      if decide (fm_id row ∈ known_ids) then add_family rest due_list known_ids
      else add_family rest (due_list ++ [DueFamily (fm_id row)])
             ({[fm_id row]} ∪ known_ids)
  end.

(** The loop over [knowledge_rows]. *)
Fixpoint add_knowledge (rows : list KnowledgeItem) (due_list : list DueEntry)
    (known_ids : gset string) : list DueEntry * gset string :=
  match rows with
  | [] => (due_list, known_ids)
  | row :: rest =>
      if decide (ki_id row ∈ known_ids) then add_knowledge rest due_list known_ids
      else add_knowledge rest
             (due_list ++ [DueKnowledge (ki_id row) (ki_sensitivity_level row)])
             ({[ki_id row]} ∪ known_ids)
  end.

Definition due_items (patient_id : string) : M (list DueEntry) :=
  now <- utcnow ;;
  read (fun e =>
    let mastery_rows := List.filter (is_due patient_id now) (mastery e) in
    let due_list := map DueMastery mastery_rows in
    let known_ids : gset string := list_to_set (map m_item_id mastery_rows) in
    let family_rows :=
      filter (fun r => fm_patient_id r = patient_id) (family_members e) in
    let knowledge_rows :=
      filter (fun r => ki_patient_id r = patient_id) (knowledge_items e) in
    let '(due_list, known_ids) := add_family family_rows due_list known_ids in
    fst (add_knowledge knowledge_rows due_list known_ids)).

End Db.

(** ** [quiz.py]: quiz generation and mastery logic *)
Module Quiz.
Import Db.
#[local] Open Scope py_scope.

Definition _interval_days (score : float) : Z :=
  if (0.8 <=? score)%float then 14
  else if (0.6 <=? score)%float then 7
  else if (0.4 <=? score)%float then 4
  else if (0.2 <=? score)%float then 2
  else 1.

(** A dict of the catalog: a row of [knowledge_items] or of
    [family_members]. *)
Inductive Item : Type :=
| Knowledge (row : KnowledgeItem)
| Family (row : FamilyMember).

(** [item["id"]]. *)
Definition item_id (item : Item) : string :=
  match item with
  | Knowledge row => ki_id row
  | Family row => fm_id row
  end.

(** [item.get("label")], [item.get("value")], [item.get("full_name")] and
    ["label" in item]. *)
Definition get_label (item : Item) : option string :=
  match item with
  | Knowledge row => Some (ki_label row)
  | Family _ => None
  end.

Definition get_value (item : Item) : option string :=
  match item with
  | Knowledge row => Some (ki_value row)
  | Family _ => None
  end.

Definition get_full_name (item : Item) : option string :=
  match item with
  | Knowledge _ => None
  | Family row => Some (fm_full_name row)
  end.

Definition has_label (item : Item) : bool :=
  match item with
  | Knowledge _ => true
  | Family _ => false
  end.

(** How an f-string prints an optional string. *)
Definition format_opt (o : option string) : string :=
  match o with
  | Some s => s
  | None => "None"
  end.

(** The dict appended for one item by [_fallback_questions]. *)
Definition fallback_question (id : string) (item : Item) : Py.Json :=
  Py.JObj
    [ ("id", Py.JStr id);
      ("question_type", Py.JStr "mcq");
      ("prompt",
       Py.JStr ("Who/What is "
                +:+ format_opt (Py.or_ (get_label item) (get_full_name item))
                +:+ "?"));
      ("options",
       Py.JArr [ Py.of_opt_str (Py.or_ (get_value item) (get_full_name item));
                 Py.JStr "Not sure" ]);
      ("correct_answer",
       Py.of_opt_str (Py.or_ (get_value item) (get_full_name item)));
      ("item_type", Py.JStr (if has_label item then "knowledge" else "family"));
      ("item_id", Py.JStr (item_id item));
      ("difficulty", Py.JInt 1);
      ("acceptable_answers", Py.JArr []) ].

(** The loop of [_fallback_questions]; every question draws a fresh id. *)
Fixpoint fallback_loop (items : list Item) (questions : list Py.Json)
    : M (list Py.Json) :=
  match items with
  | [] => ret questions
  | item :: rest =>
      id <- _uuid ;;
      fallback_loop rest (questions ++ [fallback_question id item])
  end.

Definition _fallback_questions (knowledge_items family_members : list Item) (n : Z)
    : M (list Py.Json) :=
  let items := Py.slice_to (knowledge_items ++ family_members) n in
  fallback_loop items [].

(** What the configured generator does with the request:
    [client.chat.completions.create] raises [OpenAIError], or it returns a
    message whose content [json.loads] rejects with [JSONDecodeError], or a
    message whose content [json.loads] decodes to [data]. *)
Inductive Completion : Type :=
| RaisesOpenAIError
| ContentInvalid
| ContentJson (data : Py.Json).

(** [{k["id"]: k for k in rows}]: a later row replaces an earlier one with
    the same id. *)
Definition knowledge_lookup_of (rows : list KnowledgeItem) : gmap string KnowledgeItem :=
  foldl (fun m k => <[ki_id k := k]> m) ∅ rows.

Definition family_lookup_of (rows : list FamilyMember) : gmap string FamilyMember :=
  foldl (fun m f => <[fm_id f := f]> m) ∅ rows.

(** The comprehension that builds [sensitive_filtered]. *)
Definition sensitive_filter (include_sensitive : bool) (knowledge_items : list KnowledgeItem)
    : list KnowledgeItem :=
  List.filter (fun ki => include_sensitive || (ki_sensitivity_level ki <? 2)%Z)
    knowledge_items.

(** One turn of the loop over [due_items]. *)
Definition prioritize_step (knowledge_lookup : gmap string KnowledgeItem)
    (family_lookup : gmap string FamilyMember)
    (st : list Item * gset string) (due : DueEntry) : list Item * gset string :=
  let '(selected_items, seen) := st in
  let item :=
    if String.eqb (due_item_type due) "knowledge" then
      Knowledge <$> knowledge_lookup !! due_item_id due
    else if String.eqb (due_item_type due) "family" then
      Family <$> family_lookup !! due_item_id due
    else None in
  match item with
  | Some item =>
      if decide (item_id item ∈ seen) then (selected_items, seen)
      else (selected_items ++ [item], {[item_id item]} ∪ seen)
  | None => (selected_items, seen)
  end.

(** The loop that fills the remaining slots, with its [break]. *)
Fixpoint fill (n : Z) (items : list Item) (selected_items : list Item)
    (seen : gset string) : list Item * gset string :=
  match items with
  | [] => (selected_items, seen)
  | item :: rest =>
      if decide (item_id item ∈ seen) then fill n rest selected_items seen
      else
        let selected_items := selected_items ++ [item] in
        let seen := {[item_id item]} ∪ seen in
        if (n <=? Z.of_nat (length selected_items))%Z then (selected_items, seen)
        else fill n rest selected_items seen
  end.

(** [selected_items] after both loops. *)
Definition select_items (family_members : list FamilyMember)
    (knowledge_items : list KnowledgeItem) (due_items : list DueEntry)
    (n : Z) (include_sensitive : bool) : list Item :=
  let sensitive_filtered := sensitive_filter include_sensitive knowledge_items in
  let knowledge_lookup := knowledge_lookup_of sensitive_filtered in
  let family_lookup := family_lookup_of family_members in
  let st := foldl (prioritize_step knowledge_lookup family_lookup) ([], ∅) due_items in
  fst (fill n (map Knowledge sensitive_filtered ++ map Family family_members)
         (fst st) (snd st)).

(** Whether [json.dumps] accepts the request: it raises [TypeError] on a
    [datetime], which the rows carry in their timestamp columns. *)
Definition due_serializable (d : DueEntry) : bool :=
  match d with
  | DueMastery row =>
      match m_last_seen_at row, m_next_due_at row with
      | None, None => true
      | _, _ => false
      end
  | _ => true
  end.

Definition request_serializable (family_members : list FamilyMember)
    (sensitive_filtered : list KnowledgeItem) (due_items : list DueEntry) : bool :=
  forallb (fun f => bool_decide (fm_created_at f = None)) family_members
  && forallb (fun k => bool_decide (ki_created_at k = None)) sensitive_filtered
  && forallb due_serializable due_items.

(** [client] is [None] when [_client()] returns [None] or the deployment
    name is not set, and otherwise tells what the generator answers. *)
Definition generate_quiz_questions (client : option Completion) (patient : Patient)
    (family_members : list FamilyMember) (knowledge_items : list KnowledgeItem)
    (due_items : list DueEntry) (n : Z) (include_sensitive : bool) : M Py.Json :=
  let sensitive_filtered := sensitive_filter include_sensitive knowledge_items in
  let selected_items :=
    select_items family_members knowledge_items due_items n include_sensitive in
  let items_pool := Py.slice_to selected_items n in
  match client with
  | None => qs <- _fallback_questions items_pool [] n ;; ret (Py.JArr qs)
  | Some completion =>
      if negb (request_serializable family_members sensitive_filtered due_items)
      then raise TypeError
      else
        match completion with
        | ContentJson (Py.JObj members) =>
            ret (default (Py.JArr []) (Py.assoc_last "questions" members))
        | ContentJson _ => raise AttributeError
        | RaisesOpenAIError | ContentInvalid =>
            qs <- _fallback_questions items_pool [] n ;; ret (Py.JArr qs)
        end
  end.

Definition evaluate_answer (question_type : string) (correct_answer user_answer : Py.Val)
    (acceptable_answers : option (list string)) : bool :=
  let acceptable_answers := default [] acceptable_answers in
  if String.eqb question_type "recall" then
    let ua := Py.lower (Py.strip (Py.str user_answer)) in
    if String.eqb (Py.lower (Py.strip (Py.str correct_answer))) ua then true
    else existsb (String.eqb ua) (map Py.lower acceptable_answers)
  else
    String.eqb (Py.lower (Py.strip (Py.str user_answer)))
      (Py.lower (Py.strip (Py.str correct_answer))).

Definition compute_mastery_update (patient_id : string) (payload : Payload)
    (correct : bool) (response_time_ms : Z) : M (option MasteryUpdate) :=
  match p_item_type payload, p_item_id payload with
  | Some item_type, Some item_id =>
      if negb (Py.truthy (Some item_type)) || negb (Py.truthy (Some item_id))
      then ret None
      else
        existing <- _get_mastery_row patient_id item_type item_id ;;
        let mastery_score := from_option m_mastery_score 0.0%float existing in
        let consecutive_correct := from_option m_consecutive_correct 0 existing in
        let consecutive_incorrect := from_option m_consecutive_incorrect 0 existing in
        let '(consecutive_correct, consecutive_incorrect, mastery_score) :=
          if correct then
            let mastery_score := Py.min 1.0 (mastery_score + 0.1)%float in
            (consecutive_correct + 1, 0,
             if (response_time_ms <? 3000)%Z
             then Py.min 1.0 (mastery_score + 0.05)%float
             else mastery_score)
          else
            (0, consecutive_incorrect + 1, Py.max 0.0 (mastery_score - 0.05)%float) in
        let days := _interval_days mastery_score in
        now <- utcnow ;;
        let next_due := now + timedelta_days days in
        last_seen <- utcnow ;;
        ret (Some {| u_patient_id := patient_id;
                     u_item_type := item_type;
                     u_item_id := item_id;
                     u_mastery_score := mastery_score;
                     u_consecutive_correct := consecutive_correct;
                     u_consecutive_incorrect := consecutive_incorrect;
                     u_last_seen_at := last_seen;
                     u_next_due_at := next_due |})
  | _, _ => ret None
  end.

End Quiz.

(** ** [main.py]: the submission endpoint *)
Module Main.
Import Db.
#[local] Open Scope py_scope.

Record QuizSubmitItem : Type := {
  question_id : string;
  user_answer : Py.Val;
  response_time_ms : Z;
}.

Record QuizSubmitResponse : Type := {
  session_id : string;
  score : float;
  total_questions : Z;
  correct : Z;
  avg_response_time_ms : float;
  weak_items : list string;
}.

(** The local variables the loop of [submit_quiz] updates. *)
Record Tally : Type := {
  results : list (string * bool);
  correct_count : Z;
  total_time : Z;
}.

(** [{q["id"]: q for q in questions}]. *)
Definition qmap_of (questions : list QuizQuestion) : gmap string QuizQuestion :=
  foldl (fun m q => <[qq_id q := q]> m) ∅ questions.

(** The body of the loop over [submissions], for a question that resolved. *)
Definition score_item (session_id : string) (session : QuizSession)
    (question : QuizQuestion) (item : QuizSubmitItem) (t : Tally) : M Tally :=
  let payload := qq_payload question in
  let correct_answer := p_correct_answer payload in
  let acceptable_answers := p_acceptable_answers payload in
  let is_correct :=
    Quiz.evaluate_answer (p_question_type payload) correct_answer
      (user_answer item) (Some acceptable_answers) in
  let correct_count := if is_correct then correct_count t + 1 else correct_count t in
  let total_time := total_time t + response_time_ms item in
  add_response session_id (question_id item) (user_answer item) is_correct
    (response_time_ms item) ;;;
  mastery_update <- Quiz.compute_mastery_update (qs_patient_id session) payload
                      is_correct (response_time_ms item) ;;
  match mastery_update with
  | Some u => update_mastery u
  | None => ret tt
  end ;;;
  ret {| results := results t ++ [(question_id item, is_correct)];
         correct_count := correct_count;
         total_time := total_time |}.

Fixpoint submit_loop (session_id : string) (session : QuizSession)
    (qmap : gmap string QuizQuestion) (submissions : list QuizSubmitItem)
    (t : Tally) : M Tally :=
  match submissions with
  | [] => ret t
  | item :: rest =>
      match qmap !! question_id item with
      | None => raise (HTTPException 400 "Invalid question id")
      | Some question =>
          t <- score_item session_id session question item t ;;
          submit_loop session_id session qmap rest t
      end
  end.

Definition submit_quiz (session_id : string) (submissions : list QuizSubmitItem)
    : M QuizSubmitResponse :=
  session <- get_session session_id ;;
  match session with
  | None => raise (HTTPException 404 "Session not found")
  | Some session =>
      questions <- list_questions session_id ;;
      let qmap := qmap_of questions in
      t <- submit_loop session_id session qmap submissions
             {| results := []; correct_count := 0; total_time := 0 |} ;;
      let len := Z.of_nat (length submissions) in
      let score := Py.truediv (correct_count t) (Z.max len 1) in
      let avg_time := Py.truediv (total_time t) (Z.max len 1) in
      complete_session session_id score avg_time ;;;
      ret {| session_id := session_id;
             score := score;
             total_questions := len;
             correct := correct_count t;
             avg_response_time_ms := avg_time;
             weak_items := map fst (List.filter (fun r => negb (snd r)) (results t)) |}
  end.

End Main.

(** ** Vocabulary of the statements *)
Module Spec.
Import Db Quiz Main.

(** The mastery row the scheduler finds for an item, if any. *)
Definition prior (w : World) (patient_id item_type item_id : string) : option Mastery :=
  head (filter (mastery_key patient_id item_type item_id) (mastery (engine w))).

(** Score and streak counters the update starts from. *)
Definition baseline (existing : option Mastery) : float * Z * Z :=
  match existing with
  | Some row =>
      (m_mastery_score row, m_consecutive_correct row, m_consecutive_incorrect row)
  | None => (0.0%float, 0, 0)
  end.

(** The two ways of raising a score after a fast correct answer, in exact
    rational arithmetic: 0.10 then 0.05, each clamped at 1, as the code
    does it, and 0.15 at once. *)
Definition exact_two_steps (s : Q) : Q :=
  Qmin 1 (Qmin 1 (s + (1 # 10)) + (1 # 20))%Q.

Definition exact_one_step (s : Q) : Q := Qmin 1 (s + (15 # 100))%Q.

(** The payload names the item it is about. *)
Definition has_item_ref (payload : Payload) : bool :=
  Py.truthy (p_item_type payload) && Py.truthy (p_item_id payload).

(** The session row [submit_quiz] works on, and the questions of the
    session by id. *)
Definition find_session (w : World) (session_id : string) : option QuizSession :=
  head (filter (fun r => qs_id r = session_id) (quiz_sessions (engine w))).

Definition session_qmap (w : World) (session_id : string) : gmap string QuizQuestion :=
  qmap_of (filter (fun r => qq_session_id r = session_id) (quiz_questions (engine w))).

(** The question id of a submitted item resolves. *)
Definition resolves (qmap : gmap string QuizQuestion) (item : QuizSubmitItem) : Prop :=
  is_Some (qmap !! question_id item).

(** The verdict on a submitted item. *)
Definition judged (qmap : gmap string QuizQuestion) (item : QuizSubmitItem) : bool :=
  match qmap !! question_id item with
  | Some question =>
      Quiz.evaluate_answer (p_question_type (qq_payload question))
        (p_correct_answer (qq_payload question)) (user_answer item)
        (Some (p_acceptable_answers (qq_payload question)))
  | None => false
  end.

(** The local variables of the loop after one more scored item. *)
Definition tally_step (qmap : gmap string QuizQuestion) (t : Tally)
    (item : QuizSubmitItem) : Tally :=
  {| results := results t ++ [(question_id item, judged qmap item)];
     correct_count := if judged qmap item then correct_count t + 1 else correct_count t;
     total_time := total_time t + response_time_ms item |}.

(** Number of items judged correct and sum of the response times. *)
Definition count_correct (qmap : gmap string QuizQuestion)
    (submissions : list QuizSubmitItem) : Z :=
  Z.of_nat (length (List.filter (judged qmap) submissions)).

Definition sum_times (submissions : list QuizSubmitItem) : Z :=
  foldr (fun item acc => response_time_ms item + acc) 0 submissions.

(** Scoring leaves every table but [quiz_responses] and [mastery] alone. *)
Definition kept (e e' : Engine) : Prop :=
  family_members e' = family_members e /\
  knowledge_items e' = knowledge_items e /\
  quiz_sessions e' = quiz_sessions e /\
  quiz_questions e' = quiz_questions e.

(** The list the fill loop walks: the knowledge items that pass the
    sensitivity filter, then the family members. *)
Definition catalog (include_sensitive : bool) (family_members : list FamilyMember)
    (knowledge_items : list KnowledgeItem) : list Item :=
  map Knowledge (sensitive_filter include_sensitive knowledge_items)
  ++ map Family family_members.

(** Number of different ids in a list of items. *)
Definition distinct_ids (items : list Item) : nat :=
  size (list_to_set (map item_id items) : gset string).

(** [items_pool], and the items [_fallback_questions] is left with after
    its own slice. *)
Definition items_pool (family_members : list FamilyMember)
    (knowledge_items : list KnowledgeItem) (due_items : list DueEntry) (n : Z)
    (include_sensitive : bool) : list Item :=
  Py.slice_to
    (select_items family_members knowledge_items due_items n include_sensitive) n.

Definition fallback_items (family_members : list FamilyMember)
    (knowledge_items : list KnowledgeItem) (due_items : list DueEntry) (n : Z)
    (include_sensitive : bool) : list Item :=
  Py.slice_to
    (items_pool family_members knowledge_items due_items n include_sensitive ++ []) n.

(** The fallback questions for [items], drawing ids from the [k]-th on. *)
Fixpoint drafts (ids : nat -> string) (k : nat) (items : list Item) : list Py.Json :=
  match items with
  | [] => []
  | item :: rest => fallback_question (ids k) item :: drafts ids (S k) rest
  end.

(** The world after [k] more identifiers have been drawn. *)
Definition drawn (k : nat) (w : World) : World :=
  {| engine := engine w; clock := clock w; ticks := ticks w;
     uuids := uuids w; draws := (k + draws w)%nat |}.

(** The cases in which [generate_quiz_questions] reaches
    [_fallback_questions]: no client, or a request that could be sent and
    was answered by an [OpenAIError] or by text that is not JSON. *)
Definition falls_back (client : option Completion) (include_sensitive : bool)
    (family_members : list FamilyMember) (knowledge_items : list KnowledgeItem)
    (due_items : list DueEntry) : bool :=
  match client with
  | None => true
  | Some (ContentJson _) => false
  | Some _ =>
      request_serializable family_members
        (sensitive_filter include_sensitive knowledge_items) due_items
  end.

(** The loops keep [seen] equal to the set of ids of [selected_items], and
    select no id twice. *)
Definition tracked (st : list Item * gset string) : Prop :=
  NoDup (map item_id st.1) /\ st.2 = list_to_set (map item_id st.1).

(** A question dict refers to the knowledge item [k]. *)
Definition refers_to_knowledge (q : Py.Json) (k : KnowledgeItem) : Prop :=
  Py.get "item_type" q = Some (Py.JStr "knowledge") /\
  Py.get "item_id" q = Some (Py.JStr (ki_id k)).

(** The form in which two answers are compared: stripped, then lowered. *)
Definition normalize (s : string) : string := Py.lower (Py.strip s).

End Spec.

(** ** Concrete data for the examples *)
Module Fixture.
Import Db.

Definition no_rows : Engine :=
  {| family_members := []; knowledge_items := []; quiz_sessions := [];
     quiz_questions := []; quiz_responses := []; mastery := [] |}.

(** A clock that advances by one microsecond per reading, until it stops
    after eight readings, and identifiers handed out in a fixed order. *)
Definition world_of (e : Engine) : World :=
  {| engine := e;
     clock := fun k =>
       nth k [1700000000000000; 1700000000000001; 1700000000000002;
              1700000000000003; 1700000000000004; 1700000000000005;
              1700000000000006; 1700000000000007] 1700000000000008;
     ticks := 0;
     uuids := fun k =>
       nth k ["uuid-0"; "uuid-1"; "uuid-2"; "uuid-3"; "uuid-4"; "uuid-5";
              "uuid-6"; "uuid-7"] "uuid-8";
     draws := 0 |}.

Definition color_payload : Payload :=
  {| p_question_type := "recall";
     p_correct_answer := Py.Str "blue";
     p_acceptable_answers := ["blue"];
     p_item_type := Some "knowledge";
     p_item_id := Some "k1" |}.

Definition color_mastery (score : float) (next_due_at : Z) : Mastery :=
  {| m_id := "m1"; m_patient_id := "p1"; m_item_type := "knowledge";
     m_item_id := "k1"; m_mastery_score := score;
     m_consecutive_correct := 2; m_consecutive_incorrect := 0;
     m_last_seen_at := Some 1690000000000000;
     m_next_due_at := Some next_due_at |}.

Definition with_mastery (rows : list Mastery) (e : Engine) : Engine :=
  set_mastery rows e.

(** A session of patient "p1" with two questions, still active. *)
Definition session_s1 : QuizSession :=
  {| qs_id := "s1"; qs_patient_id := "p1"; qs_created_at := Some 1690000000000000;
     qs_status := Some "active"; qs_total_questions := Some 2;
     qs_score := None; qs_avg_response_time_ms := None |}.

Definition town_payload : Payload :=
  {| p_question_type := "mcq";
     p_correct_answer := Py.Str "Lyon";
     p_acceptable_answers := [];
     p_item_type := Some "knowledge";
     p_item_id := Some "k2" |}.

Definition question_q1 : QuizQuestion :=
  {| qq_id := "q1"; qq_session_id := "s1"; qq_question_type := "recall";
     qq_payload := color_payload; qq_created_at := Some 1690000000000000 |}.

Definition question_q2 : QuizQuestion :=
  {| qq_id := "q2"; qq_session_id := "s1"; qq_question_type := "mcq";
     qq_payload := town_payload; qq_created_at := Some 1690000000000000 |}.

Definition quiz_engine : Engine :=
  {| family_members := []; knowledge_items := [];
     quiz_sessions := [session_s1];
     quiz_questions := [question_q1; question_q2];
     quiz_responses := []; mastery := [] |}.

(** A family member of patient "p1" and a knowledge item, each reviewed
    before and due again only at [next_due_at]. *)
Definition anna : FamilyMember :=
  {| fm_id := "f1"; fm_patient_id := "p1"; fm_full_name := "Anna";
     fm_relationship := "daughter"; fm_photo_blob_path := None;
     fm_created_at := Some 1690000000000000 |}.

Definition color_item : KnowledgeItem :=
  {| ki_id := "k1"; ki_patient_id := "p1"; ki_category := "personal";
     ki_label := "favorite color"; ki_value := "blue";
     ki_sensitivity_level := 0; ki_is_active := true;
     ki_created_at := Some 1690000000000000 |}.

Definition anna_mastery (next_due_at : Z) : Mastery :=
  {| m_id := "m2"; m_patient_id := "p1"; m_item_type := "family";
     m_item_id := "f1"; m_mastery_score := 0.9;
     m_consecutive_correct := 5; m_consecutive_incorrect := 0;
     m_last_seen_at := Some 1690000000000000;
     m_next_due_at := Some next_due_at |}.

(** Both items were reviewed and are next due on the day after the
    clock's first reading. *)
Definition reviewed_engine : Engine :=
  {| family_members := [anna]; knowledge_items := [color_item];
     quiz_sessions := []; quiz_questions := []; quiz_responses := [];
     mastery := [anna_mastery (1700000000000000 + 86400000000);
                 color_mastery 0.9 (1700000000000000 + 86400000000)] |}.

Definition bob : Patient :=
  {| pt_id := "p1"; pt_full_name := "Bob"; pt_dob := "1940-05-05";
     pt_phone := None; pt_address := None;
     pt_created_at := Some 1690000000000000 |}.

(** A knowledge item of sensitivity level 3. *)
Definition diagnosis_item : KnowledgeItem :=
  {| ki_id := "k3"; ki_patient_id := "p1"; ki_category := "medical";
     ki_label := "diagnosis"; ki_value := "dementia";
     ki_sensitivity_level := 3; ki_is_active := true;
     ki_created_at := Some 1690000000000000 |}.

(** A question dict as a generator may send it. *)
Definition generated_question (item_type item_id : string) : Py.Json :=
  Py.JObj
    [ ("question_type", Py.JStr "recall");
      ("prompt", Py.JStr "What is the diagnosis?");
      ("options", Py.JNull);
      ("correct_answer", Py.JStr "dementia");
      ("item_type", Py.JStr item_type);
      ("item_id", Py.JStr item_id);
      ("difficulty", Py.JInt 1);
      ("acceptable_answers", Py.JArr []) ].

Definition answer (question_id : string) (text : string) : Main.QuizSubmitItem :=
  {| Main.question_id := question_id; Main.user_answer := Py.Str text;
     Main.response_time_ms := 1000 |}.

End Fixture.

(** ** [db.py]: the helpers for the catalog and for sessions *)
Module DbCatalog.
Import Db.
#[local] Open Scope py_scope.

(** The dict [FamilyMemberCreate.dict()] hands to [add_family_member]. *)
Record FamilyMemberCreate : Type := {
  fc_full_name : string;
  fc_relationship : string;
  fc_photo_blob_path : option string;
}.

(** The dict [KnowledgeItemCreate.dict()] hands to [add_knowledge_item]. *)
Record KnowledgeItemCreate : Type := {
  kc_category : string;
  kc_label : string;
  kc_value : string;
  kc_sensitivity_level : Z;
  kc_is_active : bool;
}.

Definition set_family_members (rows : list FamilyMember) (e : Engine) : Engine :=
  {| family_members := rows;
     knowledge_items := knowledge_items e;
     quiz_sessions := quiz_sessions e;
     quiz_questions := quiz_questions e;
     quiz_responses := quiz_responses e;
     mastery := mastery e |}.

Definition set_knowledge_items (rows : list KnowledgeItem) (e : Engine) : Engine :=
  {| family_members := family_members e;
     knowledge_items := rows;
     quiz_sessions := quiz_sessions e;
     quiz_questions := quiz_questions e;
     quiz_responses := quiz_responses e;
     mastery := mastery e |}.

Definition set_quiz_sessions (rows : list QuizSession) (e : Engine) : Engine :=
  {| family_members := family_members e;
     knowledge_items := knowledge_items e;
     quiz_sessions := rows;
     quiz_questions := quiz_questions e;
     quiz_responses := quiz_responses e;
     mastery := mastery e |}.

Definition get_family_member (family_id : string) : M (option FamilyMember) :=
  read (fun e => head (filter (fun r => fm_id r = family_id) (family_members e))).

Definition add_family_member (patient_id : string) (data : FamilyMemberCreate)
    : M (option FamilyMember) :=
  fam_id <- _uuid ;;
  now <- utcnow ;;
  write (fun e =>
    set_family_members
      (family_members e ++
       [ {| fm_id := fam_id; fm_patient_id := patient_id;
            fm_full_name := fc_full_name data;
            fm_relationship := fc_relationship data;
            fm_photo_blob_path := fc_photo_blob_path data;
            fm_created_at := Some now |} ]) e) ;;;
  get_family_member fam_id.

Definition photo_row (family_id blob_path : string) (r : FamilyMember) : FamilyMember :=
  if decide (fm_id r = family_id) then
    {| fm_id := fm_id r; fm_patient_id := fm_patient_id r;
       fm_full_name := fm_full_name r; fm_relationship := fm_relationship r;
       fm_photo_blob_path := Some blob_path;
       fm_created_at := fm_created_at r |}
  else r.

Definition update_family_photo (family_id blob_path : string) : M unit :=
  write (fun e =>
    set_family_members (map (photo_row family_id blob_path) (family_members e)) e).

Definition list_family_members (patient_id : string) : M (list FamilyMember) :=
  read (fun e => filter (fun r => fm_patient_id r = patient_id) (family_members e)).

Definition get_knowledge_item (item_id : string) : M (option KnowledgeItem) :=
  read (fun e => head (filter (fun r => ki_id r = item_id) (knowledge_items e))).

Definition add_knowledge_item (patient_id : string) (data : KnowledgeItemCreate)
    : M (option KnowledgeItem) :=
  item_id <- _uuid ;;
  now <- utcnow ;;
  write (fun e =>
    set_knowledge_items
      (knowledge_items e ++
       [ {| ki_id := item_id; ki_patient_id := patient_id;
            ki_category := kc_category data; ki_label := kc_label data;
            ki_value := kc_value data;
            ki_sensitivity_level := kc_sensitivity_level data;
            ki_is_active := kc_is_active data;
            ki_created_at := Some now |} ]) e) ;;;
  get_knowledge_item item_id.

(** [category] is [None] or a string; [if category:] lets the empty string
    through like [None]. *)
Definition list_knowledge_items (patient_id : string) (category : option string)
    : M (list KnowledgeItem) :=
  read (fun e =>
    let rows := filter (fun r => ki_patient_id r = patient_id) (knowledge_items e) in
    if Py.truthy category
    then filter (fun r => Some (ki_category r) = category) rows
    else rows).

Definition create_session (patient_id : string) (total_questions : Z) (status : string)
    : M string :=
  session_id <- _uuid ;;
  now <- utcnow ;;
  write (fun e =>
    set_quiz_sessions
      (quiz_sessions e ++
       [ {| qs_id := session_id; qs_patient_id := patient_id;
            qs_created_at := Some now; qs_status := Some status;
            qs_total_questions := Some total_questions;
            qs_score := None; qs_avg_response_time_ms := None |} ]) e) ;;;
  ret session_id.

End DbCatalog.

(** ** [main.py]: the API key check *)
Module Api.
Import Db.

(** [API_KEY] is the value of [APP_API_KEY] read at start-up, [x_api_key]
    the header of the request; both may be missing. *)
Definition verify_api_key (API_KEY x_api_key : option string) : Outcome bool :=
  if negb (Py.truthy API_KEY) then
    Raise (HTTPException 500 "Server missing APP_API_KEY")
  else if negb (bool_decide (x_api_key = API_KEY)) then
    Raise (HTTPException 401 "Invalid API key")
  else Return true.

End Api.

(** ** [storage.py]: file names for uploaded documents *)
Module Storage.

(** A character of the class [A-Za-z0-9._-]. *)
Definition safe_char (c : ascii) : bool :=
  let n := N_of_ascii c in
  ((65 <=? n) && (n <=? 90) || (97 <=? n) && (n <=? 122)
   || (48 <=? n) && (n <=? 57)
   || (n =? 46) || (n =? 95) || (n =? 45))%N.

(** [re.sub(r"[^A-Za-z0-9._-]", "_", name)]. *)
Fixpoint _safe_filename (name : string) : string :=
  match name with
  | EmptyString => EmptyString
  | String c rest =>
      String (if safe_char c then c else "_"%char) (_safe_filename rest)
  end.

End Storage.

(** ** Further vocabulary of the statements *)
Module Terms.
Import Db Quiz Main.


(** Every character of a string is of the class [A-Za-z0-9._-]. *)
Fixpoint all_safe (s : string) : bool :=
  match s with
  | EmptyString => true
  | String c rest => Storage.safe_char c && all_safe rest
  end.

(** The key of a mastery row. *)
Definition key_of (r : Mastery) : string * string * string :=
  (m_patient_id r, m_item_type r, m_item_id r).

(** One of the two streak counters of a row is zero. *)
Definition streak_ok (r : Mastery) : Prop :=
  m_consecutive_correct r = 0 \/ m_consecutive_incorrect r = 0.

(** The entry of the due list built for a knowledge item, and the mastery
    rows of a patient that are due. *)
Definition knowledge_entry (k : KnowledgeItem) : DueEntry :=
  DueKnowledge (ki_id k) (ki_sensitivity_level k).

Definition due_rows (w : World) (patient_id : string) : list Mastery :=
  List.filter (is_due patient_id (clock w (ticks w))) (mastery (engine w)).

(** [selected_items] after the loop over the due entries. *)
Definition prioritized (family_members : list FamilyMember)
    (knowledge_items : list KnowledgeItem) (due_items : list DueEntry)
    (include_sensitive : bool) : list Item :=
  (foldl (prioritize_step
            (knowledge_lookup_of (sensitive_filter include_sensitive knowledge_items))
            (family_lookup_of family_members)) ([], ∅) due_items).1.

End Terms.

(* ===================================================================== *)
(** * Part II: properties *)
(* ===================================================================== *)

(** ** Order of binary64 values *)
Section FloatOrder.

Lemma SFleb_trans (a b c : spec_float) :
  SFleb a b = true -> SFleb b c = true -> SFleb a c = true.
Proof.
  unfold SFleb, SFcompare.
  destruct a as [sa|sa| |sa ma ea], b as [sb|sb| |sb mb eb], c as [sc|sc| |sc mc ec];
    repeat match goal with s : bool |- _ => destruct s end;
    try (intros; reflexivity); try (intros; discriminate);
    rewrite ?Pos.compare_cont_spec; simpl;
    fold (Pos.compare ma mb) (Pos.compare mb mc) (Pos.compare ma mc);
    destruct (Z.compare_spec ea eb), (Z.compare_spec eb ec), (Z.compare_spec ea ec);
    try (intros; reflexivity); try (intros; discriminate); try lia;
    subst;
    destruct (Pos.compare_spec ma mb), (Pos.compare_spec mb mc),
      (Pos.compare_spec ma mc);
    simpl; try (intros; reflexivity); try (intros; discriminate); try lia.
Qed.

Lemma float_leb_trans (x y z : float) :
  (x <=? y)%float = true -> (y <=? z)%float = true -> (x <=? z)%float = true.
Proof. rewrite !leb_spec. apply SFleb_trans. Qed.

(** Two floats that [==] tells apart are different. *)
Lemma float_neq_of_eqb (x y : float) :
  (x =? x)%float = true -> (x =? y)%float = false -> x <> y.
Proof. intros Hx Hxy ->. congruence. Qed.

End FloatOrder.

(** ** The scheduler: [compute_mastery_update] and [_interval_days] *)
Section Scheduler.
Import Db Quiz Spec.

Lemma truthy_some (s : string) : s <> "" -> Py.truthy (Some s) = true.
Proof.
  intros Hs. unfold Py.truthy.
  destruct (String.eqb_spec s ""); [contradiction | reflexivity].
Qed.

(** The update, once the payload names its item, written out. *)
Lemma compute_mastery_update_eq (w : World) (patient_id : string) (payload : Payload)
    (item_type item_id : string) (correct : bool) (response_time_ms : Z) :
  p_item_type payload = Some item_type -> item_type <> "" ->
  p_item_id payload = Some item_id -> item_id <> "" ->
  let '(s, cc, ci) := baseline (prior w patient_id item_type item_id) in
  let score :=
    if correct then
      if (response_time_ms <? 3000)%Z
      then Py.min 1.0 (Py.min 1.0 (s + 0.1) + 0.05)%float
      else Py.min 1.0 (s + 0.1)%float
    else Py.max 0.0 (s - 0.05)%float in
  compute_mastery_update patient_id payload correct response_time_ms w =
    (Return (Some
       {| u_patient_id := patient_id; u_item_type := item_type;
          u_item_id := item_id; u_mastery_score := score;
          u_consecutive_correct := if correct then cc + 1 else 0;
          u_consecutive_incorrect := if correct then 0 else ci + 1;
          u_last_seen_at := clock w (S (ticks w));
          u_next_due_at := clock w (ticks w) + timedelta_days (_interval_days score) |}),
     {| engine := engine w; clock := clock w; ticks := S (S (ticks w));
        uuids := uuids w; draws := draws w |}).
Proof.
  intros Ht Htne Hi Hine.
  unfold compute_mastery_update, baseline, prior.
  rewrite Ht, Hi, !truthy_some by assumption. simpl negb. simpl orb. cbv iota.
  unfold bind, _get_mastery_row, read, utcnow, ret. simpl.
  destruct (head _) as [row|]; simpl; destruct correct; simpl;
    try destruct (response_time_ms <? 3000)%Z; reflexivity.
Qed.

(** C1 (as amended): once the payload names its item, the update never
    raises and returns a record.  Starting from the baseline [(s, cc, ci)]
    - the stored row, or score 0.0 and both counters 0 when there is none -
    a correct answer gives score [min(1, s + 0.1)] when the response took
    3000 ms or more and [min(1, min(1, s + 0.1) + 0.05)] when it took less
    (two clamped binary64 additions, not one addition of 0.15), adds one to
    consecutive-correct and resets consecutive-incorrect; an incorrect
    answer gives score [max(0, s - 0.05)], adds one to
    consecutive-incorrect and resets consecutive-correct. *)
Theorem mastery_update_scores (w : World) (patient_id : string) (payload : Payload)
    (item_type item_id : string) (response_time_ms : Z) (s : float) (cc ci : Z) :
  p_item_type payload = Some item_type -> item_type <> "" ->
  p_item_id payload = Some item_id -> item_id <> "" ->
  baseline (prior w patient_id item_type item_id) = (s, cc, ci) ->
  (prior w patient_id item_type item_id = None -> (s, cc, ci) = (0.0%float, 0, 0)) /\
  (exists u w',
     compute_mastery_update patient_id payload true response_time_ms w
       = (Return (Some u), w') /\
     u_mastery_score u =
       (if (response_time_ms <? 3000)%Z
        then Py.min 1.0 (Py.min 1.0 (s + 0.1) + 0.05)%float
        else Py.min 1.0 (s + 0.1)%float) /\
     u_consecutive_correct u = cc + 1 /\ u_consecutive_incorrect u = 0) /\
  (exists u w',
     compute_mastery_update patient_id payload false response_time_ms w
       = (Return (Some u), w') /\
     u_mastery_score u = Py.max 0.0 (s - 0.05)%float /\
     u_consecutive_incorrect u = ci + 1 /\ u_consecutive_correct u = 0).
Proof.
  intros Ht Htne Hi Hine Hb. split; [| split].
  - intros Hnone. rewrite Hnone in Hb. simpl in Hb. congruence.
  - pose proof (compute_mastery_update_eq w patient_id payload item_type item_id
                  true response_time_ms Ht Htne Hi Hine) as E.
    rewrite Hb in E. simpl in E. eexists _, _. split; [exact E |]. simpl. auto.
  - pose proof (compute_mastery_update_eq w patient_id payload item_type item_id
                  false response_time_ms Ht Htne Hi Hine) as E.
    rewrite Hb in E. simpl in E. eexists _, _. split; [exact E |]. simpl. auto.
Qed.

(** A stored score of 0.5 with streaks 2 and 0, answered slowly. *)
Lemma mastery_update_scores_witness :
  let w := Fixture.world_of
             (Fixture.with_mastery [Fixture.color_mastery 0.5 0] Fixture.no_rows) in
  (exists u w',
     compute_mastery_update "p1" Fixture.color_payload true 5000 w
       = (Return (Some u), w') /\
     u_mastery_score u = Py.min 1.0 (0.5 + 0.1)%float /\
     u_consecutive_correct u = 3 /\ u_consecutive_incorrect u = 0) /\
  (exists u w',
     compute_mastery_update "p1" Fixture.color_payload false 5000 w
       = (Return (Some u), w') /\
     u_mastery_score u = Py.max 0.0 (0.5 - 0.05)%float /\
     u_consecutive_incorrect u = 1 /\ u_consecutive_correct u = 0).
Proof.
  intros w.
  exact (proj2 (mastery_update_scores w "p1" Fixture.color_payload "knowledge" "k1"
                  5000 0.5%float 2 0
                  eq_refl ltac:(discriminate) eq_refl ltac:(discriminate) eq_refl)).
Defined.

(** C1, the statement as given fails: with no stored record (score 0.0) a
    correct answer in 1000 ms yields 0.1 + 0.05 = 0.15000000000000002,
    which is not [min(1, 0.0 + 0.15)] = 0.15. *)
Lemma fast_correct_is_two_additions :
  exists u w',
    compute_mastery_update "p1" Fixture.color_payload true 1000
      (Fixture.world_of Fixture.no_rows) = (Return (Some u), w') /\
    u_mastery_score u = 0x1.3333333333334p-3%float /\
    Py.min 1.0 (0.0 + 0.15)%float = 0x1.3333333333333p-3%float /\
    u_mastery_score u <> Py.min 1.0 (0.0 + 0.15)%float.
Proof.
  pose proof (compute_mastery_update_eq (Fixture.world_of Fixture.no_rows) "p1"
                Fixture.color_payload "knowledge" "k1" true 1000
                eq_refl ltac:(discriminate) eq_refl ltac:(discriminate)) as E.
  cbn in E. eexists _, _. split; [exact E |]. cbn.
  split; [reflexivity |]. split; [reflexivity |].
  apply float_neq_of_eqb; reflexivity.
Qed.

(** Without rounding the two additions of the fast correct answer are
    the single addition of 0.15: the two differ in binary64 only. *)
Lemma exact_steps_agree (s : Q) : (exact_two_steps s == exact_one_step s)%Q.
Proof.
  unfold exact_two_steps, exact_one_step.
  destruct (Q.min_spec 1 (s + (1 # 10))%Q) as [[H1 E1]|[H1 E1]]; rewrite E1;
    destruct (Q.min_spec 1 (s + (15 # 100))%Q) as [[H2 E2]|[H2 E2]]; rewrite E2;
    match goal with
    | |- (Qmin ?a ?b == _)%Q =>
        destruct (Q.min_spec a b) as [[H3 E3]|[H3 E3]]; rewrite E3
    end; lra.
Qed.

(** C9: the update never raises; it returns no record only when the
    payload does not name an item, and a record it returns has one of the
    two streak counters at zero - consecutive-incorrect after a correct
    answer, consecutive-correct after an incorrect one - so the two are
    never both positive. *)
Theorem streaks_never_both_positive (w : World) (patient_id : string)
    (payload : Payload) (correct : bool) (response_time_ms : Z) :
  match fst (compute_mastery_update patient_id payload correct response_time_ms w) with
  | Return (Some u) =>
      has_item_ref payload = true /\
      (if correct then u_consecutive_incorrect u = 0 else u_consecutive_correct u = 0) /\
      ~ (0 < u_consecutive_correct u /\ 0 < u_consecutive_incorrect u)
  | Return None => has_item_ref payload = false
  | Raise _ => False
  end.
Proof.
  unfold has_item_ref.
  destruct (p_item_type payload) as [item_type|] eqn:Ht;
    [| unfold compute_mastery_update; rewrite Ht; reflexivity].
  destruct (p_item_id payload) as [item_id|] eqn:Hi;
    [| unfold compute_mastery_update; rewrite Ht, Hi; simpl;
       apply andb_false_r].
  destruct (String.eqb_spec item_type "") as [->|Htne].
  { unfold compute_mastery_update. rewrite Ht, Hi. reflexivity. }
  destruct (String.eqb_spec item_id "") as [->|Hine].
  { unfold compute_mastery_update. rewrite Ht, Hi. simpl.
    rewrite orb_true_r. simpl. apply andb_false_r. }
  pose proof (compute_mastery_update_eq w patient_id payload item_type item_id
                correct response_time_ms Ht Htne Hi Hine) as E.
  destruct (baseline _) as [[s cc] ci]. rewrite E. cbn [fst].
  rewrite !truthy_some by assumption.
  split; [reflexivity |]. destruct correct; split; simpl; try reflexivity; lia.
Qed.

Lemma _interval_days_mono (s1 s2 : float) :
  (s1 <=? s2)%float = true -> _interval_days s1 <= _interval_days s2.
Proof.
  intros H12. unfold _interval_days.
  repeat match goal with
  | |- context [(?t <=? s1)%float] =>
      let E := fresh "E" in
      destruct (t <=? s1)%float eqn:E;
      [ rewrite (float_leb_trans t s1 s2 E H12) |]
  end;
  repeat match goal with
  | |- context [(?t <=? s2)%float] => destruct (t <=? s2)%float
  end; lia.
Qed.

(** C2 (as amended): the interval is 14 days for a score >= 0.8, else 7
    for >= 0.6, else 4 for >= 0.4, else 2 for >= 0.2, else 1 - a
    non-decreasing step function of the score - and in the record the
    update returns, next-due is the clock reading taken for it plus the
    interval of the new score, and last-seen is the next reading of the
    clock, taken when the record is built. *)
Theorem interval_schedule (w : World) (patient_id : string) (payload : Payload)
    (correct : bool) (response_time_ms : Z) :
  (forall s : float,
     ((0.8 <=? s)%float = true -> _interval_days s = 14) /\
     ((0.8 <=? s)%float = false -> (0.6 <=? s)%float = true -> _interval_days s = 7) /\
     ((0.6 <=? s)%float = false -> (0.4 <=? s)%float = true -> _interval_days s = 4) /\
     ((0.4 <=? s)%float = false -> (0.2 <=? s)%float = true -> _interval_days s = 2) /\
     ((0.2 <=? s)%float = false -> _interval_days s = 1)) /\
  (forall s1 s2 : float,
     (s1 <=? s2)%float = true -> _interval_days s1 <= _interval_days s2) /\
  match compute_mastery_update patient_id payload correct response_time_ms w with
  | (Return (Some u), _) =>
      u_next_due_at u
        = clock w (ticks w) + timedelta_days (_interval_days (u_mastery_score u)) /\
      u_last_seen_at u = clock w (S (ticks w))
  | (Return None, _) => has_item_ref payload = false
  | (Raise _, _) => False
  end.
Proof.
  split; [| split].
  - intros s. unfold _interval_days.
    pose proof (float_leb_trans 0.6 0.8 s eq_refl) as H86.
    pose proof (float_leb_trans 0.4 0.6 s eq_refl) as H64.
    pose proof (float_leb_trans 0.2 0.4 s eq_refl) as H42.
    destruct (0.8 <=? s)%float, (0.6 <=? s)%float, (0.4 <=? s)%float,
      (0.2 <=? s)%float;
      try (specialize (H86 eq_refl); discriminate);
      try (specialize (H64 eq_refl); discriminate);
      try (specialize (H42 eq_refl); discriminate);
      repeat split; intros; try reflexivity; discriminate.
  - exact _interval_days_mono.
  - unfold has_item_ref in *.
    destruct (p_item_type payload) as [item_type|] eqn:Ht;
      [| unfold compute_mastery_update; rewrite Ht; reflexivity].
    destruct (p_item_id payload) as [item_id|] eqn:Hi;
      [| unfold compute_mastery_update; rewrite Ht, Hi; simpl;
         apply andb_false_r].
    destruct (String.eqb_spec item_type "") as [->|Htne].
    { unfold compute_mastery_update. rewrite Ht, Hi. reflexivity. }
    destruct (String.eqb_spec item_id "") as [->|Hine].
    { unfold compute_mastery_update. rewrite Ht, Hi. simpl.
      rewrite orb_true_r. simpl. apply andb_false_r. }
    pose proof (compute_mastery_update_eq w patient_id payload item_type item_id
                  correct response_time_ms Ht Htne Hi Hine) as E.
    destruct (baseline _) as [[s cc] ci]. rewrite E. simpl. split; reflexivity.
Qed.

(** The schedule at two scores, and the record built from a stored score
    of 0.75 answered correctly and slowly: 0.85, hence 14 days. *)
Lemma interval_schedule_witness :
  _interval_days 0.1 <= _interval_days 0.9 /\
  _interval_days 0.85 = 14 /\
  match
    compute_mastery_update "p1" Fixture.color_payload true 5000
      (Fixture.world_of
         (Fixture.with_mastery [Fixture.color_mastery 0.75 0] Fixture.no_rows))
  with
  | (Return (Some u), _) =>
      u_next_due_at u = 1700000000000000 + 14 * 86400000000 /\
      u_last_seen_at u = 1700000000000001
  | _ => False
  end.
Proof.
  pose proof (interval_schedule
                (Fixture.world_of
                   (Fixture.with_mastery [Fixture.color_mastery 0.75 0]
                      Fixture.no_rows))
                "p1" Fixture.color_payload true 5000) as [Hstep [Hmono Hrec]].
  split; [apply Hmono; reflexivity |].
  split; [apply (proj1 (Hstep 0.85%float)); reflexivity |].
  vm_compute in Hrec |- *. exact Hrec.
Defined.

(** C2, the statement as given fails: 0.1 <= 0.9, yet the interval grows
    from 1 day to 14 days, so the interval is not non-increasing in the
    score. *)
Lemma interval_is_not_non_increasing :
  (0.1 <=? 0.9)%float = true /\
  _interval_days 0.1 = 1 /\ _interval_days 0.9 = 14 /\
  ~ (forall s1 s2 : float,
       (s1 <=? s2)%float = true -> _interval_days s2 <= _interval_days s1).
Proof.
  split; [reflexivity |]. split; [reflexivity |]. split; [reflexivity |].
  intros H. specialize (H 0.1%float 0.9%float eq_refl). vm_compute in H.
  apply H. reflexivity.
Qed.

End Scheduler.

(** ** The answer evaluator: [evaluate_answer] *)
Section AnswerEvaluator.
Import Db Quiz Spec.

Lemma existsb_eqb_elem_of (x : string) (l : list string) :
  existsb (String.eqb x) l = true <-> x ∈ l.
Proof.
  rewrite existsb_exists. split.
  - intros [y [Hy E]]. apply String.eqb_eq in E. subst y.
    by apply list_elem_of_In.
  - intros Hx. exists x. split; [by apply list_elem_of_In | apply String.eqb_refl].
Qed.

(** What a "recall" question accepts: the canonical answer, both sides
    stripped and lowered, or an alternate that, lowered but not stripped,
    equals the stripped and lowered submission. *)
Lemma evaluate_answer_recall (correct_answer user_answer : Py.Val)
    (acceptable_answers : option (list string)) :
  evaluate_answer "recall" correct_answer user_answer acceptable_answers = true <->
  normalize (Py.str user_answer) = normalize (Py.str correct_answer) \/
  exists a, a ∈ default [] acceptable_answers /\
            normalize (Py.str user_answer) = Py.lower a.
Proof.
  unfold evaluate_answer, normalize. simpl String.eqb. cbv iota.
  destruct (String.eqb_spec (Py.lower (Py.strip (Py.str correct_answer)))
              (Py.lower (Py.strip (Py.str user_answer)))) as [E|NE].
  - split; [intros _; left; congruence | reflexivity].
  - rewrite existsb_eqb_elem_of, list_elem_of_fmap. split.
    + intros [a [Ha Hin]]. right. exists a. split; assumption.
    + intros [E | [a [Hin Ha]]]; [congruence |]. exists a. split; assumption.
Qed.

(** X1: what every other question type accepts: the canonical answer alone. *)
Lemma evaluate_answer_other (question_type : string)
    (correct_answer user_answer : Py.Val) (acceptable_answers : option (list string)) :
  question_type <> "recall" ->
  (evaluate_answer question_type correct_answer user_answer acceptable_answers = true <->
   normalize (Py.str user_answer) = normalize (Py.str correct_answer)).
Proof.
  intros Hq. unfold evaluate_answer, normalize.
  destruct (String.eqb_spec question_type "recall"); [contradiction |].
  apply String.eqb_eq.
Qed.

(** C3, at the failing input: for a "recall" question whose canonical
    answer is "blue" and whose only alternate is " Navy " (with
    surrounding blanks), the submission "navy" is rejected, although it
    equals the alternate up to case and surrounding white space; the same
    alternate without the blanks is accepted, also for a padded
    submission. *)
Theorem padded_alternate_is_rejected :
  normalize "navy" = normalize " Navy " /\
  evaluate_answer "recall" (Py.Str "blue") (Py.Str "navy") (Some [" Navy "]) = false /\
  evaluate_answer "recall" (Py.Str "blue") (Py.Str " NAVY ") (Some ["Navy"]) = true /\
  evaluate_answer "recall" (Py.Str "blue") (Py.Str " BLUE ") (Some [" Navy "]) = true.
Proof. repeat split; reflexivity. Qed.

End AnswerEvaluator.

(** ** The submission endpoint: [submit_quiz] *)
Section Submission.
Import Db Quiz Main Spec.

Lemma kept_refl (e : Engine) : kept e e.
Proof. by repeat split. Qed.

Lemma kept_trans (e1 e2 e3 : Engine) : kept e1 e2 -> kept e2 e3 -> kept e1 e3.
Proof. unfold kept. intros (?&?&?&?) (?&?&?&?). repeat split; congruence. Qed.

(** The scheduler reads the database and the clock and writes nothing. *)
Lemma compute_mastery_update_total (w : World) (patient_id : string)
    (payload : Payload) (correct : bool) (response_time_ms : Z) :
  exists o w',
    compute_mastery_update patient_id payload correct response_time_ms w
      = (Return o, w') /\ engine w' = engine w.
Proof.
  destruct (p_item_type payload) as [item_type|] eqn:Ht;
    [| unfold compute_mastery_update; rewrite Ht; eexists _, _; split; reflexivity].
  destruct (p_item_id payload) as [item_id|] eqn:Hi;
    [| unfold compute_mastery_update; rewrite Ht, Hi; eexists _, _; split;
       reflexivity].
  destruct (String.eqb_spec item_type "") as [->|Htne].
  { unfold compute_mastery_update. rewrite Ht, Hi. eexists _, _. split; reflexivity. }
  destruct (String.eqb_spec item_id "") as [->|Hine].
  { unfold compute_mastery_update. rewrite Ht, Hi. simpl. rewrite orb_true_r.
    eexists _, _. split; reflexivity. }
  pose proof (compute_mastery_update_eq w patient_id payload item_type item_id
                correct response_time_ms Ht Htne Hi Hine) as E.
  destruct (baseline _) as [[s cc] ci]. rewrite E. eexists _, _. split; reflexivity.
Qed.

(** The upsert touches the [mastery] table only. *)
Lemma update_mastery_total (u : MasteryUpdate) (w : World) :
  exists w',
    update_mastery u w = (Return tt, w') /\ kept (engine w) (engine w') /\
    quiz_responses (engine w') = quiz_responses (engine w).
Proof.
  unfold update_mastery, bind, _get_mastery_row, read, utcnow, _uuid, write. simpl.
  destruct (head _) as [row|]; simpl; eexists; (split; [reflexivity |]);
    unfold kept; simpl; repeat split; reflexivity.
Qed.

(** One turn of the loop for an id that resolves: it never raises, adds
    exactly one response row and leaves sessions and questions alone. *)
Lemma score_item_total (w : World) (session_id : string) (session : QuizSession)
    (qmap : gmap string QuizQuestion) (question : QuizQuestion)
    (item : QuizSubmitItem) (t : Tally) :
  qmap !! question_id item = Some question ->
  exists w' row,
    score_item session_id session question item t w
      = (Return (tally_step qmap t item), w') /\
    kept (engine w) (engine w') /\
    quiz_responses (engine w') = quiz_responses (engine w) ++ [row] /\
    qr_session_id row = session_id /\ qr_question_id row = question_id item /\
    qr_correct row = judged qmap item.
Proof.
  intros Hq. unfold score_item, tally_step, judged. rewrite Hq.
  unfold bind at 1. unfold add_response, bind, _uuid, utcnow, write. simpl.
  match goal with
  | |- context [compute_mastery_update ?p ?pl ?c ?r ?w1] =>
      destruct (compute_mastery_update_total w1 p pl c r) as (o & w2 & E & He)
  end.
  rewrite E. simpl in He. destruct o as [u|].
  - destruct (update_mastery_total u w2) as (w3 & E3 & Hk & Hr).
    rewrite E3. unfold ret. eexists _, _. split; [reflexivity |].
    split; [| split].
    + eapply kept_trans; [| exact Hk]. rewrite He.
      unfold kept. simpl. repeat split; reflexivity.
    + rewrite Hr, He. simpl. reflexivity.
    + simpl. repeat split; reflexivity.
  - unfold ret. eexists _, _. split; [reflexivity |].
    split; [| split].
    + rewrite He. unfold kept. simpl. repeat split; reflexivity.
    + rewrite He. simpl. reflexivity.
    + simpl. repeat split; reflexivity.
Qed.

(** A batch whose ids all resolve is scored to the end. *)
Lemma submit_loop_resolved (session_id : string) (session : QuizSession)
    (qmap : gmap string QuizQuestion) (submissions : list QuizSubmitItem) :
  forall (t : Tally) (w : World),
    Forall (resolves qmap) submissions ->
    exists w',
      submit_loop session_id session qmap submissions t w
        = (Return (foldl (tally_step qmap) t submissions), w') /\
      kept (engine w) (engine w') /\
      length (quiz_responses (engine w'))
        = (length (quiz_responses (engine w)) + length submissions)%nat.
Proof.
  induction submissions as [|item rest IH]; intros t w Hall.
  - exists w. simpl. split; [reflexivity |]. split; [apply kept_refl | lia].
  - inversion Hall as [|? ? [question Hq] Hrest]; subst.
    destruct (score_item_total w session_id session qmap question item t Hq)
      as (w1 & row & E1 & Hk1 & Hr1 & _).
    destruct (IH (tally_step qmap t item) w1 Hrest) as (w2 & E2 & Hk2 & Hr2).
    exists w2. simpl. rewrite Hq. unfold bind. rewrite E1, E2.
    split; [reflexivity |]. split; [eapply kept_trans; eassumption |].
    rewrite Hr2, Hr1, length_app. simpl. lia.
Qed.

(** A batch with an id that does not resolve stops there, in the state the
    items before it have left. *)
Lemma submit_loop_unresolved (session_id : string) (session : QuizSession)
    (qmap : gmap string QuizQuestion) (pre : list QuizSubmitItem)
    (bad : QuizSubmitItem) (post : list QuizSubmitItem) :
  forall (t : Tally) (w : World),
    Forall (resolves qmap) pre ->
    qmap !! question_id bad = None ->
    submit_loop session_id session qmap (pre ++ bad :: post) t w
      = (Raise (HTTPException 400 "Invalid question id"),
         snd (submit_loop session_id session qmap pre t w)).
Proof.
  induction pre as [|item rest IH]; intros t w Hall Hbad.
  - simpl. rewrite Hbad. reflexivity.
  - inversion Hall as [|? ? [question Hq] Hrest]; subst.
    destruct (score_item_total w session_id session qmap question item t Hq)
      as (w1 & row & E1 & _).
    simpl. rewrite Hq. unfold bind. rewrite E1. apply IH; assumption.
Qed.

Lemma tally_correct_count (qmap : gmap string QuizQuestion)
    (submissions : list QuizSubmitItem) :
  forall t : Tally,
    correct_count (foldl (tally_step qmap) t submissions)
      = correct_count t + count_correct qmap submissions.
Proof.
  unfold count_correct.
  induction submissions as [|item rest IH]; intros t; simpl; [lia |].
  rewrite IH. simpl. destruct (judged qmap item); simpl; lia.
Qed.

Lemma tally_total_time (qmap : gmap string QuizQuestion)
    (submissions : list QuizSubmitItem) :
  forall t : Tally,
    total_time (foldl (tally_step qmap) t submissions)
      = total_time t + sum_times submissions.
Proof.
  unfold sum_times.
  induction submissions as [|item rest IH]; intros t; simpl; [lia |].
  rewrite IH. simpl. lia.
Qed.

Lemma complete_row_id (session_id : string) (score avg : float) (r : QuizSession) :
  qs_id (complete_row session_id score avg r) = qs_id r.
Proof. unfold complete_row. destruct (decide _); reflexivity. Qed.

Lemma filter_complete_rows (session_id sid : string) (score avg : float)
    (rows : list QuizSession) :
  filter (fun r => qs_id r = sid) (map (complete_row session_id score avg) rows)
    = map (complete_row session_id score avg) (filter (fun r => qs_id r = sid) rows).
Proof.
  induction rows as [|r rows IH]; [reflexivity |].
  simpl map. rewrite !filter_cons, complete_row_id, IH.
  destruct (decide (qs_id r = sid)); reflexivity.
Qed.

(** [submit_quiz] on an existing session, up to the end of the loop. *)
Lemma submit_quiz_unfold (w : World) (session_id : string) (session : QuizSession)
    (submissions : list QuizSubmitItem) :
  find_session w session_id = Some session ->
  submit_quiz session_id submissions w =
    match
      submit_loop session_id session (session_qmap w session_id) submissions
        {| results := []; correct_count := 0; total_time := 0 |} w
    with
    | (Return t, w1) =>
        let len := Z.of_nat (length submissions) in
        let score := Py.truediv (correct_count t) (Z.max len 1) in
        let avg_time := Py.truediv (total_time t) (Z.max len 1) in
        (Return
           {| session_id := session_id; score := score; total_questions := len;
              correct := correct_count t; avg_response_time_ms := avg_time;
              weak_items :=
                map fst (List.filter (fun r => negb (snd r)) (results t)) |},
         {| engine :=
              {| family_members := family_members (engine w1);
                 knowledge_items := knowledge_items (engine w1);
                 quiz_sessions :=
                   map (complete_row session_id score avg_time)
                     (quiz_sessions (engine w1));
                 quiz_questions := quiz_questions (engine w1);
                 quiz_responses := quiz_responses (engine w1);
                 mastery := mastery (engine w1) |};
            clock := clock w1; ticks := ticks w1;
            uuids := uuids w1; draws := draws w1 |})
    | (Raise e, w1) => (Raise e, w1)
    end.
Proof.
  intros Hs. unfold find_session in Hs.
  unfold submit_quiz, session_qmap.
  unfold bind at 1. unfold get_session, read at 1. rewrite Hs.
  unfold bind at 1. unfold list_questions, read at 1.
  unfold bind at 1.
  destruct (submit_loop _ _ _ _ _ w) as [[t|e] w1]; reflexivity.
Qed.

(** C10: a submit call to an existing session whose question ids all
    resolve returns (it does not raise), whatever the status of the
    session and however few of its questions the batch covers.  It adds
    one response row per submitted item, sets the status of the session to
    "completed" and overwrites its score with correct/max(len, 1) and its
    average response time with total/max(len, 1) - both 0 for the empty
    batch.  Afterwards the session is still found and the same ids still
    resolve, so a later submit goes through the same process again. *)
Theorem submit_completes_session (w : World) (session_id : string)
    (session : QuizSession) (submissions : list QuizSubmitItem) :
  find_session w session_id = Some session ->
  Forall (resolves (session_qmap w session_id)) submissions ->
  exists resp w',
    submit_quiz session_id submissions w = (Return resp, w') /\
    score resp
      = Py.truediv (count_correct (session_qmap w session_id) submissions)
          (Z.max (Z.of_nat (length submissions)) 1) /\
    avg_response_time_ms resp
      = Py.truediv (sum_times submissions)
          (Z.max (Z.of_nat (length submissions)) 1) /\
    (submissions = [] ->
     score resp = 0%float /\ avg_response_time_ms resp = 0%float) /\
    (forall r, r ∈ quiz_sessions (engine w') -> qs_id r = session_id ->
       qs_status r = Some "completed" /\
       qs_score r = Some (score resp) /\
       qs_avg_response_time_ms r = Some (avg_response_time_ms resp)) /\
    find_session w' session_id
      = Some (complete_row session_id (score resp) (avg_response_time_ms resp)
                session) /\
    session_qmap w' session_id = session_qmap w session_id /\
    length (quiz_responses (engine w'))
      = (length (quiz_responses (engine w)) + length submissions)%nat.
Proof.
  intros Hs Hall.
  rewrite (submit_quiz_unfold w session_id session submissions Hs).
  destruct (submit_loop_resolved session_id session (session_qmap w session_id)
              submissions {| results := []; correct_count := 0; total_time := 0 |}
              w Hall) as (w1 & E & (Hf & Hk & Hq & Hqq) & Hlen).
  rewrite E. cbv zeta. eexists _, _. split; [reflexivity |]. simpl.
  rewrite tally_correct_count, tally_total_time. simpl.
  split; [reflexivity |]. split; [reflexivity |]. split; [| split; [| split; [| split]]].
  - intros ->. split; reflexivity.
  - intros r Hr Hid. apply list_elem_of_In, in_map_iff in Hr.
    destruct Hr as (r0 & <- & _). rewrite complete_row_id in Hid.
    unfold complete_row. destruct (decide (qs_id r0 = session_id)); [| contradiction].
    simpl. repeat split; reflexivity.
  - unfold find_session. simpl. rewrite filter_complete_rows, Hq.
    unfold find_session in Hs.
    destruct (filter _ (quiz_sessions (engine w))) as [|r0 rows]; [discriminate |].
    simpl in Hs |- *. congruence.
  - unfold session_qmap. simpl. rewrite Hqq. reflexivity.
  - exact Hlen.
Qed.

(** One of the two questions of session "s1" answered, with a trailing
    blank and another case: the session is completed with score 1. *)
Lemma submit_completes_session_witness :
  exists resp w',
    submit_quiz "s1" [Fixture.answer "q1" "Blue "]
      (Fixture.world_of Fixture.quiz_engine) = (Return resp, w') /\
    score resp = 1%float /\
    (forall r, r ∈ quiz_sessions (engine w') -> qs_id r = "s1" ->
       qs_status r = Some "completed") /\
    length (quiz_responses (engine w')) = 1%nat.
Proof.
  destruct (submit_completes_session (Fixture.world_of Fixture.quiz_engine) "s1"
              Fixture.session_s1 [Fixture.answer "q1" "Blue "])
    as (resp & w' & E & Hscore & _ & _ & Hrows & _ & _ & Hlen).
  - reflexivity.
  - repeat constructor. eexists. vm_compute. reflexivity.
  - exists resp, w'. split; [exact E |]. split; [| split].
    + rewrite Hscore. vm_compute. reflexivity.
    + intros r Hr Hid. exact (proj1 (Hrows r Hr Hid)).
    + exact Hlen.
Defined.

(** C4, on the code: when the first id that does not resolve comes after
    the items [pre], the request is rejected with status 400 and the
    session is left as it was, but the world it leaves behind is the one
    reached by scoring [pre]: one response row per item of [pre] has been
    inserted (and their mastery updates applied).  The batch is not
    rejected as a whole. *)
Theorem rejected_batch_keeps_earlier_items (w : World) (session_id : string)
    (session : QuizSession) (pre : list QuizSubmitItem) (bad : QuizSubmitItem)
    (post : list QuizSubmitItem) :
  find_session w session_id = Some session ->
  Forall (resolves (session_qmap w session_id)) pre ->
  session_qmap w session_id !! question_id bad = None ->
  exists w',
    submit_quiz session_id (pre ++ bad :: post) w
      = (Raise (HTTPException 400 "Invalid question id"), w') /\
    w' = snd (submit_loop session_id session (session_qmap w session_id) pre
                {| results := []; correct_count := 0; total_time := 0 |} w) /\
    length (quiz_responses (engine w'))
      = (length (quiz_responses (engine w)) + length pre)%nat /\
    quiz_sessions (engine w') = quiz_sessions (engine w).
Proof.
  intros Hs Hall Hbad.
  rewrite (submit_quiz_unfold w session_id session _ Hs).
  rewrite (submit_loop_unresolved session_id session _ pre bad post _ w Hall Hbad).
  destruct (submit_loop_resolved session_id session (session_qmap w session_id)
              pre {| results := []; correct_count := 0; total_time := 0 |}
              w Hall) as (w1 & E & (Hf & Hk & Hq & Hqq) & Hlen).
  rewrite E. simpl. eexists. split; [reflexivity |].
  split; [reflexivity |]. split; assumption.
Qed.

(** The failing input: a valid answer to "q1", then an unknown id, then a
    valid answer to "q2".  The request is rejected, the session stays
    active, and the first answer has left a response row and a mastery
    row. *)
Lemma rejected_batch_keeps_earlier_items_witness :
  exists w',
    submit_quiz "s1"
      [Fixture.answer "q1" "blue"; Fixture.answer "q9" "x"; Fixture.answer "q2" "Lyon"]
      (Fixture.world_of Fixture.quiz_engine)
      = (Raise (HTTPException 400 "Invalid question id"), w') /\
    map qr_question_id (quiz_responses (engine w')) = ["q1"] /\
    map m_item_id (mastery (engine w')) = ["k1"] /\
    quiz_sessions (engine w') = [Fixture.session_s1].
Proof.
  destruct (rejected_batch_keeps_earlier_items
              (Fixture.world_of Fixture.quiz_engine) "s1" Fixture.session_s1
              [Fixture.answer "q1" "blue"] (Fixture.answer "q9" "x")
              [Fixture.answer "q2" "Lyon"])
    as (w' & E & Hw & _ & Hsess).
  - reflexivity.
  - repeat constructor. eexists. vm_compute. reflexivity.
  - vm_compute. reflexivity.
  - exists w'. split; [exact E |]. rewrite Hw.
    split; [vm_compute; reflexivity |]. split; [vm_compute; reflexivity |].
    rewrite <- Hw. exact Hsess.
Defined.

End Submission.

(** ** The due set: [due_items] *)
Section DueSet.
Import Db Spec.

Lemma add_family_keeps (rows : list FamilyMember) :
  forall (due_list : list DueEntry) (known_ids : gset string) (d : DueEntry),
    d ∈ due_list -> d ∈ (add_family rows due_list known_ids).1.
Proof.
  induction rows as [|row rest IH]; intros due_list known_ids d Hd; simpl; [done |].
  destruct (decide (fm_id row ∈ known_ids)); apply IH; [done |].
  apply elem_of_app. by left.
Qed.

Lemma add_knowledge_keeps (rows : list KnowledgeItem) :
  forall (due_list : list DueEntry) (known_ids : gset string) (d : DueEntry),
    d ∈ due_list -> d ∈ (add_knowledge rows due_list known_ids).1.
Proof.
  induction rows as [|row rest IH]; intros due_list known_ids d Hd; simpl; [done |].
  destruct (decide (ki_id row ∈ known_ids)); apply IH; [done |].
  apply elem_of_app. by left.
Qed.

(** A family member whose id is not known yet gets its entry. *)
Lemma add_family_lists (rows : list FamilyMember) :
  forall (due_list : list DueEntry) (known_ids : gset string) (row : FamilyMember),
    row ∈ rows -> fm_id row ∉ known_ids ->
    DueFamily (fm_id row) ∈ (add_family rows due_list known_ids).1.
Proof.
  induction rows as [|r rest IH]; intros due_list known_ids row Hrow Hnew;
    [by apply elem_of_nil in Hrow |].
  simpl. apply elem_of_cons in Hrow. destruct Hrow as [->|Hrow].
  - destruct (decide (fm_id r ∈ known_ids)); [contradiction |].
    apply add_family_keeps, elem_of_app. right. by apply list_elem_of_singleton.
  - destruct (decide (fm_id r ∈ known_ids)); [by apply IH |].
    destruct (decide (fm_id row = fm_id r)) as [E|NE].
    + rewrite E. apply add_family_keeps, elem_of_app. right.
      by apply list_elem_of_singleton.
    + apply IH; [done |]. intros Hin. apply elem_of_union in Hin.
      destruct Hin as [Hin|Hin]; [| contradiction].
      apply elem_of_singleton in Hin. contradiction.
Qed.

(** The two loops add no mastery row. *)
Lemma add_family_mastery (rows : list FamilyMember) :
  forall (due_list : list DueEntry) (known_ids : gset string) (m : Mastery),
    DueMastery m ∈ (add_family rows due_list known_ids).1 -> DueMastery m ∈ due_list.
Proof.
  induction rows as [|r rest IH]; intros due_list known_ids m Hm; simpl in Hm; [done |].
  destruct (decide (fm_id r ∈ known_ids)); [by eapply IH |].
  apply IH in Hm. apply elem_of_app in Hm as [Hm|Hm]; [done |].
  apply list_elem_of_singleton in Hm. discriminate.
Qed.

Lemma add_knowledge_mastery (rows : list KnowledgeItem) :
  forall (due_list : list DueEntry) (known_ids : gset string) (m : Mastery),
    DueMastery m ∈ (add_knowledge rows due_list known_ids).1 -> DueMastery m ∈ due_list.
Proof.
  induction rows as [|r rest IH]; intros due_list known_ids m Hm; simpl in Hm; [done |].
  destruct (decide (ki_id r ∈ known_ids)); [by eapply IH |].
  apply IH in Hm. apply elem_of_app in Hm as [Hm|Hm]; [done |].
  apply list_elem_of_singleton in Hm. discriminate.
Qed.


(** C5, on the code: a family member of the patient whose mastery record
    is next due strictly after now is still listed.  No entry wraps the
    record itself, but [known_ids] holds the ids of the due records only,
    so the member counts as having no mastery row and gets the entry of a
    never-reviewed item. *)
Theorem not_due_item_is_listed (w : World) (patient_id : string) (m : Mastery)
    (f : FamilyMember) (t : Z) :
  m ∈ mastery (engine w) ->
  m_patient_id m = patient_id -> m_item_type m = "family" -> m_item_id m = fm_id f ->
  m_next_due_at m = Some t -> clock w (ticks w) < t ->
  (forall m', m' ∈ mastery (engine w) -> m_item_id m' = fm_id f ->
     is_due patient_id (clock w (ticks w)) m' = false) ->
  f ∈ family_members (engine w) -> fm_patient_id f = patient_id ->
  exists due_list w',
    due_items patient_id w = (Return due_list, w') /\
    DueFamily (fm_id f) ∈ due_list /\
    DueMastery m ∉ due_list.
Proof.
  intros Hm Hp Hty Hid Hdue Hlt Huniq Hf Hfp.
  unfold due_items, bind, utcnow, read. simpl.
  eexists _, _. split; [reflexivity |].
  destruct (add_family _ _ _) as [due_list known_ids] eqn:EF.
  split.
  - apply add_knowledge_keeps.
    change due_list with (due_list, known_ids).1. rewrite <- EF.
    apply add_family_lists.
    + apply list_elem_of_filter. split; assumption.
    + rewrite elem_of_list_to_set. intros Hin.
      apply list_elem_of_In, in_map_iff in Hin. destruct Hin as (m' & Hid' & Hin').
      apply filter_In in Hin'. destruct Hin' as [Hin' Hd].
      rewrite (Huniq m' (proj2 (list_elem_of_In _ _) Hin') Hid') in Hd. discriminate.
  - intros Hin. apply add_knowledge_mastery in Hin.
    change due_list with (due_list, known_ids).1 in Hin. rewrite <- EF in Hin.
    apply add_family_mastery in Hin.
    apply list_elem_of_In, in_map_iff in Hin. destruct Hin as (m' & E & Hin').
    injection E as ->. apply filter_In in Hin'. destruct Hin' as [_ Hd].
    unfold is_due in Hd. rewrite Hdue in Hd.
    apply andb_true_iff in Hd. destruct Hd as [_ Hd]. apply Z.leb_le in Hd. lia.
Qed.

(** The failing input: Anna and the favourite colour were both reviewed
    and are due tomorrow; the due set lists both of them today. *)
Lemma not_due_item_is_listed_witness :
  exists due_list w',
    due_items "p1" (Fixture.world_of Fixture.reviewed_engine)
      = (Return due_list, w') /\
    DueFamily "f1" ∈ due_list /\
    due_list = [DueFamily "f1"; DueKnowledge "k1" 0].
Proof.
  destruct (not_due_item_is_listed (Fixture.world_of Fixture.reviewed_engine) "p1"
              (Fixture.anna_mastery (1700000000000000 + 86400000000))
              Fixture.anna (1700000000000000 + 86400000000))
    as (due_list & w' & E & Hin & _).
  - apply list_elem_of_here.
  - reflexivity.
  - reflexivity.
  - reflexivity.
  - reflexivity.
  - reflexivity.
  - intros m' Hm' _. simpl in Hm'.
    apply elem_of_cons in Hm'. destruct Hm' as [->|Hm']; [reflexivity |].
    apply list_elem_of_singleton in Hm'. subst m'. reflexivity.
  - apply list_elem_of_here.
  - reflexivity.
  - exists due_list, w'. split; [exact E |]. split; [exact Hin |].
    vm_compute in E. congruence.
Defined.

End DueSet.

(** ** The quiz assembler: [generate_quiz_questions] *)
Section Assembler.
Import Db Quiz Spec.

Lemma drafts_length (ids : nat -> string) (items : list Item) :
  forall k, length (drafts ids k items) = length items.
Proof. induction items as [|item rest IH]; intros k; simpl; [| rewrite IH]; reflexivity. Qed.

Lemma drafts_elem (ids : nat -> string) (items : list Item) :
  forall k q, q ∈ drafts ids k items ->
    exists id item, item ∈ items /\ q = fallback_question id item.
Proof.
  induction items as [|item rest IH]; intros k q Hq; simpl in Hq.
  - by apply elem_of_nil in Hq.
  - apply elem_of_cons in Hq. destruct Hq as [->|Hq].
    + eexists _, item. split; [apply list_elem_of_here | reflexivity].
    + destruct (IH _ _ Hq) as (id & it & Hin & E).
      exists id, it. split; [by apply list_elem_of_further | exact E].
Qed.

(** The loop of [_fallback_questions] never raises: it appends one
    question per item and draws one identifier for each. *)
Lemma fallback_loop_eq (items : list Item) :
  forall (questions : list Py.Json) (w : World),
    fallback_loop items questions w
      = (Return (questions ++ drafts (uuids w) (draws w) items),
         drawn (length items) w).
Proof.
  induction items as [|item rest IH]; intros questions w; simpl.
  - rewrite app_nil_r. unfold ret, drawn. destruct w; reflexivity.
  - unfold bind, _uuid. rewrite IH. simpl. rewrite <- app_assoc. simpl.
    unfold drawn. simpl. do 2 f_equal. lia.
Qed.

(** When the assembler falls back it returns the fallback questions for
    the selected items. *)
Lemma generate_falls_back (w : World) (client : option Completion) (patient : Patient)
    (family_members : list FamilyMember) (knowledge_items : list KnowledgeItem)
    (due_items : list DueEntry) (n : Z) (include_sensitive : bool) :
  falls_back client include_sensitive family_members knowledge_items due_items = true ->
  generate_quiz_questions client patient family_members knowledge_items due_items n
    include_sensitive w
  = (Return (Py.JArr (drafts (uuids w) (draws w)
                        (fallback_items family_members knowledge_items due_items n
                           include_sensitive))),
     drawn (length (fallback_items family_members knowledge_items due_items n
                      include_sensitive)) w).
Proof.
  intros Hfb. unfold generate_quiz_questions, falls_back in *.
  assert (Hrun : forall w0 : World,
            (qs <- _fallback_questions
                     (Py.slice_to
                        (select_items family_members knowledge_items due_items n
                           include_sensitive) n) [] n ;; ret (Py.JArr qs))%py w0
            = (Return (Py.JArr (drafts (uuids w0) (draws w0)
                                  (fallback_items family_members knowledge_items
                                     due_items n include_sensitive))),
               drawn (length (fallback_items family_members knowledge_items
                                due_items n include_sensitive)) w0)).
  { intros w0. unfold bind, _fallback_questions. rewrite fallback_loop_eq.
    reflexivity. }
  destruct client as [[| |data]|]; try discriminate.
  - rewrite Hfb. simpl. apply Hrun.
  - rewrite Hfb. simpl. apply Hrun.
  - apply Hrun.
Qed.

(** C8, on the code: a configured generator whose content decodes to
    anything but a JSON object makes the assembler raise [AttributeError]
    to its caller - no fallback is substituted - and so does, with
    [TypeError], any request that cannot be serialized, whatever the
    generator would have answered. *)
Theorem unexpected_shape_raises (w : World) (patient : Patient)
    (family_members : list FamilyMember) (knowledge_items : list KnowledgeItem)
    (due_items : list DueEntry) (n : Z) (include_sensitive : bool) (data : Py.Json) :
  (forall members, data <> Py.JObj members) ->
  (request_serializable family_members
     (sensitive_filter include_sensitive knowledge_items) due_items = true ->
   generate_quiz_questions (Some (ContentJson data)) patient family_members
     knowledge_items due_items n include_sensitive w
   = (Raise AttributeError, w)) /\
  (request_serializable family_members
     (sensitive_filter include_sensitive knowledge_items) due_items = false ->
   forall completion,
     generate_quiz_questions (Some completion) patient family_members
       knowledge_items due_items n include_sensitive w
     = (Raise TypeError, w)).
Proof.
  intros Hshape. unfold generate_quiz_questions. split; intros Hser.
  - rewrite Hser. simpl. destruct data; try reflexivity.
    exfalso. eapply Hshape. reflexivity.
  - intros completion. rewrite Hser. reflexivity.
Qed.

(** The failing inputs: with an empty catalog, a generator that answers
    with a JSON array; and with the favourite colour in the catalog (its
    row carries the [created_at] timestamp), a generator that fails. *)
Lemma unexpected_shape_raises_witness :
  generate_quiz_questions (Some (ContentJson (Py.JArr []))) Fixture.bob [] [] [] 7 false
    (Fixture.world_of Fixture.no_rows)
  = (Raise AttributeError, Fixture.world_of Fixture.no_rows) /\
  generate_quiz_questions (Some RaisesOpenAIError) Fixture.bob [] [Fixture.color_item]
    [DueKnowledge "k1" 0] 7 false (Fixture.world_of Fixture.no_rows)
  = (Raise TypeError, Fixture.world_of Fixture.no_rows).
Proof.
  split.
  - apply (unexpected_shape_raises (Fixture.world_of Fixture.no_rows) Fixture.bob
             [] [] [] 7 false (Py.JArr [])); [discriminate | reflexivity].
  - apply (unexpected_shape_raises (Fixture.world_of Fixture.no_rows) Fixture.bob
             [] [Fixture.color_item] [DueKnowledge "k1" 0] 7 false (Py.JArr []));
      [discriminate | reflexivity].
Defined.

(** *** The selection *)

Lemma tracked_add (selected_items : list Item) (seen : gset string) (item : Item) :
  tracked (selected_items, seen) -> item_id item ∉ seen ->
  tracked (selected_items ++ [item], {[item_id item]} ∪ seen).
Proof.
  unfold tracked. simpl. intros [Hnd ->] Hnew. rewrite map_app. simpl. split.
  - apply NoDup_app. split; [exact Hnd |]. split; [| apply NoDup_singleton].
    intros i Hi Hi'. apply list_elem_of_singleton in Hi'. subst i.
    apply Hnew. by apply elem_of_list_to_set.
  - rewrite list_to_set_snoc_L. apply union_comm_L.
Qed.

Lemma prioritize_step_tracked (knowledge_lookup : gmap string KnowledgeItem)
    (family_lookup : gmap string FamilyMember) (st : list Item * gset string)
    (due : DueEntry) :
  tracked st -> tracked (prioritize_step knowledge_lookup family_lookup st due).
Proof.
  destruct st as [selected_items seen]. intros Ht. unfold prioritize_step.
  match goal with |- context [match ?o with Some _ => _ | None => _ end] =>
    destruct o as [item|] end; [| exact Ht].
  destruct (decide (item_id item ∈ seen)); [exact Ht |]. by apply tracked_add.
Qed.

Lemma prioritize_tracked (knowledge_lookup : gmap string KnowledgeItem)
    (family_lookup : gmap string FamilyMember) (due_items : list DueEntry) :
  forall st, tracked st ->
    tracked (foldl (prioritize_step knowledge_lookup family_lookup) st due_items).
Proof.
  induction due_items as [|due rest IH]; intros st Ht; simpl; [exact Ht |].
  apply IH. by apply prioritize_step_tracked.
Qed.

Lemma fill_tracked (n : Z) (items : list Item) :
  forall selected_items seen,
    tracked (selected_items, seen) -> tracked (fill n items selected_items seen).
Proof.
  induction items as [|item rest IH]; intros selected_items seen Ht; simpl;
    [exact Ht |].
  destruct (decide (item_id item ∈ seen)); [by apply IH |].
  destruct (n <=? _)%Z; [| apply IH]; by apply tracked_add.
Qed.

Lemma fill_seen_mono (n : Z) (items : list Item) :
  forall selected_items seen, seen ⊆ (fill n items selected_items seen).2.
Proof.
  induction items as [|item rest IH]; intros selected_items seen; simpl; [done |].
  destruct (decide (item_id item ∈ seen)); [apply IH |].
  destruct (n <=? _)%Z; simpl; [apply union_subseteq_r |].
  etrans; [| apply IH]. apply union_subseteq_r.
Qed.

Lemma fill_length_mono (n : Z) (items : list Item) :
  forall selected_items seen,
    (length selected_items <= length (fill n items selected_items seen).1)%nat.
Proof.
  induction items as [|item rest IH]; intros selected_items seen; simpl; [lia |].
  destruct (decide (item_id item ∈ seen)); [apply IH |].
  destruct (n <=? _)%Z; simpl; [rewrite length_app; simpl; lia |].
  etrans; [| apply IH]. rewrite length_app. simpl. lia.
Qed.

(** The fill loop stops with [n] items selected, or else with every id of
    the list it walks seen. *)
Lemma fill_full (n : Z) (items : list Item) :
  forall selected_items seen,
    n <= Z.of_nat (length (fill n items selected_items seen).1) \/
    (forall item, item ∈ items -> item_id item ∈ (fill n items selected_items seen).2).
Proof.
  induction items as [|item rest IH]; intros selected_items seen; simpl.
  - right. intros item Hin. by apply elem_of_nil in Hin.
  - destruct (decide (item_id item ∈ seen)) as [Hseen|Hnew].
    + destruct (IH selected_items seen) as [Hn|Hall]; [by left | right].
      intros it Hit. apply elem_of_cons in Hit. destruct Hit as [->|Hit];
        [| by apply Hall].
      by apply (fill_seen_mono n rest selected_items seen).
    + destruct (n <=? _)%Z eqn:En; simpl.
      * left. by apply Z.leb_le.
      * destruct (IH (selected_items ++ [item]) ({[item_id item]} ∪ seen))
          as [Hn|Hall]; [by left | right].
        intros it Hit. apply elem_of_cons in Hit. destruct Hit as [->|Hit];
          [| by apply Hall].
        apply (fill_seen_mono n rest (selected_items ++ [item])
                 ({[item_id item]} ∪ seen)).
        apply elem_of_union. left. by apply elem_of_singleton.
Qed.

Lemma tracked_length (st : list Item * gset string) :
  tracked st -> length st.1 = size st.2.
Proof.
  intros [Hnd ->]. rewrite size_list_to_set by exact Hnd. by rewrite length_map.
Qed.

(** With at least [n] different ids in the catalog, at least [n] items are
    selected. *)
Lemma select_items_enough (family_members : list FamilyMember)
    (knowledge_items : list KnowledgeItem) (due_items : list DueEntry) (n : Z)
    (include_sensitive : bool) :
  n <= Z.of_nat (distinct_ids (catalog include_sensitive family_members knowledge_items)) ->
  n <= Z.of_nat (length (select_items family_members knowledge_items due_items n
                           include_sensitive)).
Proof.
  intros Hn. unfold select_items, distinct_ids, catalog in *.
  set (st := foldl _ _ due_items).
  assert (Hst : tracked (st.1, st.2)).
  { destruct st as [a b] eqn:E. simpl. rewrite <- E. unfold st.
    apply prioritize_tracked. split; [apply NoDup_nil_2 | reflexivity]. }
  set (items := map Knowledge _ ++ map Family _) in *.
  pose proof (fill_tracked n items st.1 st.2 Hst) as Ht.
  destruct (fill_full n items st.1 st.2) as [Hlen|Hall]; [exact Hlen |].
  rewrite (tracked_length _ Ht).
  etrans; [exact Hn |]. apply inj_le, subseteq_size.
  intros i Hi. apply elem_of_list_to_set in Hi.
  apply list_elem_of_fmap in Hi. destruct Hi as (item & -> & Hin).
  by apply Hall.
Qed.

Lemma slice_to_nonneg {A} (l : list A) (n : Z) :
  0 <= n -> Py.slice_to l n = take (Z.to_nat n) l.
Proof. intros Hn. unfold Py.slice_to. by rewrite (proj2 (Z.leb_le 0 n) Hn). Qed.

Lemma slice_to_elem {A} (l : list A) (n : Z) (x : A) : x ∈ Py.slice_to l n -> x ∈ l.
Proof.
  unfold Py.slice_to. destruct (0 <=? n)%Z; intros Hx;
    apply elem_of_take in Hx; destruct Hx as (i & Hi & _);
    by eapply list_elem_of_lookup_2.
Qed.

Lemma fallback_items_pool (family_members : list FamilyMember)
    (knowledge_items : list KnowledgeItem) (due_items : list DueEntry) (n : Z)
    (include_sensitive : bool) :
  0 <= n ->
  fallback_items family_members knowledge_items due_items n include_sensitive
    = items_pool family_members knowledge_items due_items n include_sensitive.
Proof.
  intros Hn. unfold fallback_items, items_pool.
  rewrite app_nil_r, !slice_to_nonneg by exact Hn.
  rewrite take_take. f_equal. lia.
Qed.

(** C6 (as amended): for a requested count n >= 0 the selection is cut to
    [items_pool] of at most n items, exactly n when the filtered catalog
    holds at least n different ids; whenever the assembler falls back (no
    generator configured, or the request was sent and the generator raised
    or answered with text that is not JSON) it returns one question per
    item of that pool, hence at most n.  What a configured generator sends
    as its "questions" member is returned as it is, with no bound. *)
Theorem fallback_returns_at_most_n (w : World) (client : option Completion)
    (patient : Patient) (family_members : list FamilyMember)
    (knowledge_items : list KnowledgeItem) (due_items : list DueEntry) (n : Z)
    (include_sensitive : bool) :
  0 <= n ->
  let pool := items_pool family_members knowledge_items due_items n include_sensitive in
  Z.of_nat (length pool) <= n /\
  (n <= Z.of_nat (distinct_ids (catalog include_sensitive family_members knowledge_items)) ->
   Z.of_nat (length pool) = n) /\
  (falls_back client include_sensitive family_members knowledge_items due_items = true ->
   exists qs w',
     generate_quiz_questions client patient family_members knowledge_items due_items
       n include_sensitive w = (Return (Py.JArr qs), w') /\
     length qs = length pool) /\
  (forall members,
     request_serializable family_members
       (sensitive_filter include_sensitive knowledge_items) due_items = true ->
     generate_quiz_questions (Some (ContentJson (Py.JObj members))) patient
       family_members knowledge_items due_items n include_sensitive w
     = (Return (default (Py.JArr []) (Py.assoc_last "questions" members)), w)).
Proof.
  intros Hn pool. unfold pool, items_pool.
  rewrite slice_to_nonneg, length_take by exact Hn.
  split; [lia |]. split; [| split].
  - intros Hcat.
    pose proof (select_items_enough family_members knowledge_items due_items n
                  include_sensitive Hcat). lia.
  - intros Hfb. rewrite (generate_falls_back w client patient _ _ _ n _ Hfb).
    eexists _, _. split; [reflexivity |].
    rewrite drafts_length, fallback_items_pool by exact Hn.
    unfold items_pool. by rewrite slice_to_nonneg, length_take.
  - intros members Hser. unfold generate_quiz_questions. rewrite Hser. reflexivity.
Qed.

(** No generator configured, seven questions asked for, two items in the
    catalog: two questions.  One asked for: one question. *)
Lemma fallback_returns_at_most_n_witness :
  (exists qs w',
     generate_quiz_questions None Fixture.bob [Fixture.anna] [Fixture.color_item] []
       7 false (Fixture.world_of Fixture.no_rows) = (Return (Py.JArr qs), w') /\
     length qs = 2%nat) /\
  (exists qs w',
     generate_quiz_questions None Fixture.bob [Fixture.anna] [Fixture.color_item] []
       1 false (Fixture.world_of Fixture.no_rows) = (Return (Py.JArr qs), w') /\
     length qs = 1%nat).
Proof.
  split.
  - destruct (fallback_returns_at_most_n (Fixture.world_of Fixture.no_rows) None
                Fixture.bob [Fixture.anna] [Fixture.color_item] [] 7 false
                ltac:(lia)) as (_ & _ & Hfb & _).
    destruct (Hfb eq_refl) as (qs & w' & E & Hlen).
    exists qs, w'. split; [exact E |]. rewrite Hlen. vm_compute. reflexivity.
  - destruct (fallback_returns_at_most_n (Fixture.world_of Fixture.no_rows) None
                Fixture.bob [Fixture.anna] [Fixture.color_item] [] 1 false
                ltac:(lia)) as (_ & Hexact & Hfb & _).
    destruct (Hfb eq_refl) as (qs & w' & E & Hlen).
    exists qs, w'. split; [exact E |]. rewrite Hlen.
    apply Nat2Z.inj. apply Hexact. vm_compute. discriminate.
Defined.

(** C6, the statement as given fails: asked for one question, a configured
    generator that sends two gets both of them returned. *)
Lemma generator_list_exceeds_n :
  let q := Fixture.generated_question "knowledge" "k3" in
  generate_quiz_questions
    (Some (ContentJson (Py.JObj [("questions", Py.JArr [q; q])])))
    Fixture.bob [] [Fixture.diagnosis_item] [DueKnowledge "k3" 3] 1 false
    (Fixture.world_of Fixture.no_rows)
  = (Return (Py.JArr [q; q]), Fixture.world_of Fixture.no_rows) /\
  ~ (Z.of_nat (length [q; q]) <= 1).
Proof. split; [reflexivity | simpl; lia]. Qed.

(** *** Where the selected items come from *)

Lemma knowledge_lookup_elem (rows : list KnowledgeItem) :
  forall (m : gmap string KnowledgeItem) (i : string) (k : KnowledgeItem),
    foldl (fun m k => <[ki_id k := k]> m) m rows !! i = Some k ->
    k ∈ rows \/ m !! i = Some k.
Proof.
  induction rows as [|r rest IH]; intros m i k Hk; simpl in Hk; [by right |].
  apply IH in Hk. destruct Hk as [Hk|Hk]; [left; by apply list_elem_of_further |].
  destruct (decide (ki_id r = i)) as [<-|NE].
  - rewrite lookup_insert_eq in Hk. injection Hk as ->. left. apply list_elem_of_here.
  - rewrite lookup_insert_ne in Hk by exact NE. by right.
Qed.

Lemma family_lookup_elem (rows : list FamilyMember) :
  forall (m : gmap string FamilyMember) (i : string) (f : FamilyMember),
    foldl (fun m f => <[fm_id f := f]> m) m rows !! i = Some f ->
    f ∈ rows \/ m !! i = Some f.
Proof.
  induction rows as [|r rest IH]; intros m i f Hf; simpl in Hf; [by right |].
  apply IH in Hf. destruct Hf as [Hf|Hf]; [left; by apply list_elem_of_further |].
  destruct (decide (fm_id r = i)) as [<-|NE].
  - rewrite lookup_insert_eq in Hf. injection Hf as ->. left. apply list_elem_of_here.
  - rewrite lookup_insert_ne in Hf by exact NE. by right.
Qed.

Lemma prioritize_step_members (sensitive_filtered : list KnowledgeItem)
    (family_members : list FamilyMember) (st : list Item * gset string)
    (due : DueEntry) (item : Item) :
  item ∈ (prioritize_step (knowledge_lookup_of sensitive_filtered)
            (family_lookup_of family_members) st due).1 ->
  item ∈ st.1 \/
  item ∈ map Knowledge sensitive_filtered ++ map Family family_members.
Proof.
  destruct st as [selected_items seen]. unfold prioritize_step. simpl.
  destruct (String.eqb (due_item_type due) "knowledge").
  - destruct (knowledge_lookup_of sensitive_filtered !! due_item_id due) as [k|] eqn:Ek;
      simpl; [| by left].
    destruct (decide (ki_id k ∈ seen)); simpl; [by left |].
    intros Hin. apply elem_of_app in Hin. destruct Hin as [Hin|Hin]; [by left | right].
    apply list_elem_of_singleton in Hin. subst item.
    apply knowledge_lookup_elem in Ek. destruct Ek as [Ek|Ek];
      [| by rewrite lookup_empty in Ek].
    apply elem_of_app. left. apply list_elem_of_fmap. by exists k.
  - destruct (String.eqb (due_item_type due) "family"); simpl; [| by left].
    destruct (family_lookup_of family_members !! due_item_id due) as [f|] eqn:Ef;
      simpl; [| by left].
    destruct (decide (fm_id f ∈ seen)); simpl; [by left |].
    intros Hin. apply elem_of_app in Hin. destruct Hin as [Hin|Hin]; [by left | right].
    apply list_elem_of_singleton in Hin. subst item.
    apply family_lookup_elem in Ef. destruct Ef as [Ef|Ef];
      [| by rewrite lookup_empty in Ef].
    apply elem_of_app. right. apply list_elem_of_fmap. by exists f.
Qed.

Lemma prioritize_members (sensitive_filtered : list KnowledgeItem)
    (family_members : list FamilyMember) (due_items : list DueEntry) (item : Item) :
  forall st,
    item ∈ (foldl (prioritize_step (knowledge_lookup_of sensitive_filtered)
                     (family_lookup_of family_members)) st due_items).1 ->
    item ∈ st.1 \/
    item ∈ map Knowledge sensitive_filtered ++ map Family family_members.
Proof.
  induction due_items as [|due rest IH]; intros st Hin; simpl in Hin; [by left |].
  apply IH in Hin. destruct Hin as [Hin|Hin]; [| by right].
  by apply prioritize_step_members in Hin.
Qed.

Lemma fill_members (n : Z) (items : list Item) (item : Item) :
  forall selected_items seen,
    item ∈ (fill n items selected_items seen).1 ->
    item ∈ selected_items \/ item ∈ items.
Proof.
  induction items as [|it rest IH]; intros selected_items seen Hin; simpl in Hin;
    [by left |].
  destruct (decide (item_id it ∈ seen)).
  - apply IH in Hin. destruct Hin as [Hin|Hin]; [by left | right].
    by apply list_elem_of_further.
  - assert (Hsnoc : item ∈ selected_items ++ [it] ->
                    item ∈ selected_items \/ item ∈ it :: rest).
    { intros H. apply elem_of_app in H. destruct H as [H|H]; [by left | right].
      apply list_elem_of_singleton in H. subst. apply list_elem_of_here. }
    destruct (n <=? _)%Z; simpl in Hin; [by apply Hsnoc |].
    apply IH in Hin. destruct Hin as [Hin|Hin]; [by apply Hsnoc | right].
    by apply list_elem_of_further.
Qed.

(** Every selected item is an item of the filtered catalog. *)
Lemma select_items_in_catalog (family_members : list FamilyMember)
    (knowledge_items : list KnowledgeItem) (due_items : list DueEntry) (n : Z)
    (include_sensitive : bool) (item : Item) :
  item ∈ select_items family_members knowledge_items due_items n include_sensitive ->
  item ∈ catalog include_sensitive family_members knowledge_items.
Proof.
  unfold select_items, catalog. intros Hin.
  apply fill_members in Hin. destruct Hin as [Hin|Hin]; [| exact Hin].
  apply prioritize_members in Hin. destruct Hin as [Hin|Hin]; [| exact Hin].
  by apply elem_of_nil in Hin.
Qed.

Lemma catalog_knowledge (include_sensitive : bool) (family_members : list FamilyMember)
    (knowledge_items : list KnowledgeItem) (k : KnowledgeItem) :
  Knowledge k ∈ catalog include_sensitive family_members knowledge_items ->
  k ∈ knowledge_items /\
  (include_sensitive = false -> ki_sensitivity_level k < 2).
Proof.
  unfold catalog, sensitive_filter. intros Hin.
  apply elem_of_app in Hin. destruct Hin as [Hin|Hin];
    apply list_elem_of_fmap in Hin; destruct Hin as (x & E & Hx); [| discriminate].
  injection E as ->. apply list_elem_of_In, filter_In in Hx. destruct Hx as [Hx Hs].
  split; [by apply list_elem_of_In |].
  intros ->. simpl in Hs. by apply Z.ltb_lt.
Qed.

Lemma catalog_family (include_sensitive : bool) (family_members : list FamilyMember)
    (knowledge_items : list KnowledgeItem) (f : FamilyMember) :
  Family f ∈ catalog include_sensitive family_members knowledge_items <->
  f ∈ family_members.
Proof.
  unfold catalog. rewrite elem_of_app, !list_elem_of_fmap. split.
  - intros [(x & E & _)|(x & E & Hx)]; [discriminate |]. by injection E as ->.
  - intros Hf. right. by exists f.
Qed.

Lemma ki_id_inj (knowledge_items : list KnowledgeItem) :
  NoDup (map ki_id knowledge_items) ->
  forall k k', k ∈ knowledge_items -> k' ∈ knowledge_items ->
    ki_id k = ki_id k' -> k = k'.
Proof.
  induction knowledge_items as [|r rest IH]; intros Hnd k k' Hk Hk' E;
    [by apply elem_of_nil in Hk |].
  simpl in Hnd. apply NoDup_cons in Hnd. destruct Hnd as [Hr Hnd].
  apply elem_of_cons in Hk. apply elem_of_cons in Hk'.
  destruct Hk as [->|Hk], Hk' as [->|Hk']; [reflexivity | | | by apply IH].
  - exfalso. apply Hr. rewrite E. apply list_elem_of_fmap. by exists k'.
  - exfalso. apply Hr. rewrite <- E. apply list_elem_of_fmap. by exists k.
Qed.

(** C7 (as amended): with includeSensitive = false every selected
    knowledge item has sensitivity level below 2 - items of level 2 or more
    are left out of the catalog fill and the due entries pointing at them
    are skipped - so, ids of knowledge items being unique, no question the
    assembler returns when it falls back refers to a knowledge item of
    level 2 or more; family members are in the catalog whatever the flag.
    (The list a configured generator sends is returned unchecked.) *)
Theorem fallback_avoids_sensitive (w : World) (client : option Completion)
    (patient : Patient) (family_members : list FamilyMember)
    (knowledge_items : list KnowledgeItem) (due_items : list DueEntry) (n : Z) :
  NoDup (map ki_id knowledge_items) ->
  falls_back client false family_members knowledge_items due_items = true ->
  (exists qs w',
     generate_quiz_questions client patient family_members knowledge_items due_items
       n false w = (Return (Py.JArr qs), w') /\
     forall q k, q ∈ qs -> k ∈ knowledge_items -> refers_to_knowledge q k ->
       ki_sensitivity_level k < 2) /\
  (forall item,
     item ∈ select_items family_members knowledge_items due_items n false ->
     match item with
     | Knowledge k => k ∈ knowledge_items /\ ki_sensitivity_level k < 2
     | Family f => f ∈ family_members
     end) /\
  (forall include_sensitive f,
     f ∈ family_members ->
     Family f ∈ catalog include_sensitive family_members knowledge_items).
Proof.
  intros Hnd Hfb.
  assert (Hsel : forall item,
            item ∈ select_items family_members knowledge_items due_items n false ->
            match item with
            | Knowledge k => k ∈ knowledge_items /\ ki_sensitivity_level k < 2
            | Family f => f ∈ family_members
            end).
  { intros item Hin. apply select_items_in_catalog in Hin. destruct item as [k|f].
    - apply catalog_knowledge in Hin. destruct Hin as [Hk Hs]. split; [exact Hk | by apply Hs].
    - by apply catalog_family in Hin. }
  split; [| split; [exact Hsel |]].
  - rewrite (generate_falls_back w client patient _ _ _ n _ Hfb).
    eexists _, _. split; [reflexivity |].
    intros q k Hq Hk [Hty Hid].
    apply drafts_elem in Hq. destruct Hq as (id & item & Hitem & ->).
    unfold fallback_items, items_pool in Hitem.
    apply slice_to_elem in Hitem. rewrite app_nil_r in Hitem.
    apply slice_to_elem, Hsel in Hitem.
    destruct item as [k0|f]; [| discriminate].
    destruct Hitem as [Hk0 Hs]. injection Hid as Hid.
    by rewrite (ki_id_inj knowledge_items Hnd k k0 Hk Hk0 (eq_sym Hid)).
  - intros include_sensitive f Hf. by apply catalog_family.
Qed.

(** The favourite colour, the diagnosis (level 3) and Anna, with the
    diagnosis and Anna due: the fallback asks about the colour and Anna
    only. *)
Lemma fallback_avoids_sensitive_witness :
  exists qs w',
    generate_quiz_questions None Fixture.bob [Fixture.anna]
      [Fixture.color_item; Fixture.diagnosis_item]
      [DueKnowledge "k3" 3; DueFamily "f1"] 7 false
      (Fixture.world_of Fixture.no_rows) = (Return (Py.JArr qs), w') /\
    (forall q, q ∈ qs -> ~ refers_to_knowledge q Fixture.diagnosis_item) /\
    map (Py.get "item_id") qs = [Some (Py.JStr "f1"); Some (Py.JStr "k1")].
Proof.
  destruct (fallback_avoids_sensitive (Fixture.world_of Fixture.no_rows) None
              Fixture.bob [Fixture.anna] [Fixture.color_item; Fixture.diagnosis_item]
              [DueKnowledge "k3" 3; DueFamily "f1"] 7)
    as ((qs & w' & E & Hqs) & _ & _).
  - apply (bool_decide_unpack _). vm_compute. exact I.
  - reflexivity.
  - exists qs, w'. split; [exact E |]. split.
    + intros q Hq Href.
      assert (Hk : Fixture.diagnosis_item
                     ∈ [Fixture.color_item; Fixture.diagnosis_item])
        by (apply list_elem_of_further, list_elem_of_here).
      specialize (Hqs q Fixture.diagnosis_item Hq Hk Href). simpl in Hqs. lia.
    + vm_compute in E. injection E as <- _. reflexivity.
Defined.

(** C7, the statement as given fails: with includeSensitive = false and
    the diagnosis (level 3) due, a configured generator - it is sent the
    due entry with the id - answers with a question on that item, and the
    question is returned. *)
Lemma generator_question_on_sensitive_item :
  let q := Fixture.generated_question "knowledge" "k3" in
  generate_quiz_questions
    (Some (ContentJson (Py.JObj [("questions", Py.JArr [q])])))
    Fixture.bob [] [Fixture.diagnosis_item] [DueKnowledge "k3" 3] 7 false
    (Fixture.world_of Fixture.no_rows)
  = (Return (Py.JArr [q]), Fixture.world_of Fixture.no_rows) /\
  refers_to_knowledge q Fixture.diagnosis_item /\
  2 <= ki_sensitivity_level Fixture.diagnosis_item.
Proof. split; [reflexivity |]. split; [split; reflexivity | simpl; lia]. Qed.

(** *** The fallback question *)

(** What the fallback asks about an item: a multiple-choice question on
    the label (a knowledge item) or the name (a family member), with the
    value or the name and "Not sure" as options, the value or the name as
    the correct answer, difficulty 1 and no alternates. *)
Lemma fallback_question_shape (id : string) (item : Item) :
  let q := fallback_question id item in
  let answer := Py.of_opt_str (Py.or_ (get_value item) (get_full_name item)) in
  Py.get "question_type" q = Some (Py.JStr "mcq") /\
  Py.get "prompt" q
    = Some (Py.JStr ("Who/What is "
                     +:+ format_opt (Py.or_ (get_label item) (get_full_name item))
                     +:+ "?")) /\
  Py.get "options" q = Some (Py.JArr [answer; Py.JStr "Not sure"]) /\
  Py.get "correct_answer" q = Some answer /\
  Py.get "item_id" q = Some (Py.JStr (item_id item)) /\
  Py.get "difficulty" q = Some (Py.JInt 1) /\
  Py.get "acceptable_answers" q = Some (Py.JArr []).
Proof. repeat split; reflexivity. Qed.

Lemma fallback_answer_knowledge (k : KnowledgeItem) :
  ki_value k <> "" ->
  Py.of_opt_str (Py.or_ (get_value (Knowledge k)) (get_full_name (Knowledge k)))
    = Py.JStr (ki_value k).
Proof.
  intros Hv. unfold Py.or_, Py.truthy. simpl.
  destruct (String.eqb_spec (ki_value k) ""); [contradiction | reflexivity].
Qed.

Lemma fallback_answer_family (f : FamilyMember) :
  Py.of_opt_str (Py.or_ (get_value (Family f)) (get_full_name (Family f)))
    = Py.JStr (fm_full_name f).
Proof. reflexivity. Qed.

End Assembler.

(* ===================================================================== *)
(** * Part III: further properties of the code *)
(* ===================================================================== *)

(** ** Stripping and lowering *)
Section Strings.
Import Terms.












End Strings.

(** ** More on [evaluate_answer] *)
Section EvaluatorMore.
Import Db Quiz Spec Terms.

(** A question of type "mcq" with alternates: only the canonical answer
    counts. *)
Lemma evaluate_answer_other_witness :
  evaluate_answer "mcq" (Py.Str "Lyon") (Py.Str " lyon") (Some ["Paris"]) = true <->
  normalize (Py.str (Py.Str " lyon")) = normalize (Py.str (Py.Str "Lyon")).
Proof.
  apply (evaluate_answer_other "mcq" (Py.Str "Lyon") (Py.Str " lyon") (Some ["Paris"])).
  discriminate.
Defined.



(** X3: a "recall" question accepts whatever the same question of another
    type accepts. *)
Theorem recall_accepts_more (question_type : string)
    (correct_answer user_answer : Py.Val) (acceptable_answers : option (list string)) :
  evaluate_answer question_type correct_answer user_answer acceptable_answers = true ->
  evaluate_answer "recall" correct_answer user_answer acceptable_answers = true.
Proof.
  unfold evaluate_answer.
  destruct (String.eqb question_type "recall"); [by intros |].
  intros E. apply String.eqb_eq in E. simpl String.eqb. cbv iota.
  rewrite E, String.eqb_refl. reflexivity.
Qed.

Lemma recall_accepts_more_witness :
  evaluate_answer "recall" (Py.Str "Lyon") (Py.Str "lyon ") None = true.
Proof. apply (recall_accepts_more "mcq"). reflexivity. Defined.

End EvaluatorMore.

(** ** The mastery store: [update_mastery] and [_get_mastery_row] *)
Section MasteryStore.
Import Db Quiz Spec Terms.

(** The rows [update_mastery] leaves in the table. *)
Lemma update_mastery_eq (u : MasteryUpdate) (w : World) :
  exists w',
    update_mastery u w = (Return tt, w') /\
    kept (engine w) (engine w') /\
    quiz_responses (engine w') = quiz_responses (engine w) /\
    mastery (engine w')
      = match prior w (u_patient_id u) (u_item_type u) (u_item_id u) with
        | Some row =>
            map (fun r => if decide (m_id r = m_id row)
                          then mastery_values (m_id r) u else r)
              (mastery (engine w))
        | None => mastery (engine w) ++ [mastery_values (uuids w (draws w)) u]
        end.
Proof.
  unfold update_mastery, bind, _get_mastery_row, read, utcnow, _uuid, write, prior.
  simpl.
  destruct (head _) as [row|]; simpl; eexists; (split; [reflexivity |]);
    unfold kept; simpl; repeat split; reflexivity.
Qed.

Lemma mastery_values_key (id : string) (u : MasteryUpdate) :
  mastery_key (u_patient_id u) (u_item_type u) (u_item_id u) (mastery_values id u).
Proof. by repeat split. Qed.

(** Overwriting the rows that carry the id of the first row of a key
    leaves a row with the new values first for that key. *)
Lemma head_filter_overwrite (u : MasteryUpdate) (i : string) (rows : list Mastery) :
  forall row,
    head (filter (mastery_key (u_patient_id u) (u_item_type u) (u_item_id u)) rows)
      = Some row ->
    m_id row = i ->
    head (filter (mastery_key (u_patient_id u) (u_item_type u) (u_item_id u))
            (map (fun r => if decide (m_id r = i) then mastery_values (m_id r) u else r)
               rows))
      = Some (mastery_values i u).
Proof.
  induction rows as [|r rest IH]; intros row Hhead Hid; [discriminate |].
  simpl map. rewrite filter_cons in Hhead. rewrite filter_cons.
  destruct (decide (m_id r = i)) as [E|NE].
  - rewrite decide_True by apply mastery_values_key. simpl. by rewrite E.
  - destruct (decide (mastery_key _ _ _ r)) as [Hk|Hk].
    + simpl in Hhead. injection Hhead as ->. contradiction.
    + by apply (IH row).
Qed.

Lemma prior_after_update (u : MasteryUpdate) (w : World) :
  exists w',
    update_mastery u w = (Return tt, w') /\
    kept (engine w) (engine w') /\
    prior w' (u_patient_id u) (u_item_type u) (u_item_id u)
      = Some (mastery_values
                (match prior w (u_patient_id u) (u_item_type u) (u_item_id u) with
                 | Some row => m_id row
                 | None => uuids w (draws w)
                 end) u).
Proof.
  destruct (update_mastery_eq u w) as (w' & E & Hk & _ & Hm).
  exists w'. split; [exact E |]. split; [exact Hk |]. unfold prior in *. rewrite Hm.
  destruct (head (filter _ (mastery (engine w)))) as [row|] eqn:Eh.
  - by apply (head_filter_overwrite u (m_id row) _ row).
  - rewrite filter_app. apply head_None in Eh. rewrite Eh. simpl.
    rewrite filter_cons, decide_True by apply mastery_values_key. reflexivity.
Qed.

(** X4: round trip: after the upsert of [u], looking its key up gives a row
    with the values of [u], under the id of the row that was there or,
    when there was none, under the identifier just drawn. *)
Theorem update_then_get (u : MasteryUpdate) (w : World) :
  exists w',
    update_mastery u w = (Return tt, w') /\
    prior w' (u_patient_id u) (u_item_type u) (u_item_id u)
      = Some (mastery_values
                (match prior w (u_patient_id u) (u_item_type u) (u_item_id u) with
                 | Some row => m_id row
                 | None => uuids w (draws w)
                 end) u).
Proof.
  destruct (prior_after_update u w) as (w' & E & _ & Hp). by exists w'.
Qed.

Lemma NoDup_map_inj {A B} (f : A -> B) (l : list A) :
  NoDup (map f l) -> forall x y, x ∈ l -> y ∈ l -> f x = f y -> x = y.
Proof.
  induction l as [|a l IH]; intros Hnd x y Hx Hy E; [by apply elem_of_nil in Hx |].
  simpl in Hnd. apply NoDup_cons in Hnd. destruct Hnd as [Ha Hnd].
  apply elem_of_cons in Hx. apply elem_of_cons in Hy.
  destruct Hx as [->|Hx], Hy as [->|Hy]; [reflexivity | | | by apply IH].
  - exfalso. apply Ha. rewrite E. apply list_elem_of_fmap. by exists y.
  - exfalso. apply Ha. rewrite <- E. apply list_elem_of_fmap. by exists x.
Qed.

Lemma head_filter_Some {A} (P : A -> Prop) `{!forall x, Decision (P x)}
    (l : list A) (x : A) :
  head (filter P l) = Some x -> P x /\ x ∈ l.
Proof.
  intros Hhead. assert (Hin : x ∈ filter P l).
  { destruct (filter P l) as [|y k]; [discriminate |].
    injection Hhead as ->. apply list_elem_of_here. }
  apply list_elem_of_filter in Hin. exact Hin.
Qed.

Lemma filter_map_frame {A} (P : A -> Prop) `{!forall x, Decision (P x)}
    (f : A -> A) (l : list A) :
  (forall r, r ∈ l -> f r = r \/ (~ P r /\ ~ P (f r))) ->
  filter P (map f l) = filter P l.
Proof.
  induction l as [|a l IH]; intros Hf; [reflexivity |].
  simpl map. rewrite !filter_cons.
  rewrite IH by (intros r Hr; apply Hf; by apply list_elem_of_further).
  destruct (Hf a (list_elem_of_here _ _)) as [->|[Hn Hn']]; [reflexivity |].
  by rewrite !decide_False.
Qed.

(** With unique row ids the upsert rewrites the row of the key only: each
    row stays as it is, or is the row found for the key and keeps its
    key. *)
Lemma overwrite_cases (u : MasteryUpdate) (rows : list Mastery) (row : Mastery) :
  NoDup (map m_id rows) ->
  head (filter (mastery_key (u_patient_id u) (u_item_type u) (u_item_id u)) rows)
    = Some row ->
  forall r, r ∈ rows ->
    (if decide (m_id r = m_id row) then mastery_values (m_id r) u else r) = r \/
    (r = row /\
     mastery_key (u_patient_id u) (u_item_type u) (u_item_id u) r /\
     (if decide (m_id r = m_id row) then mastery_values (m_id r) u else r)
       = mastery_values (m_id row) u).
Proof.
  intros Hnd Hhead r Hr. apply head_filter_Some in Hhead. destruct Hhead as [Hk Hin].
  destruct (decide (m_id r = m_id row)) as [E|NE]; [right | by left].
  assert (r = row) as -> by (by apply (NoDup_map_inj m_id rows Hnd)).
  split; [reflexivity |]. split; [exact Hk | reflexivity].
Qed.

(** X5: the upsert of one key leaves what is stored under every other key as
    it was, when the row ids are unique. *)
Theorem update_keeps_other_keys (u : MasteryUpdate) (w : World)
    (patient_id item_type item_id : string) :
  NoDup (map m_id (mastery (engine w))) ->
  (patient_id, item_type, item_id) <> (u_patient_id u, u_item_type u, u_item_id u) ->
  exists w',
    update_mastery u w = (Return tt, w') /\
    prior w' patient_id item_type item_id = prior w patient_id item_type item_id.
Proof.
  intros Hnd Hne.
  destruct (update_mastery_eq u w) as (w' & E & _ & _ & Hm).
  exists w'. split; [exact E |]. unfold prior in *. rewrite Hm.
  assert (Hother : forall r,
            mastery_key (u_patient_id u) (u_item_type u) (u_item_id u) r ->
            ~ mastery_key patient_id item_type item_id r).
  { intros r (H1 & H2 & H3) (H1' & H2' & H3'). apply Hne. congruence. }
  destruct (head (filter _ (mastery (engine w)))) as [row|] eqn:Eh.
  - rewrite filter_map_frame; [reflexivity |].
    intros r Hr. destruct (overwrite_cases u _ row Hnd Eh r Hr) as [Hsame|(-> & Hk & Hnew)];
      [by left | right].
    split; [by apply Hother |]. rewrite Hnew. apply Hother, mastery_values_key.
  - rewrite filter_app, filter_cons, decide_False, filter_nil, app_nil_r;
      [reflexivity |]. apply Hother, mastery_values_key.
Qed.

Lemma update_keeps_other_keys_witness :
  exists w',
    update_mastery
      {| u_patient_id := "p1"; u_item_type := "knowledge"; u_item_id := "k1";
         u_mastery_score := 1; u_consecutive_correct := 3;
         u_consecutive_incorrect := 0; u_last_seen_at := 1700000000000000;
         u_next_due_at := 1700000000000000 + 14 * 86400000000 |}
      (Fixture.world_of Fixture.reviewed_engine) = (Return tt, w') /\
    prior w' "p1" "family" "f1"
      = prior (Fixture.world_of Fixture.reviewed_engine) "p1" "family" "f1".
Proof.
  apply (update_keeps_other_keys _ (Fixture.world_of Fixture.reviewed_engine)
           "p1" "family" "f1").
  - apply (bool_decide_unpack _). vm_compute. exact I.
  - discriminate.
Defined.

(** X6: the upsert keeps the table free of two rows with one key, and of two
    rows with one id when the identifier it may draw is not in use. *)
Theorem update_keeps_keys_unique (u : MasteryUpdate) (w : World) :
  NoDup (map m_id (mastery (engine w))) ->
  NoDup (map key_of (mastery (engine w))) ->
  uuids w (draws w) ∉ map m_id (mastery (engine w)) ->
  exists w',
    update_mastery u w = (Return tt, w') /\
    NoDup (map m_id (mastery (engine w'))) /\
    NoDup (map key_of (mastery (engine w'))) /\
    length (mastery (engine w'))
      = (length (mastery (engine w))
         + match prior w (u_patient_id u) (u_item_type u) (u_item_id u) with
           | Some _ => 0
           | None => 1
           end)%nat.
Proof.
  intros Hids Hkeys Hfresh.
  destruct (update_mastery_eq u w) as (w' & E & _ & _ & Hm).
  exists w'. split; [exact E |]. rewrite Hm. unfold prior.
  destruct (head (filter _ (mastery (engine w)))) as [row|] eqn:Eh.
  - assert (Hid : map m_id (map (fun r => if decide (m_id r = m_id row)
                                          then mastery_values (m_id r) u else r)
                              (mastery (engine w)))
                  = map m_id (mastery (engine w))).
    { rewrite map_map. apply map_ext. intros r. by destruct (decide _). }
    assert (Hkey : map key_of (map (fun r => if decide (m_id r = m_id row)
                                             then mastery_values (m_id r) u else r)
                                 (mastery (engine w)))
                   = map key_of (mastery (engine w))).
    { rewrite map_map. apply map_ext_in. intros r Hr.
      apply list_elem_of_In in Hr.
      destruct (overwrite_cases u _ row Hids Eh r Hr) as [->|(-> & (H1 & H2 & H3) & ->)];
        [reflexivity |].
      unfold key_of. simpl. congruence. }
    rewrite Hid, Hkey, length_map.
    split; [assumption |]. split; [assumption | lia].
  - rewrite !map_app, length_app. simpl. split; [| split; [| lia]].
    + apply NoDup_app. split; [exact Hids |]. split; [| apply NoDup_singleton].
      intros i Hi Hi'. apply list_elem_of_singleton in Hi'. by subst i.
    + apply NoDup_app. split; [exact Hkeys |]. split; [| apply NoDup_singleton].
      intros k Hk Hk'. apply list_elem_of_singleton in Hk'. subst k.
      apply list_elem_of_fmap in Hk. destruct Hk as (r & Hr & Hin).
      apply head_None in Eh.
      assert (Hmatch : r ∈ filter (mastery_key (u_patient_id u) (u_item_type u)
                                     (u_item_id u)) (mastery (engine w))).
      { apply list_elem_of_filter. split; [| exact Hin].
        unfold key_of in Hr. simpl in Hr. injection Hr as H1 H2 H3.
        by repeat split. }
      rewrite Eh in Hmatch. by apply elem_of_nil in Hmatch.
Qed.

Lemma update_keeps_keys_unique_witness :
  exists w',
    update_mastery
      {| u_patient_id := "p1"; u_item_type := "knowledge"; u_item_id := "k1";
         u_mastery_score := 1; u_consecutive_correct := 3;
         u_consecutive_incorrect := 0; u_last_seen_at := 1700000000000000;
         u_next_due_at := 1700000000000000 + 14 * 86400000000 |}
      (Fixture.world_of Fixture.reviewed_engine) = (Return tt, w') /\
    NoDup (map key_of (mastery (engine w'))) /\
    length (mastery (engine w')) = 2%nat.
Proof.
  destruct (update_keeps_keys_unique
              {| u_patient_id := "p1"; u_item_type := "knowledge"; u_item_id := "k1";
                 u_mastery_score := 1; u_consecutive_correct := 3;
                 u_consecutive_incorrect := 0; u_last_seen_at := 1700000000000000;
                 u_next_due_at := 1700000000000000 + 14 * 86400000000 |}
              (Fixture.world_of Fixture.reviewed_engine))
    as (w' & E & _ & Hk & Hlen).
  - apply (bool_decide_unpack _). vm_compute. exact I.
  - apply (bool_decide_unpack _). vm_compute. exact I.
  - apply (bool_decide_unpack _). vm_compute. exact I.
  - exists w'. split; [exact E |]. split; [exact Hk |]. exact Hlen.
Defined.

End MasteryStore.

(** ** More on the scheduler *)
Section SchedulerMore.
Import Db Quiz Spec Terms.

Lemma float_ltb_leb (x y : float) : (x <? y)%float = true -> (x <=? y)%float = true.
Proof.
  rewrite ltb_spec, leb_spec. unfold SFltb, SFleb.
  destruct (SFcompare _ _) as [[]|]; intros; by try discriminate.
Qed.

Lemma py_min_le_one (x : float) : (Py.min 1.0 x <=? 1.0)%float = true.
Proof.
  unfold Py.min. destruct (x <? 1.0)%float eqn:E; [by apply float_ltb_leb | reflexivity].
Qed.

Lemma py_max_ge_zero (x : float) : (0.0 <=? Py.max 0.0 x)%float = true.
Proof.
  unfold Py.max. destruct (0.0 <? x)%float eqn:E; [by apply float_ltb_leb | reflexivity].
Qed.

Lemma _interval_days_range (s : float) : 1 <= _interval_days s <= 14.
Proof.
  unfold _interval_days.
  destruct (0.8 <=? s)%float, (0.6 <=? s)%float, (0.4 <=? s)%float,
    (0.2 <=? s)%float; lia.
Qed.

(** The payload names its item, or the update returns nothing and leaves
    the world alone. *)
Lemma compute_mastery_update_cases (w : World) (patient_id : string)
    (payload : Payload) (correct : bool) (response_time_ms : Z) :
  (has_item_ref payload = false /\
   compute_mastery_update patient_id payload correct response_time_ms w
     = (Return None, w)) \/
  (exists item_type item_id,
     p_item_type payload = Some item_type /\ item_type <> "" /\
     p_item_id payload = Some item_id /\ item_id <> "").
Proof.
  unfold has_item_ref, compute_mastery_update.
  destruct (p_item_type payload) as [item_type|]; [| by left].
  destruct (p_item_id payload) as [item_id|];
    [| left; split; [apply andb_false_r | reflexivity]].
  destruct (String.eqb_spec item_type "") as [->|Htne]; [by left |].
  destruct (String.eqb_spec item_id "") as [->|Hine].
  - left. split; [apply andb_false_r |]. simpl. by rewrite orb_true_r.
  - right. by exists item_type, item_id.
Qed.

(** X7: whatever the stored score was - out of range or not a number - a
    correct answer leaves a score of at most 1 and an incorrect one a
    score of at least 0; and the next review is set between one and
    fourteen days after the reading of the clock. *)
Theorem update_is_clamped_and_scheduled (w : World) (patient_id : string)
    (payload : Payload) (correct : bool) (response_time_ms : Z) :
  match compute_mastery_update patient_id payload correct response_time_ms w with
  | (Return (Some u), _) =>
      (if correct then (u_mastery_score u <=? 1.0)%float = true
       else (0.0 <=? u_mastery_score u)%float = true) /\
      clock w (ticks w) + 86400000000 <= u_next_due_at u
        <= clock w (ticks w) + 14 * 86400000000
  | (Return None, _) => has_item_ref payload = false
  | (Raise _, _) => False
  end.
Proof.
  destruct (compute_mastery_update_cases w patient_id payload correct response_time_ms)
    as [[Href ->]|(item_type & item_id & Ht & Htne & Hi & Hine)]; [exact Href |].
  pose proof (compute_mastery_update_eq w patient_id payload item_type item_id
                correct response_time_ms Ht Htne Hi Hine) as E.
  destruct (baseline _) as [[s cc] ci]. rewrite E. simpl. split.
  - destruct correct; [| apply py_max_ge_zero].
    destruct (response_time_ms <? 3000)%Z; apply py_min_le_one.
  - unfold timedelta_days.
    match goal with |- context [_interval_days ?x] =>
      pose proof (_interval_days_range x) end. lia.
Qed.

(** X8: after the scheduler's record for an answered item is stored, the item
    has a mastery row that carries the new streaks and is not due at any
    time earlier than one day after the clock reading of the update. *)
Theorem rescheduled_item_is_not_due (w : World) (patient_id : string)
    (payload : Payload) (item_type item_id : string) (correct : bool)
    (response_time_ms : Z) :
  p_item_type payload = Some item_type -> item_type <> "" ->
  p_item_id payload = Some item_id -> item_id <> "" ->
  exists u w1 w2 row,
    compute_mastery_update patient_id payload correct response_time_ms w
      = (Return (Some u), w1) /\
    update_mastery u w1 = (Return tt, w2) /\
    prior w2 patient_id item_type item_id = Some row /\
    m_consecutive_correct row = u_consecutive_correct u /\
    m_consecutive_incorrect row = u_consecutive_incorrect u /\
    m_mastery_score row = u_mastery_score u /\
    forall now, now < clock w (ticks w) + 86400000000 ->
      is_due patient_id now row = false.
Proof.
  intros Ht Htne Hi Hine.
  pose proof (compute_mastery_update_eq w patient_id payload item_type item_id
                correct response_time_ms Ht Htne Hi Hine) as E.
  destruct (baseline _) as [[s cc] ci]. cbv zeta in E.
  match type of E with _ = (Return (Some ?u0), ?w0) =>
    destruct (prior_after_update u0 w0) as (w2 & E2 & _ & Hp);
    exists u0, w0, w2 end.
  eexists. split; [exact E |]. split; [exact E2 |]. split; [exact Hp |].
  simpl. repeat split; try reflexivity.
  intros now Hnow. unfold is_due. simpl. apply andb_false_iff. right.
  apply Z.leb_gt. unfold timedelta_days.
  match goal with |- context [_interval_days ?x] =>
    pose proof (_interval_days_range x) end. lia.
Qed.

Lemma rescheduled_item_is_not_due_witness :
  exists u w1 w2 row,
    compute_mastery_update "p1" Fixture.color_payload true 1000
      (Fixture.world_of Fixture.no_rows) = (Return (Some u), w1) /\
    update_mastery u w1 = (Return tt, w2) /\
    prior w2 "p1" "knowledge" "k1" = Some row /\
    m_consecutive_correct row = u_consecutive_correct u /\
    is_due "p1" (1700000000000000 + 3600000000) row = false.
Proof.
  destruct (rescheduled_item_is_not_due (Fixture.world_of Fixture.no_rows) "p1"
              Fixture.color_payload "knowledge" "k1" true 1000
              eq_refl ltac:(discriminate) eq_refl ltac:(discriminate))
    as (u & w1 & w2 & row & E1 & E2 & Hp & Hcc & _ & _ & Hdue).
  exists u, w1, w2, row. repeat split; try assumption.
  apply Hdue. simpl. lia.
Defined.

End SchedulerMore.

(** ** More on [submit_quiz] *)
Section SubmissionMore.
Import Db Quiz Main Spec Terms.

(** X9: a submission to a session that does not exist is rejected with status
    404 before anything is written. *)
Theorem submit_unknown_session (w : World) (session_id : string)
    (submissions : list QuizSubmitItem) :
  find_session w session_id = None ->
  submit_quiz session_id submissions w
    = (Raise (HTTPException 404 "Session not found"), w).
Proof.
  intros Hs. unfold find_session in Hs.
  unfold submit_quiz. unfold bind at 1. unfold get_session, read at 1.
  by rewrite Hs.
Qed.

Lemma submit_unknown_session_witness :
  submit_quiz "s404" [Fixture.answer "q1" "blue"] (Fixture.world_of Fixture.quiz_engine)
    = (Raise (HTTPException 404 "Session not found"),
       Fixture.world_of Fixture.quiz_engine).
Proof. apply submit_unknown_session. reflexivity. Defined.

(** The response rows a resolving batch adds. *)
Lemma submit_loop_rows (session_id : string) (session : QuizSession)
    (qmap : gmap string QuizQuestion) (submissions : list QuizSubmitItem) :
  forall (t : Tally) (w : World),
    Forall (resolves qmap) submissions ->
    exists w' rows,
      submit_loop session_id session qmap submissions t w
        = (Return (foldl (tally_step qmap) t submissions), w') /\
      quiz_responses (engine w') = quiz_responses (engine w) ++ rows /\
      map qr_question_id rows = map question_id submissions /\
      map qr_correct rows = map (judged qmap) submissions /\
      Forall (fun r => qr_session_id r = session_id) rows.
Proof.
  induction submissions as [|item rest IH]; intros t w Hall.
  - exists w, []. simpl. rewrite app_nil_r. by repeat split.
  - inversion Hall as [|? ? [question Hq] Hrest]; subst.
    destruct (score_item_total w session_id session qmap question item t Hq)
      as (w1 & row & E1 & _ & Hr1 & Hs1 & Hq1 & Hc1).
    destruct (IH (tally_step qmap t item) w1 Hrest)
      as (w2 & rows & E2 & Hr2 & Hq2 & Hc2 & Hs2).
    exists w2, (row :: rows). simpl. rewrite Hq. unfold bind. rewrite E1, E2.
    split; [reflexivity |]. split; [| split; [| split]].
    + rewrite Hr2, Hr1, <- app_assoc. reflexivity.
    + by rewrite Hq1, Hq2.
    + by rewrite Hc1, Hc2.
    + by constructor.
Qed.

(** X10: the response table only grows: a batch whose ids all resolve adds, at
    the end and in the order of the batch, one row per submitted item - a
    question answered twice in the batch gets two rows - with the verdict
    of the evaluator, and touches no earlier row. *)
Theorem submit_appends_responses (w : World) (session_id : string)
    (session : QuizSession) (submissions : list QuizSubmitItem) :
  find_session w session_id = Some session ->
  Forall (resolves (session_qmap w session_id)) submissions ->
  exists resp w' rows,
    submit_quiz session_id submissions w = (Return resp, w') /\
    quiz_responses (engine w') = quiz_responses (engine w) ++ rows /\
    map qr_question_id rows = map question_id submissions /\
    map qr_correct rows = map (judged (session_qmap w session_id)) submissions /\
    Forall (fun r => qr_session_id r = session_id) rows.
Proof.
  intros Hs Hall.
  rewrite (submit_quiz_unfold w session_id session submissions Hs).
  destruct (submit_loop_rows session_id session (session_qmap w session_id)
              submissions {| results := []; correct_count := 0; total_time := 0 |}
              w Hall) as (w1 & rows & E & Hr & Hq & Hc & Hsid).
  rewrite E. cbv zeta. eexists _, _, rows. split; [reflexivity |]. simpl.
  by repeat split.
Qed.

Lemma submit_appends_responses_witness :
  exists resp w' rows,
    submit_quiz "s1" [Fixture.answer "q1" "blue"; Fixture.answer "q1" "red"]
      (Fixture.world_of Fixture.quiz_engine) = (Return resp, w') /\
    quiz_responses (engine w') = rows /\
    map qr_question_id rows = ["q1"; "q1"] /\
    map qr_correct rows = [true; false].
Proof.
  destruct (submit_appends_responses (Fixture.world_of Fixture.quiz_engine) "s1"
              Fixture.session_s1
              [Fixture.answer "q1" "blue"; Fixture.answer "q1" "red"])
    as (resp & w' & rows & E & Hr & Hq & Hc & _).
  - reflexivity.
  - repeat constructor; eexists; vm_compute; reflexivity.
  - exists resp, w', rows. split; [exact E |]. split; [exact Hr |].
    split; [exact Hq |]. rewrite Hc. vm_compute. reflexivity.
Defined.

Lemma tally_results (qmap : gmap string QuizQuestion)
    (submissions : list QuizSubmitItem) :
  forall t : Tally,
    results (foldl (tally_step qmap) t submissions)
      = results t ++ map (fun item => (question_id item, judged qmap item)) submissions.
Proof.
  induction submissions as [|item rest IH]; intros t; simpl;
    [by rewrite app_nil_r |].
  rewrite IH. simpl. by rewrite <- app_assoc.
Qed.

Lemma weak_of_results (qmap : gmap string QuizQuestion)
    (submissions : list QuizSubmitItem) :
  map fst (List.filter (fun r : string * bool => negb (snd r))
             (map (fun item => (question_id item, judged qmap item)) submissions))
  = map question_id (List.filter (fun item => negb (judged qmap item)) submissions).
Proof.
  induction submissions as [|item rest IH]; simpl; [reflexivity |].
  destruct (judged qmap item); simpl; by rewrite IH.
Qed.

Lemma filter_split_length {A} (f : A -> bool) (l : list A) :
  (length (List.filter f l) + length (List.filter (fun x => negb (f x)) l))%nat
  = length l.
Proof.
  induction l as [|a l IH]; simpl; [reflexivity |].
  destruct (f a); simpl; lia.
Qed.

(** X11: the report of a completed submission: the number of submitted items,
    the number judged correct, and as weak items the question ids of the
    items judged incorrect, in the order of the batch; the two numbers
    differ by the number of weak items. *)
Theorem submit_report (w : World) (session_id : string) (session : QuizSession)
    (submissions : list QuizSubmitItem) :
  find_session w session_id = Some session ->
  Forall (resolves (session_qmap w session_id)) submissions ->
  exists resp w',
    submit_quiz session_id submissions w = (Return resp, w') /\
    Main.session_id resp = session_id /\
    total_questions resp = Z.of_nat (length submissions) /\
    correct resp = count_correct (session_qmap w session_id) submissions /\
    weak_items resp
      = map question_id
          (List.filter (fun item => negb (judged (session_qmap w session_id) item))
             submissions) /\
    correct resp + Z.of_nat (length (weak_items resp)) = total_questions resp.
Proof.
  intros Hs Hall.
  rewrite (submit_quiz_unfold w session_id session submissions Hs).
  destruct (submit_loop_resolved session_id session (session_qmap w session_id)
              submissions {| results := []; correct_count := 0; total_time := 0 |}
              w Hall) as (w1 & E & _ & _).
  rewrite E. cbv zeta. eexists _, _. split; [reflexivity |].
  cbn [Main.session_id total_questions correct weak_items].
  rewrite tally_correct_count, tally_results.
  cbn [results correct_count app]. rewrite weak_of_results.
  repeat split.
  unfold count_correct. rewrite length_map.
  rewrite <- (filter_split_length (judged (session_qmap w session_id)) submissions).
  lia.
Qed.

Lemma submit_report_witness :
  exists resp w',
    submit_quiz "s1" [Fixture.answer "q1" "blue"; Fixture.answer "q2" "Paris"]
      (Fixture.world_of Fixture.quiz_engine) = (Return resp, w') /\
    correct resp = 1 /\ weak_items resp = ["q2"].
Proof.
  destruct (submit_report (Fixture.world_of Fixture.quiz_engine) "s1"
              Fixture.session_s1
              [Fixture.answer "q1" "blue"; Fixture.answer "q2" "Paris"])
    as (resp & w' & E & _ & _ & Hc & Hw & _).
  - reflexivity.
  - repeat constructor; eexists; vm_compute; reflexivity.
  - exists resp, w'. split; [exact E |]. rewrite Hc, Hw.
    split; vm_compute; reflexivity.
Defined.

Lemma compute_streak (w w' : World) (patient_id : string) (payload : Payload)
    (correct : bool) (response_time_ms : Z) (u : MasteryUpdate) :
  compute_mastery_update patient_id payload correct response_time_ms w
    = (Return (Some u), w') ->
  u_consecutive_correct u = 0 \/ u_consecutive_incorrect u = 0.
Proof.
  destruct (compute_mastery_update_cases w patient_id payload correct response_time_ms)
    as [[_ ->]|(item_type & item_id & Ht & Htne & Hi & Hine)]; [discriminate |].
  pose proof (compute_mastery_update_eq w patient_id payload item_type item_id
                correct response_time_ms Ht Htne Hi Hine) as E.
  destruct (baseline _) as [[s cc] ci]. rewrite E. intros [= <- _].
  simpl. destruct correct; [by right | by left].
Qed.

Lemma update_streaks (u : MasteryUpdate) (w : World) :
  Forall streak_ok (mastery (engine w)) ->
  u_consecutive_correct u = 0 \/ u_consecutive_incorrect u = 0 ->
  Forall streak_ok (mastery (engine (update_mastery u w).2)).
Proof.
  intros Hrows Hu.
  destruct (update_mastery_eq u w) as (w' & E & _ & _ & Hm).
  rewrite E. simpl. rewrite Hm.
  destruct (prior w _ _ _) as [row|].
  - apply Forall_forall. intros r Hr. apply list_elem_of_fmap in Hr.
    destruct Hr as (r0 & -> & Hr0). destruct (decide _); [exact Hu |].
    by apply (proj1 (Forall_forall _ _) Hrows).
  - apply Forall_app. split; [exact Hrows |]. by constructor.
Qed.

Lemma score_item_streaks (w : World) (session_id : string) (session : QuizSession)
    (question : QuizQuestion) (item : QuizSubmitItem) (t : Tally) :
  Forall streak_ok (mastery (engine w)) ->
  Forall streak_ok
    (mastery (engine (score_item session_id session question item t w).2)).
Proof.
  intros Hrows. unfold score_item.
  unfold bind at 1. unfold add_response, bind, _uuid, utcnow, write. simpl.
  match goal with
  | |- context [compute_mastery_update ?p ?pl ?c ?r ?w1] =>
      destruct (compute_mastery_update_total w1 p pl c r) as (o & w2 & E & He);
      pose proof (compute_streak w1 w2 p pl c r) as Hst
  end.
  rewrite E. simpl in He. destruct o as [u|].
  - specialize (Hst u E).
    assert (Hrows2 : Forall streak_ok (mastery (engine w2))) by (by rewrite He).
    pose proof (update_streaks u w2 Hrows2 Hst) as H3.
    destruct (update_mastery u w2) as [[[]|e] w3]; exact H3.
  - unfold ret. simpl. by rewrite He.
Qed.

Lemma submit_loop_streaks (session_id : string) (session : QuizSession)
    (qmap : gmap string QuizQuestion) (submissions : list QuizSubmitItem) :
  forall (t : Tally) (w : World),
    Forall streak_ok (mastery (engine w)) ->
    Forall streak_ok
      (mastery (engine (submit_loop session_id session qmap submissions t w).2)).
Proof.
  induction submissions as [|item rest IH]; intros t w Hrows; simpl; [exact Hrows |].
  destruct (qmap !! question_id item) as [question|] eqn:Hq; [| exact Hrows].
  destruct (score_item_total w session_id session qmap question item t Hq)
    as (w1 & row & E1 & _).
  pose proof (score_item_streaks w session_id session question item t Hrows) as H1.
  unfold bind. rewrite E1 in H1 |- *. by apply IH.
Qed.

(** X12: whatever a submit call does - complete, reject with 400 halfway, or
    reject with 404 - it keeps this invariant of the mastery table: every
    row has one of its two streak counters at zero. *)
Theorem submit_keeps_streaks (w : World) (session_id : string)
    (submissions : list QuizSubmitItem) :
  Forall streak_ok (mastery (engine w)) ->
  Forall streak_ok (mastery (engine (submit_quiz session_id submissions w).2)).
Proof.
  intros Hrows. destruct (find_session w session_id) as [session|] eqn:Hs.
  - rewrite (submit_quiz_unfold w session_id session submissions Hs).
    pose proof (submit_loop_streaks session_id session (session_qmap w session_id)
                  submissions {| results := []; correct_count := 0; total_time := 0 |}
                  w Hrows) as Hloop.
    destruct (submit_loop _ _ _ _ _ w) as [[t|e] w1]; exact Hloop.
  - unfold find_session in Hs. unfold submit_quiz.
    unfold bind at 1. unfold get_session, read at 1. by rewrite Hs.
Qed.

Lemma submit_keeps_streaks_witness :
  Forall streak_ok
    (mastery (engine (submit_quiz "s1"
                        [Fixture.answer "q1" "blue"; Fixture.answer "q9" "x"]
                        (Fixture.world_of Fixture.quiz_engine)).2)).
Proof. apply submit_keeps_streaks. constructor. Defined.

End SubmissionMore.

(** ** More on [due_items] *)
Section DueSetMore.
Import Db Spec Terms.

Lemma add_family_shape (rows : list FamilyMember) :
  forall (due_list : list DueEntry) (known_ids : gset string),
    exists ids,
      (add_family rows due_list known_ids).1 = due_list ++ map DueFamily ids /\
      NoDup ids /\
      (forall i, i ∈ ids -> (i ∉ known_ids) /\ i ∈ map fm_id rows) /\
      (add_family rows due_list known_ids).2 = list_to_set ids ∪ known_ids /\
      (forall r, r ∈ rows -> fm_id r ∈ (add_family rows due_list known_ids).2).
Proof.
  induction rows as [|r rest IH]; intros due_list known_ids; simpl.
  - exists []. simpl. rewrite app_nil_r. split; [reflexivity |].
    split; [apply NoDup_nil_2 |].
    split; [intros i Hi; by apply elem_of_nil in Hi |].
    split; [by rewrite union_empty_l_L |]. intros r Hr. by apply elem_of_nil in Hr.
  - destruct (decide (fm_id r ∈ known_ids)) as [Hin|Hnew].
    + destruct (IH due_list known_ids) as (ids & E1 & Hnd & Hids & E2 & Hall).
      exists ids. split; [exact E1 |]. split; [exact Hnd |]. split.
      { intros i Hi. destruct (Hids i Hi) as [H1 H2]. split; [exact H1 |].
        by apply list_elem_of_further. }
      split; [exact E2 |]. intros r0 Hr0. apply elem_of_cons in Hr0.
      destruct Hr0 as [->|Hr0]; [| by apply Hall].
      rewrite E2. apply elem_of_union. by right.
    + destruct (IH (due_list ++ [DueFamily (fm_id r)]) ({[fm_id r]} ∪ known_ids))
        as (ids & E1 & Hnd & Hids & E2 & Hall).
      exists (fm_id r :: ids). split; [by rewrite E1, <- app_assoc |].
      split.
      { apply NoDup_cons. split; [| exact Hnd]. intros Hi.
        destruct (Hids _ Hi) as [H1 _]. apply H1, elem_of_union. left.
        by apply elem_of_singleton. }
      split.
      { intros i Hi. apply elem_of_cons in Hi. destruct Hi as [->|Hi].
        - split; [exact Hnew | apply list_elem_of_here].
        - destruct (Hids i Hi) as [H1 H2]. split.
          + intros Hk. apply H1, elem_of_union. by right.
          + by apply list_elem_of_further. }
      split.
      { rewrite E2. simpl. apply set_eq. intros i.
        rewrite !elem_of_union, elem_of_singleton. tauto. }
      intros r0 Hr0. apply elem_of_cons in Hr0.
      destruct Hr0 as [->|Hr0]; [| by apply Hall].
      rewrite E2. apply elem_of_union. right. apply elem_of_union. left.
      by apply elem_of_singleton.
Qed.

Lemma add_knowledge_shape (rows : list KnowledgeItem) :
  forall (due_list : list DueEntry) (known_ids : gset string),
    exists ks,
      (add_knowledge rows due_list known_ids).1 = due_list ++ map knowledge_entry ks /\
      NoDup (map ki_id ks) /\
      (forall k, k ∈ ks -> (ki_id k ∉ known_ids) /\ k ∈ rows) /\
      (add_knowledge rows due_list known_ids).2
        = list_to_set (map ki_id ks) ∪ known_ids /\
      (forall r, r ∈ rows -> ki_id r ∈ (add_knowledge rows due_list known_ids).2).
Proof.
  induction rows as [|r rest IH]; intros due_list known_ids; simpl.
  - exists []. simpl. rewrite app_nil_r. split; [reflexivity |].
    split; [apply NoDup_nil_2 |].
    split; [intros i Hi; by apply elem_of_nil in Hi |].
    split; [by rewrite union_empty_l_L |]. intros k Hk. by apply elem_of_nil in Hk.
  - destruct (decide (ki_id r ∈ known_ids)) as [Hin|Hnew].
    + destruct (IH due_list known_ids) as (ks & E1 & Hnd & Hks & E2 & Hall).
      exists ks. split; [exact E1 |]. split; [exact Hnd |]. split.
      { intros k Hk. destruct (Hks k Hk) as [H1 H2]. split; [exact H1 |].
        by apply list_elem_of_further. }
      split; [exact E2 |]. intros r0 Hr0. apply elem_of_cons in Hr0.
      destruct Hr0 as [->|Hr0]; [| by apply Hall].
      rewrite E2. apply elem_of_union. by right.
    + destruct (IH (due_list ++ [DueKnowledge (ki_id r) (ki_sensitivity_level r)])
                  ({[ki_id r]} ∪ known_ids))
        as (ks & E1 & Hnd & Hks & E2 & Hall).
      exists (r :: ks). split; [by rewrite E1, <- app_assoc |].
      split.
      { simpl. apply NoDup_cons. split; [| exact Hnd]. intros Hi.
        apply list_elem_of_fmap in Hi. destruct Hi as (k & Ek & Hk).
        destruct (Hks _ Hk) as [H1 _]. apply H1, elem_of_union. left.
        apply elem_of_singleton. by symmetry. }
      split.
      { intros k Hk. apply elem_of_cons in Hk. destruct Hk as [->|Hk].
        - split; [exact Hnew | apply list_elem_of_here].
        - destruct (Hks k Hk) as [H1 H2]. split.
          + intros Hin. apply H1, elem_of_union. by right.
          + by apply list_elem_of_further. }
      split.
      { rewrite E2. simpl. apply set_eq. intros i.
        rewrite !elem_of_union, elem_of_singleton. tauto. }
      intros r0 Hr0. apply elem_of_cons in Hr0.
      destruct Hr0 as [->|Hr0]; [| by apply Hall].
      rewrite E2. apply elem_of_union. right. apply elem_of_union. left.
      by apply elem_of_singleton.
Qed.

(** The due list in full. *)
Lemma due_items_shape (w : World) (patient_id : string) :
  exists due_list w' ids ks,
    due_items patient_id w = (Return due_list, w') /\
    engine w' = engine w /\
    due_list = map DueMastery (due_rows w patient_id)
               ++ map DueFamily ids ++ map knowledge_entry ks /\
    NoDup (ids ++ map ki_id ks) /\
    (forall i, i ∈ ids ++ map ki_id ks ->
       i ∉ map m_item_id (due_rows w patient_id)) /\
    (forall i, i ∈ ids ->
       exists f, f ∈ family_members (engine w) /\ fm_patient_id f = patient_id /\
                 fm_id f = i) /\
    (forall k, k ∈ ks -> k ∈ knowledge_items (engine w) /\ ki_patient_id k = patient_id) /\
    (forall f, f ∈ family_members (engine w) -> fm_patient_id f = patient_id ->
       fm_id f ∈ map m_item_id (due_rows w patient_id) ++ ids) /\
    (forall k, k ∈ knowledge_items (engine w) -> ki_patient_id k = patient_id ->
       ki_id k ∈ map m_item_id (due_rows w patient_id) ++ ids ++ map ki_id ks).
Proof.
  unfold due_items, bind, utcnow, read, due_rows. simpl.
  set (rows := List.filter _ (mastery (engine w))).
  set (frows := filter _ (family_members (engine w))).
  set (krows := filter _ (knowledge_items (engine w))).
  destruct (add_family_shape frows (map DueMastery rows)
              (list_to_set (map m_item_id rows)))
    as (ids & E1 & Hnd1 & Hids & E2 & Hall1).
  destruct (add_family frows _ _) as [due1 known1]. simpl in E1, E2, Hall1.
  destruct (add_knowledge_shape krows due1 known1)
    as (ks & E3 & Hnd2 & Hks & E4 & Hall2).
  eexists _, _, ids, ks. split; [reflexivity |]. split; [reflexivity |].
  split; [by rewrite E3, E1, <- app_assoc |].
  assert (Hknown1 : forall i, i ∈ known1 <-> i ∈ ids \/ i ∈ map m_item_id rows).
  { intros i. rewrite E2, elem_of_union, !elem_of_list_to_set. tauto. }
  split; [| split; [| split; [| split; [| split]]]].
  - apply NoDup_app. split; [exact Hnd1 |]. split; [| exact Hnd2].
    intros i Hi Hi'. apply list_elem_of_fmap in Hi'. destruct Hi' as (k & -> & Hk).
    destruct (Hks k Hk) as [Hnot _]. apply Hnot, Hknown1. by left.
  - intros i Hi Hin. apply elem_of_app in Hi. destruct Hi as [Hi|Hi].
    + destruct (Hids i Hi) as [Hnot _]. apply Hnot. by apply elem_of_list_to_set.
    + apply list_elem_of_fmap in Hi. destruct Hi as (k & -> & Hk).
      destruct (Hks k Hk) as [Hnot _]. apply Hnot, Hknown1. by right.
  - intros i Hi. destruct (Hids i Hi) as [_ Hin].
    apply list_elem_of_fmap in Hin. destruct Hin as (f & -> & Hf).
    apply list_elem_of_filter in Hf. destruct Hf as [Hp Hf]. by exists f.
  - intros k Hk. destruct (Hks k Hk) as [_ Hin].
    apply list_elem_of_filter in Hin. destruct Hin as [Hp Hin]. by split.
  - intros f Hf Hp.
    assert (Hin : f ∈ frows) by (by apply list_elem_of_filter).
    apply Hall1, Hknown1 in Hin. apply elem_of_app. tauto.
  - intros k Hk Hp.
    assert (Hin : k ∈ krows) by (by apply list_elem_of_filter).
    apply Hall2 in Hin. rewrite E4 in Hin. apply elem_of_union in Hin.
    rewrite elem_of_list_to_set in Hin. rewrite !elem_of_app.
    destruct Hin as [Hin|Hin]; [tauto |]. apply Hknown1 in Hin. tauto.
Qed.

Lemma map_due_item_id_mastery (rows : list Mastery) :
  map due_item_id (map DueMastery rows) = map m_item_id rows.
Proof. rewrite map_map. reflexivity. Qed.

Lemma map_due_item_id_family (ids : list string) :
  map due_item_id (map DueFamily ids) = ids.
Proof. rewrite map_map. apply map_id. Qed.

Lemma map_due_item_id_knowledge (ks : list KnowledgeItem) :
  map due_item_id (map knowledge_entry ks) = map ki_id ks.
Proof. rewrite map_map. reflexivity. Qed.

(** X14: the due list reads the database without changing it, and lists first
    the due mastery rows of the patient in table order, then one entry
    per family member and then one per knowledge item whose id has not
    come up before. *)
Theorem due_items_order (w : World) (patient_id : string) :
  exists due_list w' ids ks,
    due_items patient_id w = (Return due_list, w') /\
    engine w' = engine w /\
    due_list = map DueMastery (due_rows w patient_id)
               ++ map DueFamily ids ++ map knowledge_entry ks /\
    (forall i, i ∈ ids ->
       exists f, f ∈ family_members (engine w) /\ fm_patient_id f = patient_id /\
                 fm_id f = i) /\
    (forall k, k ∈ ks -> k ∈ knowledge_items (engine w) /\ ki_patient_id k = patient_id).
Proof.
  destruct (due_items_shape w patient_id)
    as (due_list & w' & ids & ks & E & He & Hl & _ & _ & Hf & Hk & _).
  by exists due_list, w', ids, ks.
Qed.

(** X15: every family member and every knowledge item of the patient is in the
    due list by its id, whether it has a mastery row or not. *)
Theorem due_items_covers_catalog (w : World) (patient_id : string) :
  exists due_list w',
    due_items patient_id w = (Return due_list, w') /\
    (forall f, f ∈ family_members (engine w) -> fm_patient_id f = patient_id ->
       fm_id f ∈ map due_item_id due_list) /\
    (forall k, k ∈ knowledge_items (engine w) -> ki_patient_id k = patient_id ->
       ki_id k ∈ map due_item_id due_list).
Proof.
  destruct (due_items_shape w patient_id)
    as (due_list & w' & ids & ks & E & _ & -> & _ & _ & _ & _ & Hf & Hk).
  eexists _, w'. split; [exact E |].
  rewrite !map_app, map_due_item_id_mastery, map_due_item_id_family,
    map_due_item_id_knowledge.
  split.
  - intros f Hin Hp. specialize (Hf f Hin Hp). apply elem_of_app in Hf.
    apply elem_of_app. destruct Hf as [Hf|Hf]; [by left | right].
    apply elem_of_app. by left.
  - intros k Hin Hp. by apply Hk.
Qed.

(** X16: no id is listed twice, provided no two due mastery rows of the patient
    are about the same item id. *)
Theorem due_items_ids_distinct (w : World) (patient_id : string) :
  NoDup (map m_item_id (due_rows w patient_id)) ->
  exists due_list w',
    due_items patient_id w = (Return due_list, w') /\
    NoDup (map due_item_id due_list).
Proof.
  intros Hrows.
  destruct (due_items_shape w patient_id)
    as (due_list & w' & ids & ks & E & _ & -> & Hnd & Hnot & _).
  eexists _, w'. split; [exact E |].
  rewrite !map_app, map_due_item_id_mastery, map_due_item_id_family,
    map_due_item_id_knowledge.
  apply NoDup_app. split; [exact Hrows |]. split; [| exact Hnd].
  intros i Hi Hi'. by apply (Hnot i Hi').
Qed.

Lemma due_items_ids_distinct_witness :
  exists due_list w',
    due_items "p1" (Fixture.world_of Fixture.reviewed_engine) = (Return due_list, w') /\
    NoDup (map due_item_id due_list).
Proof.
  apply due_items_ids_distinct. apply (bool_decide_unpack _). vm_compute. exact I.
Defined.

End DueSetMore.

(** ** More on the selection of [generate_quiz_questions] *)
Section AssemblerMore.
Import Db Quiz Spec Terms.

Lemma select_items_tracked (family_members : list FamilyMember)
    (knowledge_items : list KnowledgeItem) (due_items : list DueEntry) (n : Z)
    (include_sensitive : bool) :
  NoDup (map item_id
           (select_items family_members knowledge_items due_items n include_sensitive)) /\
  (forall item,
     item ∈ catalog include_sensitive family_members knowledge_items ->
     n <= Z.of_nat (length (select_items family_members knowledge_items due_items n
                              include_sensitive)) \/
     item_id item ∈ map item_id
       (select_items family_members knowledge_items due_items n include_sensitive)).
Proof.
  unfold select_items, catalog.
  set (st := foldl _ _ due_items).
  assert (Hst : tracked (st.1, st.2)).
  { destruct st as [a b] eqn:E. simpl. rewrite <- E. unfold st.
    apply prioritize_tracked. split; [apply NoDup_nil_2 | reflexivity]. }
  set (items := map Knowledge _ ++ map Family _).
  pose proof (fill_tracked n items st.1 st.2 Hst) as [Hnd Hseen].
  split; [exact Hnd |]. intros item Hitem.
  destruct (fill_full n items st.1 st.2) as [Hlen|Hall]; [by left | right].
  specialize (Hall item Hitem). rewrite Hseen in Hall.
  by apply elem_of_list_to_set in Hall.
Qed.

Lemma slice_to_sublist {A} (l : list A) (n : Z) : Py.slice_to l n `sublist_of` l.
Proof. unfold Py.slice_to. destruct (0 <=? n)%Z; apply sublist_take. Qed.

Lemma slice_to_map {A B} (f : A -> B) (l : list A) (n : Z) :
  map f (Py.slice_to l n) = Py.slice_to (map f l) n.
Proof.
  unfold Py.slice_to. rewrite length_map.
  destruct (0 <=? n)%Z; apply (fmap_take f).
Qed.

Lemma drafts_item_ids (ids : nat -> string) (items : list Item) :
  forall k,
    map (Py.get "item_id") (drafts ids k items)
      = map (fun item => Some (Py.JStr (item_id item))) items.
Proof.
  induction items as [|item rest IH]; intros k; simpl; [reflexivity |].
  by rewrite IH.
Qed.

(** X17: no item is selected twice: the selected items have pairwise different
    ids, and so have the questions of the fallback. *)
Theorem questions_have_distinct_items (w : World) (client : option Completion)
    (patient : Patient) (family_members : list FamilyMember)
    (knowledge_items : list KnowledgeItem) (due_items : list DueEntry) (n : Z)
    (include_sensitive : bool) :
  falls_back client include_sensitive family_members knowledge_items due_items = true ->
  NoDup (map item_id
           (select_items family_members knowledge_items due_items n include_sensitive)) /\
  exists qs w',
    generate_quiz_questions client patient family_members knowledge_items due_items
      n include_sensitive w = (Return (Py.JArr qs), w') /\
    NoDup (map (Py.get "item_id") qs).
Proof.
  intros Hfb.
  destruct (select_items_tracked family_members knowledge_items due_items n
              include_sensitive) as [Hnd _].
  split; [exact Hnd |].
  rewrite (generate_falls_back w client patient _ _ _ n _ Hfb).
  eexists _, _. split; [reflexivity |].
  rewrite drafts_item_ids.
  change (map (fun item : Item => Some (Py.JStr (item_id item))))
    with (map (fun item : Item => (fun i => Some (Py.JStr i)) (item_id item))).
  rewrite <- (map_map item_id (fun i => Some (Py.JStr i))).
  apply (NoDup_fmap_2_strong (fun i => Some (Py.JStr i))).
  { intros x y _ _ E. by injection E. }
  unfold fallback_items, items_pool. rewrite app_nil_r, !slice_to_map.
  eapply sublist_NoDup; [exact Hnd |].
  etrans; apply slice_to_sublist.
Qed.

Lemma questions_have_distinct_items_witness :
  exists qs w',
    generate_quiz_questions None Fixture.bob [Fixture.anna; Fixture.anna]
      [Fixture.color_item] [DueFamily "f1"; DueFamily "f1"] 7 false
      (Fixture.world_of Fixture.no_rows) = (Return (Py.JArr qs), w') /\
    NoDup (map (Py.get "item_id") qs).
Proof.
  exact (proj2 (questions_have_distinct_items (Fixture.world_of Fixture.no_rows)
                  None Fixture.bob [Fixture.anna; Fixture.anna] [Fixture.color_item]
                  [DueFamily "f1"; DueFamily "f1"] 7 false eq_refl)).
Defined.

(** *** Due entries first *)

Lemma knowledge_lookup_key (rows : list KnowledgeItem) :
  forall (m : gmap string KnowledgeItem),
    (forall i k, m !! i = Some k -> ki_id k = i) ->
    forall i k, foldl (fun m k => <[ki_id k := k]> m) m rows !! i = Some k ->
      ki_id k = i.
Proof.
  induction rows as [|r rest IH]; intros m Hm i k Hk; simpl in Hk; [by apply Hm |].
  apply (IH (<[ki_id r := r]> m)); [| exact Hk].
  intros j k' Hj. destruct (decide (ki_id r = j)) as [<-|NE].
  - rewrite lookup_insert_eq in Hj. by injection Hj as ->.
  - rewrite lookup_insert_ne in Hj by exact NE. by apply Hm.
Qed.

Lemma knowledge_lookup_total (rows : list KnowledgeItem) (i : string) :
  forall (m : gmap string KnowledgeItem),
    i ∈ map ki_id rows \/ is_Some (m !! i) ->
    is_Some (foldl (fun m k => <[ki_id k := k]> m) m rows !! i).
Proof.
  induction rows as [|r rest IH]; intros m Hi; simpl.
  - destruct Hi as [Hi|Hi]; [by apply elem_of_nil in Hi | exact Hi].
  - apply IH. destruct (decide (ki_id r = i)) as [<-|NE].
    + right. rewrite lookup_insert_eq. by eexists.
    + rewrite lookup_insert_ne by exact NE. destruct Hi as [Hi|Hi]; [left | by right].
      simpl in Hi. apply elem_of_cons in Hi. destruct Hi as [Hi|Hi]; [congruence | exact Hi].
Qed.

Lemma family_lookup_key (rows : list FamilyMember) :
  forall (m : gmap string FamilyMember),
    (forall i f, m !! i = Some f -> fm_id f = i) ->
    forall i f, foldl (fun m f => <[fm_id f := f]> m) m rows !! i = Some f ->
      fm_id f = i.
Proof.
  induction rows as [|r rest IH]; intros m Hm i f Hf; simpl in Hf; [by apply Hm |].
  apply (IH (<[fm_id r := r]> m)); [| exact Hf].
  intros j f' Hj. destruct (decide (fm_id r = j)) as [<-|NE].
  - rewrite lookup_insert_eq in Hj. by injection Hj as ->.
  - rewrite lookup_insert_ne in Hj by exact NE. by apply Hm.
Qed.

Lemma family_lookup_total (rows : list FamilyMember) (i : string) :
  forall (m : gmap string FamilyMember),
    i ∈ map fm_id rows \/ is_Some (m !! i) ->
    is_Some (foldl (fun m f => <[fm_id f := f]> m) m rows !! i).
Proof.
  induction rows as [|r rest IH]; intros m Hi; simpl.
  - destruct Hi as [Hi|Hi]; [by apply elem_of_nil in Hi | exact Hi].
  - apply IH. destruct (decide (fm_id r = i)) as [<-|NE].
    + right. rewrite lookup_insert_eq. by eexists.
    + rewrite lookup_insert_ne by exact NE. destruct Hi as [Hi|Hi]; [left | by right].
      simpl in Hi. apply elem_of_cons in Hi. destruct Hi as [Hi|Hi]; [congruence | exact Hi].
Qed.

Lemma prioritize_step_seen_mono (knowledge_lookup : gmap string KnowledgeItem)
    (family_lookup : gmap string FamilyMember) (st : list Item * gset string)
    (due : DueEntry) :
  st.2 ⊆ (prioritize_step knowledge_lookup family_lookup st due).2.
Proof.
  destruct st as [selected_items seen]. unfold prioritize_step.
  match goal with |- context [match ?o with Some _ => _ | None => _ end] =>
    destruct o as [item|] end; [| done].
  destruct (decide (item_id item ∈ seen)); [done |]. simpl. apply union_subseteq_r.
Qed.

Lemma prioritize_seen_mono (knowledge_lookup : gmap string KnowledgeItem)
    (family_lookup : gmap string FamilyMember) (due_items : list DueEntry) :
  forall st, st.2 ⊆ (foldl (prioritize_step knowledge_lookup family_lookup) st due_items).2.
Proof.
  induction due_items as [|due rest IH]; intros st; simpl; [done |].
  etrans; [apply prioritize_step_seen_mono | apply IH].
Qed.

(** A due entry whose id the look-up of its type knows has the id seen
    after its turn. *)
Lemma prioritize_step_sees (knowledge_lookup : gmap string KnowledgeItem)
    (family_lookup : gmap string FamilyMember) (st : list Item * gset string)
    (due : DueEntry) :
  (forall i k, knowledge_lookup !! i = Some k -> ki_id k = i) ->
  (forall i f, family_lookup !! i = Some f -> fm_id f = i) ->
  (due_item_type due = "knowledge" /\ is_Some (knowledge_lookup !! due_item_id due)) \/
  (due_item_type due = "family" /\ is_Some (family_lookup !! due_item_id due)) ->
  due_item_id due ∈ (prioritize_step knowledge_lookup family_lookup st due).2.
Proof.
  intros Hkk Hfk Hres. destruct st as [selected_items seen]. unfold prioritize_step.
  destruct Hres as [[Hty [k Hk]]|[Hty [f Hf]]]; rewrite Hty; simpl String.eqb; cbv iota.
  - rewrite Hk. simpl. rewrite (Hkk _ _ Hk).
    destruct (decide (due_item_id due ∈ seen)); simpl; [done |].
    apply elem_of_union. left. by apply elem_of_singleton.
  - rewrite Hf. simpl. rewrite (Hfk _ _ Hf).
    destruct (decide (due_item_id due ∈ seen)); simpl; [done |].
    apply elem_of_union. left. by apply elem_of_singleton.
Qed.

Lemma prioritize_sees (knowledge_lookup : gmap string KnowledgeItem)
    (family_lookup : gmap string FamilyMember) (due_items : list DueEntry)
    (due : DueEntry) :
  (forall i k, knowledge_lookup !! i = Some k -> ki_id k = i) ->
  (forall i f, family_lookup !! i = Some f -> fm_id f = i) ->
  (due_item_type due = "knowledge" /\ is_Some (knowledge_lookup !! due_item_id due)) \/
  (due_item_type due = "family" /\ is_Some (family_lookup !! due_item_id due)) ->
  forall st, due ∈ due_items ->
    due_item_id due
      ∈ (foldl (prioritize_step knowledge_lookup family_lookup) st due_items).2.
Proof.
  intros Hkk Hfk Hres.
  induction due_items as [|d rest IH]; intros st Hin; [by apply elem_of_nil in Hin |].
  simpl. apply elem_of_cons in Hin. destruct Hin as [<-|Hin]; [| by apply IH].
  apply (prioritize_seen_mono knowledge_lookup family_lookup rest).
  by apply prioritize_step_sees.
Qed.

Lemma fill_prefix (n : Z) (items : list Item) :
  forall selected_items seen,
    exists extra, (fill n items selected_items seen).1 = selected_items ++ extra.
Proof.
  induction items as [|item rest IH]; intros selected_items seen; simpl.
  - exists []. by rewrite app_nil_r.
  - destruct (decide (item_id item ∈ seen)); [apply IH |].
    destruct (n <=? _)%Z; simpl; [by exists [item] |].
    destruct (IH (selected_items ++ [item]) ({[item_id item]} ∪ seen)) as [extra E].
    exists (item :: extra). by rewrite E, <- app_assoc.
Qed.

(** X18: due entries have priority: the items they resolve to, in the order
    of the due list, are the head of the selection, before any item of
    the catalog fill; and each due entry whose id is the id of a family
    member, or of a knowledge item that passes the sensitivity filter,
    has an item of that id among them. *)
Theorem due_entries_are_selected_first (family_members : list FamilyMember)
    (knowledge_items : list KnowledgeItem) (due_items : list DueEntry) (n : Z)
    (include_sensitive : bool) :
  (exists extra,
     select_items family_members knowledge_items due_items n include_sensitive
       = prioritized family_members knowledge_items due_items include_sensitive
         ++ extra) /\
  (forall due k,
     due ∈ due_items -> k ∈ sensitive_filter include_sensitive knowledge_items ->
     due_item_type due = "knowledge" -> due_item_id due = ki_id k ->
     ki_id k ∈ map item_id
       (prioritized family_members knowledge_items due_items include_sensitive)) /\
  (forall due f,
     due ∈ due_items -> f ∈ family_members ->
     due_item_type due = "family" -> due_item_id due = fm_id f ->
     fm_id f ∈ map item_id
       (prioritized family_members knowledge_items due_items include_sensitive)).
Proof.
  unfold select_items, prioritized.
  set (kl := knowledge_lookup_of _). set (fl := family_lookup_of _).
  assert (Hkk : forall i k, kl !! i = Some k -> ki_id k = i).
  { apply knowledge_lookup_key. intros i k Hk. by rewrite lookup_empty in Hk. }
  assert (Hfk : forall i f, fl !! i = Some f -> fm_id f = i).
  { apply family_lookup_key. intros i f Hf. by rewrite lookup_empty in Hf. }
  assert (Htr : tracked (foldl (prioritize_step kl fl) ([], ∅) due_items)).
  { apply prioritize_tracked. split; [apply NoDup_nil_2 | reflexivity]. }
  destruct Htr as [_ Hseen].
  split; [apply fill_prefix |]. split.
  - intros due k Hdue Hk Hty Hid. rewrite <- Hid.
    apply (proj1 (elem_of_list_to_set (C := gset string) _ _)). rewrite <- Hseen.
    apply prioritize_sees; try assumption. left. split; [exact Hty |].
    apply knowledge_lookup_total. left. rewrite Hid.
    apply list_elem_of_fmap. by exists k.
  - intros due f Hdue Hf Hty Hid. rewrite <- Hid.
    apply (proj1 (elem_of_list_to_set (C := gset string) _ _)). rewrite <- Hseen.
    apply prioritize_sees; try assumption. right. split; [exact Hty |].
    apply family_lookup_total. left. rewrite Hid.
    apply list_elem_of_fmap. by exists f.
Qed.

Lemma due_entries_are_selected_first_witness :
  "k1" ∈ map item_id
           (prioritized [Fixture.anna] [Fixture.color_item]
              [DueKnowledge "k1" 0] false).
Proof.
  apply (proj1 (proj2 (due_entries_are_selected_first [Fixture.anna]
                         [Fixture.color_item] [DueKnowledge "k1" 0] 7 false))
           (DueKnowledge "k1" 0) Fixture.color_item).
  - apply list_elem_of_here.
  - apply list_elem_of_here.
  - reflexivity.
  - reflexivity.
Defined.

(** *** Small catalogs and small counts *)

(** X19: when the filtered catalog has no more than [n] different ids, nothing
    is cut: the pool holds one item for each of these ids and no other. *)
Theorem small_catalog_is_covered (family_members : list FamilyMember)
    (knowledge_items : list KnowledgeItem) (due_items : list DueEntry) (n : Z)
    (include_sensitive : bool) :
  Z.of_nat (distinct_ids (catalog include_sensitive family_members knowledge_items))
    <= n ->
  length (items_pool family_members knowledge_items due_items n include_sensitive)
    = distinct_ids (catalog include_sensitive family_members knowledge_items) /\
  forall item,
    item ∈ catalog include_sensitive family_members knowledge_items ->
    item_id item
      ∈ map item_id
          (items_pool family_members knowledge_items due_items n include_sensitive).
Proof.
  intros Hn.
  set (cat := catalog include_sensitive family_members knowledge_items) in *.
  set (sel := select_items family_members knowledge_items due_items n include_sensitive).
  destruct (select_items_tracked family_members knowledge_items due_items n
              include_sensitive) as [Hnd Hfull]. fold sel cat in Hnd, Hfull.
  assert (Hsub : (list_to_set (map item_id sel) : gset string)
                 ⊆ list_to_set (map item_id cat)).
  { intros i Hi. apply elem_of_list_to_set in Hi. apply elem_of_list_to_set.
    apply list_elem_of_fmap in Hi. destruct Hi as (item & -> & Hitem).
    apply list_elem_of_fmap. exists item. split; [reflexivity |].
    by apply select_items_in_catalog in Hitem. }
  assert (Hlen : length sel = size (list_to_set (map item_id sel) : gset string)).
  { rewrite size_list_to_set by exact Hnd. by rewrite length_map. }
  pose proof (subseteq_size _ _ Hsub) as Hsize. fold (distinct_ids cat) in Hsize.
  assert (Hn0 : 0 <= n) by lia.
  assert (Hpool : items_pool family_members knowledge_items due_items n
                    include_sensitive = sel).
  { unfold items_pool. fold sel. rewrite slice_to_nonneg by exact Hn0.
    apply take_ge. lia. }
  rewrite Hpool.
  assert (Hall : forall item, item ∈ cat -> item_id item ∈ map item_id sel).
  { intros item Hitem. destruct (Hfull item Hitem) as [Hbig|Hin]; [| exact Hin].
    assert (Heq : (list_to_set (map item_id sel) : gset string)
                  = list_to_set (map item_id cat)).
    { apply set_subseteq_size_eq; [exact Hsub |]. fold (distinct_ids cat). lia. }
    apply (proj1 (elem_of_list_to_set (C := gset string) _ _)). rewrite Heq.
    apply elem_of_list_to_set. apply list_elem_of_fmap. by exists item. }
  split; [| exact Hall].
  apply Nat.le_antisymm; [lia |]. rewrite Hlen. unfold distinct_ids.
  apply subseteq_size. intros i Hi. apply elem_of_list_to_set in Hi. apply elem_of_list_to_set.
  apply list_elem_of_fmap in Hi. destruct Hi as (item & -> & Hitem). by apply Hall.
Qed.

Lemma small_catalog_is_covered_witness :
  length (items_pool [Fixture.anna] [Fixture.color_item; Fixture.diagnosis_item]
            [] 7 true) = 3%nat.
Proof.
  apply (small_catalog_is_covered [Fixture.anna]
           [Fixture.color_item; Fixture.diagnosis_item] [] 7 true).
  vm_compute. discriminate.
Defined.

(** X20: a count of zero gives no question.  A negative count is not refused:
    the slice [[:n]] then drops the last [-n] items, and it is taken
    twice, so the fallback asks about the selected items but the last
    [2 * -n]. *)
Theorem nonpositive_count (w : World) (client : option Completion)
    (patient : Patient) (family_members : list FamilyMember)
    (knowledge_items : list KnowledgeItem) (due_items : list DueEntry) (n : Z)
    (include_sensitive : bool) :
  n <= 0 ->
  falls_back client include_sensitive family_members knowledge_items due_items = true ->
  exists qs w',
    generate_quiz_questions client patient family_members knowledge_items due_items
      n include_sensitive w = (Return (Py.JArr qs), w') /\
    (n = 0 -> qs = []) /\
    (n < 0 ->
     length qs
       = (length (select_items family_members knowledge_items due_items n
                    include_sensitive) - 2 * Z.to_nat (- n))%nat).
Proof.
  intros Hn Hfb.
  rewrite (generate_falls_back w client patient _ _ _ n _ Hfb).
  eexists _, _. split; [reflexivity |]. split.
  - intros ->. reflexivity.
  - intros Hneg. rewrite drafts_length. unfold fallback_items, items_pool.
    rewrite app_nil_r. set (sel := select_items _ _ _ _ _). unfold Py.slice_to.
    rewrite (proj2 (Z.leb_gt 0 n)) by lia. rewrite !length_take. lia.
Qed.

Lemma nonpositive_count_witness :
  exists qs w',
    generate_quiz_questions None Fixture.bob [Fixture.anna]
      [Fixture.color_item; Fixture.diagnosis_item]
      [DueFamily "f1"; DueKnowledge "k1" 0] (-1) true
      (Fixture.world_of Fixture.no_rows) = (Return (Py.JArr qs), w') /\
    length qs = 1%nat.
Proof.
  destruct (nonpositive_count (Fixture.world_of Fixture.no_rows) None Fixture.bob
              [Fixture.anna] [Fixture.color_item; Fixture.diagnosis_item]
              [DueFamily "f1"; DueKnowledge "k1" 0] (-1) true)
    as (qs & w' & E & _ & Hlen).
  - lia.
  - reflexivity.
  - exists qs, w'. split; [exact E |]. rewrite Hlen by lia. vm_compute. reflexivity.
Defined.

End AssemblerMore.

(** ** The catalog tables and the session table *)
Section Catalog.
Import Db DbCatalog Spec Terms.

Lemma head_filter_snoc {A} (P : A -> Prop) `{!forall x, Decision (P x)}
    (l : list A) (x : A) :
  (forall r, r ∈ l -> ~ P r) -> P x -> head (filter P (l ++ [x])) = Some x.
Proof.
  intros Hnone Hx. rewrite filter_app.
  assert (E : filter P l = []).
  { induction l as [|a l IH]; [reflexivity |]. rewrite filter_cons.
    rewrite decide_False by (apply Hnone, list_elem_of_here).
    apply IH. intros r Hr. apply Hnone. by apply list_elem_of_further. }
  rewrite E. simpl. rewrite filter_cons, decide_True by exact Hx. reflexivity.
Qed.

Lemma filter_snoc_other {A} (P : A -> Prop) `{!forall x, Decision (P x)}
    (l : list A) (x : A) :
  ~ P x -> filter P (l ++ [x]) = filter P l.
Proof.
  intros Hx. rewrite filter_app, (filter_cons P x []), decide_False by exact Hx.
  by rewrite filter_nil, app_nil_r.
Qed.

Lemma filter_snoc_same {A} (P : A -> Prop) `{!forall x, Decision (P x)}
    (l : list A) (x : A) :
  P x -> filter P (l ++ [x]) = filter P l ++ [x].
Proof.
  intros Hx. rewrite filter_app, (filter_cons P x []), decide_True by exact Hx.
  by rewrite filter_nil.
Qed.

Lemma filter_map_commute {A} (P : A -> Prop) `{!forall x, Decision (P x)}
    (f : A -> A) (l : list A) :
  (forall r, P (f r) <-> P r) -> filter P (map f l) = map f (filter P l).
Proof.
  intros Hf. induction l as [|a l IH]; [reflexivity |].
  simpl map. rewrite !filter_cons, IH.
  destruct (decide (P a)) as [Ha|Ha].
  - rewrite decide_True by (by apply Hf). reflexivity.
  - rewrite decide_False by (by rewrite Hf). reflexivity.
Qed.

Lemma fresh_id {A} (f : A -> string) (l : list A) (i : string) :
  i ∉ map f l -> forall r, r ∈ l -> ~ f r = i.
Proof.
  intros Hfresh r Hr E. apply Hfresh. rewrite <- E.
  apply list_elem_of_fmap. by exists r.
Qed.

(** *** Knowledge items *)

(** X21: adding a knowledge item under an id no row has yet returns the stored
    row: the drawn id, the patient, the fields of the request and the
    time of the call.  The row is then found by its id and is the last of
    the patient's list; the other ids and the other patients read as
    before. *)
Theorem add_knowledge_item_then_get (w : World) (patient_id : string)
    (data : KnowledgeItemCreate) :
  uuids w (draws w) ∉ map ki_id (knowledge_items (engine w)) ->
  exists row w',
    add_knowledge_item patient_id data w = (Return (Some row), w') /\
    row = {| ki_id := uuids w (draws w); ki_patient_id := patient_id;
             ki_category := kc_category data; ki_label := kc_label data;
             ki_value := kc_value data;
             ki_sensitivity_level := kc_sensitivity_level data;
             ki_is_active := kc_is_active data;
             ki_created_at := Some (clock w (ticks w)) |} /\
    get_knowledge_item (ki_id row) w' = (Return (Some row), w') /\
    (forall i, i <> ki_id row ->
       fst (get_knowledge_item i w') = fst (get_knowledge_item i w)) /\
    (exists rows,
       list_knowledge_items patient_id None w = (Return rows, w) /\
       list_knowledge_items patient_id None w' = (Return (rows ++ [row]), w')) /\
    (forall p category, p <> patient_id ->
       fst (list_knowledge_items p category w')
       = fst (list_knowledge_items p category w)).
Proof.
  intros Hfresh.
  unfold add_knowledge_item, bind, _uuid, utcnow, write, get_knowledge_item, read.
  cbn [engine clock ticks uuids draws set_knowledge_items knowledge_items].
  set (row := {| ki_id := uuids w (draws w) |}).
  rewrite (head_filter_snoc (fun r => ki_id r = uuids w (draws w)));
    [| by apply fresh_id | reflexivity].
  eexists row, _. split; [reflexivity |]. split; [reflexivity |].
  unfold list_knowledge_items, read, set_knowledge_items.
  cbn [engine knowledge_items fst Py.truthy].
  split; [| split; [| split]].
  - rewrite (head_filter_snoc (fun r => ki_id r = uuids w (draws w)));
      [reflexivity | by apply fresh_id | reflexivity].
  - intros i Hi. rewrite filter_snoc_other; [reflexivity |]. unfold row in *.
    simpl in *. congruence.
  - eexists. split; [reflexivity |].
    rewrite filter_snoc_same by reflexivity. reflexivity.
  - intros p category Hp.
    rewrite (filter_snoc_other (fun r => ki_patient_id r = p)) by (unfold row; simpl; congruence).
    reflexivity.
Qed.

Lemma add_knowledge_item_then_get_witness :
  exists row w',
    add_knowledge_item "p1"
      {| kc_category := "personal"; kc_label := "home town"; kc_value := "Lyon";
         kc_sensitivity_level := 1; kc_is_active := true |}
      (Fixture.world_of Fixture.reviewed_engine) = (Return (Some row), w') /\
    get_knowledge_item "uuid-0" w' = (Return (Some row), w').
Proof.
  destruct (add_knowledge_item_then_get (Fixture.world_of Fixture.reviewed_engine)
              "p1"
              {| kc_category := "personal"; kc_label := "home town";
                 kc_value := "Lyon"; kc_sensitivity_level := 1;
                 kc_is_active := true |})
    as (row & w' & E & -> & Hget & _).
  - simpl. intros Hin. apply list_elem_of_singleton in Hin. discriminate.
  - eexists _, w'. split; [exact E | exact Hget].
Defined.

(** X22: with a category the list is the part of the patient's list in that
    category, in the same order; without one, and also with the empty
    string for one, it is the whole list.  Nothing is written. *)
Theorem list_knowledge_items_category (w : World) (patient_id : string)
    (category : option string) :
  exists rows every,
    list_knowledge_items patient_id category w = (Return rows, w) /\
    list_knowledge_items patient_id None w = (Return every, w) /\
    (forall k, k ∈ every <->
       k ∈ knowledge_items (engine w) /\ ki_patient_id k = patient_id) /\
    rows `sublist_of` every /\
    (category = None \/ category = Some "" -> rows = every) /\
    (forall c, category = Some c -> c <> "" ->
       forall k, k ∈ rows <-> k ∈ every /\ ki_category k = c).
Proof.
  unfold list_knowledge_items, read. eexists _, _.
  split; [reflexivity |]. split; [reflexivity |].
  cbn [Py.truthy]. split; [| split; [| split]].
  - intros k. rewrite list_elem_of_filter. tauto.
  - destruct (Py.truthy category); [apply sublist_filter | reflexivity].
  - intros [->| ->]; reflexivity.
  - intros c -> Hc. rewrite truthy_some by exact Hc. intros k.
    rewrite list_elem_of_filter. split.
    + intros [E Hk]. split; [exact Hk | congruence].
    + intros [Hk E]. split; [congruence | exact Hk].
Qed.

Lemma list_knowledge_items_category_witness :
  exists rows,
    list_knowledge_items "p1" (Some "medical")
      (Fixture.world_of
         (set_knowledge_items [Fixture.color_item; Fixture.diagnosis_item]
            Fixture.no_rows))
    = (Return rows,
       Fixture.world_of
         (set_knowledge_items [Fixture.color_item; Fixture.diagnosis_item]
            Fixture.no_rows)) /\
    Fixture.diagnosis_item ∈ rows.
Proof.
  destruct (list_knowledge_items_category
              (Fixture.world_of
                 (set_knowledge_items [Fixture.color_item; Fixture.diagnosis_item]
                    Fixture.no_rows)) "p1" (Some "medical"))
    as (rows & every & E & Ev & _ & _ & _ & Hcat).
  exists rows. split; [exact E |].
  apply (Hcat "medical" eq_refl); [discriminate |].
  injection Ev as <-. split; [| reflexivity].
  apply list_elem_of_further, list_elem_of_here.
Defined.

Lemma add_knowledge_snoc (rows : list KnowledgeItem) (row : KnowledgeItem) :
  forall (due_list : list DueEntry) (known_ids : gset string),
    ki_id row ∉ (add_knowledge rows due_list known_ids).2 ->
    (add_knowledge (rows ++ [row]) due_list known_ids).1
    = (add_knowledge rows due_list known_ids).1 ++ [knowledge_entry row].
Proof.
  induction rows as [|r rest IH]; intros due_list known_ids Hnew; simpl in *.
  - by rewrite decide_False by exact Hnew.
  - destruct (decide (ki_id r ∈ known_ids)); by apply IH.
Qed.

(** X23: a knowledge item just added is due at once: when the drawn id is new
    to the knowledge items, the family members and the mastery rows, the
    patient's due list ends with the entry of the new item, of type
    "knowledge" and with the sensitivity level of the request. *)
Theorem added_knowledge_item_is_due (w : World) (patient_id : string)
    (data : KnowledgeItemCreate) :
  uuids w (draws w) ∉ map ki_id (knowledge_items (engine w)) ->
  uuids w (draws w) ∉ map fm_id (family_members (engine w)) ->
  uuids w (draws w) ∉ map m_item_id (mastery (engine w)) ->
  exists row w1 due_list w2,
    add_knowledge_item patient_id data w = (Return (Some row), w1) /\
    ki_id row = uuids w (draws w) /\
    due_items patient_id w1
    = (Return (due_list ++ [DueKnowledge (ki_id row) (kc_sensitivity_level data)]),
       w2).
Proof.
  intros Hk Hf Hm.
  set (row := {| ki_id := uuids w (draws w); ki_patient_id := patient_id;
                 ki_category := kc_category data; ki_label := kc_label data;
                 ki_value := kc_value data;
                 ki_sensitivity_level := kc_sensitivity_level data;
                 ki_is_active := kc_is_active data;
                 ki_created_at := Some (clock w (ticks w)) |}).
  set (w1 := {| engine :=
                  set_knowledge_items (knowledge_items (engine w) ++ [row]) (engine w);
                clock := clock w; ticks := S (ticks w); uuids := uuids w;
                draws := S (draws w) |}).
  assert (Eadd : add_knowledge_item patient_id data w = (Return (Some row), w1)).
  { unfold add_knowledge_item, bind, _uuid, utcnow, write, get_knowledge_item, read.
    cbn [engine clock ticks uuids draws set_knowledge_items knowledge_items].
    rewrite (head_filter_snoc (fun r => ki_id r = uuids w (draws w)));
      [reflexivity | by apply fresh_id | reflexivity]. }
  assert (Edue : exists due_list w2,
             due_items patient_id w1
             = (Return (due_list ++ [knowledge_entry row]), w2)).
  { unfold due_items, bind, utcnow, read, w1, set_knowledge_items.
    cbn [engine clock ticks uuids draws knowledge_items family_members mastery].
    rewrite (filter_snoc_same (fun r => ki_patient_id r = patient_id)) by reflexivity.
    set (rows := List.filter _ (mastery (engine w))).
    set (frows := filter _ (family_members (engine w))).
    set (krows := filter _ (knowledge_items (engine w))).
    destruct (add_family_shape frows (map DueMastery rows)
                (list_to_set (map m_item_id rows)))
      as (ids & _ & _ & Hids & E2 & _).
    destruct (add_family frows _ _) as [due1 known1]. simpl in E2.
    destruct (add_knowledge_shape krows due1 known1) as (ks & _ & _ & Hks & E4 & _).
    eexists _, _. rewrite add_knowledge_snoc; [reflexivity |].
    rewrite E4, E2. intros Hin.
    apply elem_of_union in Hin. destruct Hin as [Hin|Hin].
    - apply elem_of_list_to_set, list_elem_of_fmap in Hin.
      destruct Hin as (k & E & Hin). destruct (Hks k Hin) as [_ Hin'].
      apply list_elem_of_filter in Hin'. destruct Hin' as [_ Hin'].
      by apply (fresh_id ki_id _ _ Hk k Hin').
    - apply elem_of_union in Hin. destruct Hin as [Hin|Hin].
      + apply elem_of_list_to_set in Hin. destruct (Hids _ Hin) as [_ Hin'].
        apply list_elem_of_fmap in Hin'. destruct Hin' as (f & E & Hin').
        apply list_elem_of_filter in Hin'. destruct Hin' as [_ Hin'].
        by apply (fresh_id fm_id _ _ Hf f Hin').
      + apply elem_of_list_to_set, list_elem_of_fmap in Hin.
        destruct Hin as (m & E & Hin). apply list_elem_of_In, filter_In in Hin.
        destruct Hin as [Hin _]. apply list_elem_of_In in Hin.
        by apply (fresh_id m_item_id _ _ Hm m Hin). }
  destruct Edue as (due_list & w2 & Edue).
  exists row, w1, due_list, w2. split; [exact Eadd |]. split; [reflexivity |].
  exact Edue.
Qed.

Lemma added_knowledge_item_is_due_witness :
  exists row w1 due_list w2,
    add_knowledge_item "p1"
      {| kc_category := "personal"; kc_label := "home town"; kc_value := "Lyon";
         kc_sensitivity_level := 1; kc_is_active := true |}
      (Fixture.world_of Fixture.reviewed_engine) = (Return (Some row), w1) /\
    due_items "p1" w1 = (Return (due_list ++ [DueKnowledge "uuid-0" 1]), w2).
Proof.
  destruct (added_knowledge_item_is_due (Fixture.world_of Fixture.reviewed_engine)
              "p1"
              {| kc_category := "personal"; kc_label := "home town";
                 kc_value := "Lyon"; kc_sensitivity_level := 1;
                 kc_is_active := true |})
    as (row & w1 & due_list & w2 & E & Hid & Hdue).
  - simpl. intros Hin. apply list_elem_of_singleton in Hin. discriminate.
  - simpl. intros Hin. apply list_elem_of_singleton in Hin. discriminate.
  - simpl. intros Hin. apply elem_of_cons in Hin. destruct Hin as [Hin|Hin];
      [discriminate |]. apply list_elem_of_singleton in Hin. discriminate.
  - exists row, w1, due_list, w2. split; [exact E |]. rewrite Hid in Hdue. exact Hdue.
Defined.

(** *** Family members *)

(** X24: adding a family member under an id no row has yet returns the stored
    row, which is then found by its id and is the last of the patient's
    list; the other ids and the other patients read as before. *)
Theorem add_family_member_then_get (w : World) (patient_id : string)
    (data : FamilyMemberCreate) :
  uuids w (draws w) ∉ map fm_id (family_members (engine w)) ->
  exists row w',
    add_family_member patient_id data w = (Return (Some row), w') /\
    row = {| fm_id := uuids w (draws w); fm_patient_id := patient_id;
             fm_full_name := fc_full_name data;
             fm_relationship := fc_relationship data;
             fm_photo_blob_path := fc_photo_blob_path data;
             fm_created_at := Some (clock w (ticks w)) |} /\
    get_family_member (fm_id row) w' = (Return (Some row), w') /\
    (forall i, i <> fm_id row ->
       fst (get_family_member i w') = fst (get_family_member i w)) /\
    (exists rows,
       list_family_members patient_id w = (Return rows, w) /\
       list_family_members patient_id w' = (Return (rows ++ [row]), w')) /\
    (forall p, p <> patient_id ->
       fst (list_family_members p w') = fst (list_family_members p w)).
Proof.
  intros Hfresh.
  unfold add_family_member, bind, _uuid, utcnow, write, get_family_member, read.
  cbn [engine clock ticks uuids draws set_family_members family_members].
  set (row := {| fm_id := uuids w (draws w) |}).
  rewrite (head_filter_snoc (fun r => fm_id r = uuids w (draws w)));
    [| by apply fresh_id | reflexivity].
  eexists row, _. split; [reflexivity |]. split; [reflexivity |].
  unfold list_family_members, read, set_family_members.
  cbn [engine family_members fst].
  split; [| split; [| split]].
  - rewrite (head_filter_snoc (fun r => fm_id r = uuids w (draws w)));
      [reflexivity | by apply fresh_id | reflexivity].
  - intros i Hi. rewrite filter_snoc_other; [reflexivity |]. unfold row in *.
    simpl in *. congruence.
  - eexists. split; [reflexivity |].
    rewrite filter_snoc_same by reflexivity. reflexivity.
  - intros p Hp.
    rewrite (filter_snoc_other (fun r => fm_patient_id r = p)) by (unfold row; simpl; congruence).
    reflexivity.
Qed.

Lemma add_family_member_then_get_witness :
  exists row w',
    add_family_member "p1"
      {| fc_full_name := "Carl"; fc_relationship := "son";
         fc_photo_blob_path := None |}
      (Fixture.world_of Fixture.reviewed_engine) = (Return (Some row), w') /\
    get_family_member "uuid-0" w' = (Return (Some row), w').
Proof.
  destruct (add_family_member_then_get (Fixture.world_of Fixture.reviewed_engine)
              "p1"
              {| fc_full_name := "Carl"; fc_relationship := "son";
                 fc_photo_blob_path := None |})
    as (row & w' & E & -> & Hget & _).
  - simpl. intros Hin. apply list_elem_of_singleton in Hin. discriminate.
  - eexists _, w'. split; [exact E | exact Hget].
Defined.

Lemma photo_row_id (family_id blob_path : string) (r : FamilyMember) :
  fm_id (photo_row family_id blob_path r) = fm_id r.
Proof. unfold photo_row. by destruct (decide (fm_id r = family_id)). Qed.

Lemma photo_row_patient (family_id blob_path : string) (r : FamilyMember) :
  fm_patient_id (photo_row family_id blob_path r) = fm_patient_id r.
Proof. unfold photo_row. by destruct (decide (fm_id r = family_id)). Qed.

(** X25: setting the photo of a family member changes the photo path of the
    row of that id and nothing else: the member is then read with the new
    path and its other fields as before, every other member reads as
    before, and each patient's list keeps its members and their order.
    For an id without a row nothing changes, and nothing is raised. *)
Theorem update_family_photo_then_get (w : World) (family_id blob_path : string) :
  exists w',
    update_family_photo family_id blob_path w = (Return tt, w') /\
    (forall r, get_family_member family_id w = (Return (Some r), w) ->
       get_family_member family_id w'
       = (Return (Some {| fm_id := fm_id r; fm_patient_id := fm_patient_id r;
                          fm_full_name := fm_full_name r;
                          fm_relationship := fm_relationship r;
                          fm_photo_blob_path := Some blob_path;
                          fm_created_at := fm_created_at r |}), w')) /\
    (get_family_member family_id w = (Return None, w) -> engine w' = engine w) /\
    (forall i, i <> family_id ->
       fst (get_family_member i w') = fst (get_family_member i w)) /\
    (forall p, exists rows rows',
       list_family_members p w = (Return rows, w) /\
       list_family_members p w' = (Return rows', w') /\
       map fm_id rows' = map fm_id rows).
Proof.
  unfold update_family_photo, write, get_family_member, list_family_members, read.
  eexists. split; [reflexivity |].
  cbn [engine set_family_members family_members fst].
  split; [| split; [| split]].
  - intros r Hr. injection Hr as Hr.
    rewrite (filter_map_commute (fun r => fm_id r = family_id))
      by (intros r0; by rewrite photo_row_id).
    destruct (head_filter_Some _ _ _ Hr) as [Hid _].
    destruct (filter _ (family_members (engine w))) as [|r0 rest]; [discriminate |].
    injection Hr as ->. simpl. unfold photo_row. by rewrite decide_True by exact Hid.
  - intros Hnone. injection Hnone as Hnone.
    assert (Hall : forall r, r ∈ family_members (engine w) -> fm_id r <> family_id).
    { intros r Hr E.
      assert (Hin : r ∈ filter (fun r => fm_id r = family_id)
                          (family_members (engine w)))
        by (by apply list_elem_of_filter).
      destruct (filter _ (family_members (engine w))); [| discriminate].
      by apply elem_of_nil in Hin. }
    destruct (engine w) as [fms kis qss qqs qrs ms]. unfold set_family_members.
    simpl in *. f_equal. rewrite <- (map_id fms) at 2. apply map_ext_in.
    intros r Hr. apply list_elem_of_In in Hr. unfold photo_row.
    by rewrite decide_False by (by apply Hall).
  - intros i Hi. f_equal. f_equal. apply filter_map_frame. intros r _.
    unfold photo_row. destruct (decide (fm_id r = family_id)) as [E|NE]; [| by left].
    right. simpl. split; congruence.
  - intros p. eexists _, _. split; [reflexivity |]. split; [reflexivity |].
    rewrite (filter_map_commute (fun r => fm_patient_id r = p))
      by (intros r0; by rewrite photo_row_patient).
    rewrite map_map. apply map_ext. intros r. apply photo_row_id.
Qed.

Lemma update_family_photo_then_get_witness :
  exists w',
    update_family_photo "f1" "patient-photos/p1/f1/x.jpg"
      (Fixture.world_of Fixture.reviewed_engine) = (Return tt, w') /\
    exists r,
      get_family_member "f1" w' = (Return (Some r), w') /\
      fm_photo_blob_path r = Some "patient-photos/p1/f1/x.jpg" /\
      fm_full_name r = "Anna".
Proof.
  destruct (update_family_photo_then_get (Fixture.world_of Fixture.reviewed_engine)
              "f1" "patient-photos/p1/f1/x.jpg") as (w' & E & Hget & _).
  exists w'. split; [exact E |]. eexists. split.
  - apply (Hget Fixture.anna). reflexivity.
  - split; reflexivity.
Defined.

(** *** Sessions *)

(** X26: a session created under an id no session has yet is found by the id
    the call returns: it belongs to the patient, has the status and the
    number of questions of the call, and no score yet.  The sessions
    already there read as before, and no other table changes. *)
Theorem create_session_then_get (w : World) (patient_id : string)
    (total_questions : Z) (status : string) :
  uuids w (draws w) ∉ map qs_id (quiz_sessions (engine w)) ->
  exists session_id w',
    create_session patient_id total_questions status w = (Return session_id, w') /\
    get_session session_id w'
    = (Return (Some {| qs_id := session_id; qs_patient_id := patient_id;
                       qs_created_at := Some (clock w (ticks w));
                       qs_status := Some status;
                       qs_total_questions := Some total_questions;
                       qs_score := None; qs_avg_response_time_ms := None |}), w') /\
    (forall i, i <> session_id -> fst (get_session i w') = fst (get_session i w)) /\
    family_members (engine w') = family_members (engine w) /\
    knowledge_items (engine w') = knowledge_items (engine w) /\
    quiz_questions (engine w') = quiz_questions (engine w) /\
    quiz_responses (engine w') = quiz_responses (engine w) /\
    mastery (engine w') = mastery (engine w).
Proof.
  intros Hfresh.
  unfold create_session, bind, _uuid, utcnow, write, ret, get_session, read.
  cbn [engine clock ticks uuids draws set_quiz_sessions quiz_sessions].
  eexists _, _. split; [reflexivity |].
  cbn [engine quiz_sessions set_quiz_sessions fst family_members knowledge_items
       quiz_questions quiz_responses mastery].
  split; [| split; [| repeat split]].
  - rewrite (head_filter_snoc (fun r => qs_id r = uuids w (draws w)));
      [reflexivity | by apply fresh_id | reflexivity].
  - intros i Hi. rewrite filter_snoc_other; [reflexivity |]. simpl. congruence.
Qed.

Lemma create_session_then_get_witness :
  exists w' row,
    create_session "p1" 3 "active" (Fixture.world_of Fixture.quiz_engine)
    = (Return "uuid-0", w') /\
    get_session "uuid-0" w' = (Return (Some row), w') /\
    qs_status row = Some "active".
Proof.
  destruct (create_session_then_get (Fixture.world_of Fixture.quiz_engine)
              "p1" 3 "active") as (session_id & w' & E & Hget & _).
  - simpl. intros Hin. apply list_elem_of_singleton in Hin. discriminate.
  - simpl in E. injection E as <- <-. eexists _, _. split; [reflexivity |].
    split; [exact Hget | reflexivity].
Defined.

End Catalog.

(** ** Names of uploaded files *)
Section Upload.
Import Storage Terms.

Lemma all_safe_get (s : string) :
  all_safe s = true ->
  forall k c, String.get k s = Some c -> safe_char c = true.
Proof.
  induction s as [|a s IH]; intros Hs k c Hget; [destruct k; discriminate |].
  simpl in Hs. apply andb_true_iff in Hs. destruct Hs as [Ha Hs].
  destruct k as [|k]; simpl in Hget; [by injection Hget as <- |].
  by apply (IH Hs k).
Qed.

(** X27: the name a document is stored under is made of letters, digits, dots,
    underscores and hyphens only, so it holds no path separator; it is as
    long as the name given, and a name already of this kind, and only
    such a name, is kept as it is.  Cleaning twice is cleaning once. *)
Theorem safe_filename_is_safe (name : string) :
  all_safe (_safe_filename name) = true /\
  (forall k, String.get k (_safe_filename name) <> Some "/"%char /\
             String.get k (_safe_filename name) <> Some "\"%char) /\
  String.length (_safe_filename name) = String.length name /\
  (all_safe name = true <-> _safe_filename name = name) /\
  _safe_filename (_safe_filename name) = _safe_filename name.
Proof.
  assert (Hsafe : forall s, all_safe (_safe_filename s) = true).
  { induction s as [|a s IH]; [reflexivity |]. simpl. rewrite IH, andb_true_r.
    by destruct (safe_char a) eqn:E. }
  assert (Hfix : forall s, all_safe s = true -> _safe_filename s = s).
  { induction s as [|a s IH]; [reflexivity |]. simpl. intros Hs.
    apply andb_true_iff in Hs. destruct Hs as [-> Hs]. by rewrite IH. }
  split; [apply Hsafe |]. split; [| split; [| split]].
  - intros k. split; intros Hget;
      by pose proof (all_safe_get _ (Hsafe name) k _ Hget).
  - induction name as [|a s IH]; [reflexivity |]. simpl. by rewrite IH.
  - split; [apply Hfix |]. intros E. rewrite <- E. apply Hsafe.
  - apply Hfix, Hsafe.
Qed.

Lemma safe_filename_is_safe_witness :
  _safe_filename "scan.pdf" = "scan.pdf".
Proof. apply (proj1 (proj2 (proj2 (proj2 (safe_filename_is_safe "scan.pdf"))))). reflexivity. Defined.

End Upload.

(** ** The API key *)
Section ApiKey.
Import Db Api.

(** X28: a request is let through exactly when the server has a key that is
    not empty and the header carries that very key; the check never
    answers [False].  Without a key on the server every request is
    refused with status 500, whatever its header, and with one a request
    without the header is refused with status 401. *)
Theorem verify_api_key_accepts (API_KEY x_api_key : option string) :
  (verify_api_key API_KEY x_api_key = Return true <->
   exists key, key <> "" /\ API_KEY = Some key /\ x_api_key = Some key) /\
  verify_api_key API_KEY x_api_key <> Return false /\
  (API_KEY = None \/ API_KEY = Some "" ->
   verify_api_key API_KEY x_api_key
   = Raise (HTTPException 500 "Server missing APP_API_KEY")) /\
  (forall key, key <> "" -> API_KEY = Some key -> x_api_key <> Some key ->
   verify_api_key API_KEY x_api_key = Raise (HTTPException 401 "Invalid API key")).
Proof.
  unfold verify_api_key. split; [| split; [| split]].
  - split.
    + destruct API_KEY as [key|]; [| discriminate]. simpl.
      destruct (String.eqb_spec key "") as [->|Hkey]; [discriminate |]. simpl.
      destruct (bool_decide_reflect (x_api_key = Some key)) as [->|]; [| discriminate].
      intros _. by exists key.
    + intros (key & Hkey & -> & ->). rewrite truthy_some by exact Hkey. simpl.
      by rewrite bool_decide_true.
  - destruct (negb (Py.truthy API_KEY)); [discriminate |].
    destruct (negb (bool_decide (x_api_key = API_KEY))); discriminate.
  - intros [->| ->]; reflexivity.
  - intros key Hkey -> Hx. rewrite truthy_some by exact Hkey. simpl.
    by rewrite bool_decide_false.
Qed.

Lemma verify_api_key_accepts_witness :
  verify_api_key (Some "test-key") (Some "test-key") = Return true.
Proof.
  apply (proj2 (proj1 (verify_api_key_accepts (Some "test-key") (Some "test-key")))).
  exists "test-key". split; [discriminate | split; reflexivity].
Defined.

End ApiKey.
